(** * DPoR snapshot engine and unconfirmed-block tracker

    A shallow embedding of [consensus/dpor/snapshot.go] and
    [miner/unconfirmed.go].  Go values of type [uint64] are integers of [Z]
    with the wrap-around written out; pointers, maps and slice backing
    arrays live in an explicit heap, so that sharing between a snapshot and
    its copy is visible; a Go panic is an outcome of its own. *)

From Stdlib Require Import ZArith List Lia Permutation.
From stdpp Require Import base option list sorting gmap.

Local Open Scope Z_scope.

(* ===================================================================== *)
(** * Machine arithmetic *)
(* ===================================================================== *)

Module U64.

Definition modulus : Z := 2 ^ 64.

(** The value of a [uint64] expression: the mathematical result reduced
    modulo 2^64. *)
Definition wrap (x : Z) : Z := x mod modulus.

Definition add (a b : Z) : Z := wrap (a + b).
Definition sub (a b : Z) : Z := wrap (a - b).
Definition mul (a b : Z) : Z := wrap (a * b).

(** [int(x)] for a [uint64] [x] on a 64-bit platform: the same 64 bits
    read as two's complement. *)
Definition to_int (x : Z) : Z :=
  if x <? 2 ^ 63 then x else x - modulus.

(** [float64(x)] for a [uint64] [x]: round to nearest, ties to even, on a
    53-bit significand.  Every such float is a non-negative integer, so
    it is represented by that integer. *)
Definition to_float64 (x : Z) : Z :=
  if x <? 2 ^ 53 then x
  else
    let e := Z.log2 x - 52 in
    let q := Z.shiftr x e in
    let r := Z.land x (Z.ones e) in
    let half := Z.shiftl 1 (e - 1) in
    let q' := if (half <? r) || ((r =? half) && Z.odd q) then q + 1 else q in
    Z.shiftl q' e.

(** [uint64(f)] for a non-negative integral float [f].  When [f] does not
    fit (here: [f = 2^64]) the Go specification leaves the result to the
    implementation; [overflow] is that result. *)
Definition of_float64 (overflow : Z) (f : Z) : Z :=
  if f <? modulus then f else overflow.

(** [big.Int.Uint64]: the low 64 bits of the absolute value. *)
Definition of_big (x : Z) : Z := Z.abs x mod modulus.

(** [big.Int.Int64]: the low 64 bits of the absolute value read as
    [int64], negated for a negative [x]. *)
Definition int64_of_big (x : Z) : Z :=
  let v := to_int (Z.abs x mod modulus) in
  if x <? 0 then
    let n := (- v) mod modulus in to_int n
  else v.

End U64.

(* ===================================================================== *)
(** * The Go run time: heap, slices, maps, panics *)
(* ===================================================================== *)

Module Go.

Inductive panic_kind : Type :=
| NilDereference
| NilMapAssignment
| DivideByZero
| SliceBoundsOutOfRange.

Inductive outcome (A : Type) : Type :=
| Ret (a : A)
| Panic (why : panic_kind).
Arguments Ret {A} a.
Arguments Panic {A} why.

(** A slice header: the backing array (none for the nil slice), its
    length and its capacity.  Every slice of the embedded code starts at
    offset 0 of its array. *)
Record slice : Type := Slice {
  s_array : option nat;
  s_len : nat;
  s_cap : nat
}.

Definition nil_slice : slice := Slice None 0 0.

(** A map reference; [None] is the nil map. *)
Definition mapref : Type := option nat.

Section Heap.
(** [S] is the type of structs allocated on the heap, [E] the type of
    array elements. *)
Context {S E : Type}.

Record heap : Type := Heap {
  structs : list S;
  maps : list (gmap Z slice);
  arrays : list (list E)
}.

Definition empty_heap : heap := Heap [] [] [].

Definition M (A : Type) : Type := heap -> outcome A * heap.

Definition ret {A} (a : A) : M A := fun h => (Ret a, h).

Definition bind {A B} (m : M A) (f : A -> M B) : M B :=
  fun h =>
    match m h with
    | (Ret a, h') => f a h'
    | (Panic w, h') => (Panic w, h')
    end.

Definition panic {A} (w : panic_kind) : M A := fun h => (Panic w, h).

(** ** Structs behind pointers *)

Definition new (s : S) : M nat :=
  fun h => (Ret (length (structs h)),
            Heap (structs h ++ [s]) (maps h) (arrays h)).

Definition load (p : nat) : M S :=
  fun h =>
    match structs h !! p with
    | Some s => (Ret s, h)
    | None => (Panic NilDereference, h)
    end.

Definition store (p : nat) (s : S) : M unit :=
  fun h =>
    match structs h !! p with
    | Some _ => (Ret tt, Heap (<[p := s]> (structs h)) (maps h) (arrays h))
    | None => (Panic NilDereference, h)
    end.

(** ** Maps [map[uint64][]E] *)

Definition make_map : M mapref :=
  fun h => (Ret (Some (length (maps h))),
            Heap (structs h) (maps h ++ [∅]) (arrays h)).

Definition map_contents (h : heap) (r : mapref) : gmap Z slice :=
  match r with
  | Some l => default ∅ (maps h !! l)
  | None => ∅
  end.

Definition map_get (r : mapref) (k : Z) : M (option slice) :=
  fun h => (Ret (map_contents h r !! k), h).

Definition map_set (r : mapref) (k : Z) (v : slice) : M unit :=
  fun h =>
    match r with
    | Some l =>
        (Ret tt,
         Heap (structs h) (<[l := <[k := v]> (map_contents h r)]> (maps h))
              (arrays h))
    | None => (Panic NilMapAssignment, h)
    end.

Definition map_delete (r : mapref) (k : Z) : M unit :=
  fun h =>
    match r with
    | Some l =>
        (Ret tt,
         Heap (structs h) (<[l := delete k (map_contents h r)]> (maps h))
              (arrays h))
    | None => (Ret tt, h)
    end.

(** [for k, v := range m]: the entries in the order the run time picks.
    Go leaves the order unspecified; [order] is the run time's choice,
    a rearrangement of the entries. *)
Definition map_range (order : list (Z * slice) -> list (Z * slice))
    (r : mapref) : M (list (Z * slice)) :=
  fun h => (Ret (order (map_to_list (map_contents h r))), h).

(** ** Slices *)

Definition slice_elems (h : heap) (s : slice) : list E :=
  match s_array s with
  | Some a => take (s_len s) (default [] (arrays h !! a))
  | None => []
  end.

(** [make([]E, n)] with [zero] the zero value of [E]. *)
Definition make_slice (zero : E) (n : nat) : M slice :=
  fun h => (Ret (Slice (Some (length (arrays h))) n n),
            Heap (structs h) (maps h) (arrays h ++ [replicate n zero])).

(** A composite literal [[]E{...}]. *)
Definition slice_lit (l : list E) : M slice :=
  fun h => (Ret (Slice (Some (length (arrays h))) (length l) (length l)),
            Heap (structs h) (maps h) (arrays h ++ [l])).

(** The built-in [copy(dst, src)]: the first [min(len dst, len src)]
    elements of [src] overwrite those of [dst]'s array. *)
Definition copy (dst src : slice) : M unit :=
  fun h =>
    match s_array dst with
    | Some a =>
        let old := default [] (arrays h !! a) in
        let n := Nat.min (s_len dst) (s_len src) in
        let new_ := take n (slice_elems h src) ++ drop n old in
        (Ret tt, Heap (structs h) (maps h) (<[a := new_]> (arrays h)))
    | None => (Ret tt, h)
    end.

(** [s[:n]] for a [uint64] index [n]. *)
Definition reslice (s : slice) (n : Z) : M slice :=
  if n <=? Z.of_nat (s_cap s)
  then ret (Slice (s_array s) (Z.to_nat n) (s_cap s))
  else panic SliceBoundsOutOfRange.

(** The elements a [range] over the slice [s] visits. *)
Definition elems (s : slice) : M (list E) :=
  fun h => (Ret (slice_elems h s), h).

(** The result of a call into code that has no access to the heap. *)
Definition lift {A} (o : outcome A) : M A := fun h => (o, h).

(** Unsigned division and remainder; both panic on a zero divisor. *)
Definition udiv (a b : Z) : M Z :=
  if b =? 0 then panic DivideByZero else ret (a / b).

Definition urem (a b : Z) : M Z :=
  if b =? 0 then panic DivideByZero else ret (a mod b).

(** [for _, x := range l { body x }]. *)
Fixpoint for_each {A} (l : list A) (body : A -> M unit) : M unit :=
  match l with
  | [] => ret tt
  | x :: l' => bind (body x) (fun _ => for_each l' body)
  end.

End Heap.

Arguments heap : clear implicits.
Arguments M : clear implicits.

End Go.

Declare Scope go_scope.
Delimit Scope go_scope with go.
Notation "x <- m ;; k" := (Go.bind m (fun x => k))
  (at level 100, m at next level, right associativity) : go_scope.
Notation "m ;;; k" := (Go.bind m (fun _ => k))
  (at level 100, right associativity) : go_scope.

(* ===================================================================== *)
(** * Package [types]: block headers *)
(* ===================================================================== *)

Module types.

(** The header fields the consensus engine and the hash read.  [Number]
    is a [big.Int]; hashes and addresses are the big-endian numbers of
    their bytes. *)
Record Header : Type := {
  ParentHash : Z;
  Coinbase : Z;
  Number : Z;
  Time : Z
}.

(** [sigHash]: Keccak-256 over the RLP encoding of the header without
    its second extra field.  The digest is taken as given. *)
Class Keccak : Type := { sigHash : Header -> Z }.

Definition Hash `{Keccak} (h : Header) : Z := sigHash h.

End types.

(* ===================================================================== *)
(** * Package [types]: block nonces and the second extra field *)
(* ===================================================================== *)

(** [encoding/binary], big endian: [PutUint64] writes [byte(v >> 56)] to
    [byte(v)] into the first eight bytes, [Uint64] reads them back as
    [uint64(b[7]) | uint64(b[6])<<8 | ... | uint64(b[0])<<56]. *)
Module binary.

Definition PutUint64 (v : Z) : list Z :=
  [ Z.land (Z.shiftr v 56) 255; Z.land (Z.shiftr v 48) 255;
    Z.land (Z.shiftr v 40) 255; Z.land (Z.shiftr v 32) 255;
    Z.land (Z.shiftr v 24) 255; Z.land (Z.shiftr v 16) 255;
    Z.land (Z.shiftr v 8) 255; Z.land v 255 ].

Definition Uint64 (b : list Z) : Z :=
  Z.lor (Z.lor (Z.lor (Z.lor (Z.lor (Z.lor (Z.lor
    (nth 7 b 0)
    (Z.shiftl (nth 6 b 0) 8)) (Z.shiftl (nth 5 b 0) 16))
    (Z.shiftl (nth 4 b 0) 24)) (Z.shiftl (nth 3 b 0) 32))
    (Z.shiftl (nth 2 b 0) 40)) (Z.shiftl (nth 1 b 0) 48))
    (Z.shiftl (nth 0 b 0) 56).

End binary.

Module Block.

(** A byte string is the list of its bytes; a [BlockNonce] is one of
    length 8. *)
Definition is_bytes (l : list Z) : Prop := Forall (fun b => 0 <= b < 256) l.

Definition EncodeNonce (i : Z) : list Z := binary.PutUint64 i.

(** The method [Uint64] of a [BlockNonce]. *)
Definition BlockNonce_Uint64 (n : list Z) : Z := binary.Uint64 n.

Inductive error : Type :=
| errTooShortExtra2
| errUnknownExtra2Type.

Definition TypeExtra2Signatures : Z := 0.

Record Extra2Struct : Type := {
  Type_ : Z;
  Data : list Z
}.

(** [Extra2Struct{}] *)
Definition no_Extra2Struct : Extra2Struct := {| Type_ := 0; Data := [] |}.

Definition TypeExtra2SignaturesDecoder (extra2 : list Z)
    : Extra2Struct * option error :=
  if (length extra2 <? 1)%nat then (no_Extra2Struct, Some errTooShortExtra2)
  else ({| Type_ := TypeExtra2Signatures; Data := drop 1 extra2 |}, None).

Definition TypeExtra2SignaturesEncoder (data : Extra2Struct)
    : list Z * option error :=
  (TypeExtra2Signatures :: Data data, None).

Record EncoderAndDecoder : Type := {
  Encoder : Extra2Struct -> list Z * option error;
  Decoder : list Z -> Extra2Struct * option error
}.

(** The registry, as the package initialises it. *)
Definition Extra2RegisterMapping : gmap Z EncoderAndDecoder :=
  {[ TypeExtra2Signatures :=
       {| Encoder := TypeExtra2SignaturesEncoder;
          Decoder := TypeExtra2SignaturesDecoder |} ]}.

(** What a call on a header returns, or the run-time panic of an index
    out of range. *)
Inductive result (A : Type) : Type :=
| Returns (a : A)
| PanicsIndexOutOfRange.
Arguments Returns {A} a.
Arguments PanicsIndexOutOfRange {A}.

(** The two methods of a header on its second extra field; of the
    header they read and write the field [Extra2] only, which stands for
    the header here.  [DecodedExtra2] indexes its copy of the field
    before it looks at anything else, and does not use the decoder it is
    given. *)
Definition DecodedExtra2 (Extra2 : list Z)
    (decoder : list Z -> Extra2Struct * option error)
    : result (Extra2Struct * option error) :=
  match Extra2 with
  | [] => PanicsIndexOutOfRange
  | dataType :: _ =>
      match Extra2RegisterMapping !! dataType with
      | None => Returns (no_Extra2Struct, Some errUnknownExtra2Type)
      | Some encoderAndDecoder => Returns (Decoder encoderAndDecoder Extra2)
      end
  end.

(** [EncodeToExtra2]: the new value of the field and the error. *)
Definition EncodeToExtra2 (Extra2 : list Z) (data : Extra2Struct)
    : list Z * option error :=
  match Extra2RegisterMapping !! Type_ data with
  | None => (Extra2, Some errUnknownExtra2Type)
  | Some encoderAndDecoder =>
      match Encoder encoderAndDecoder data with
      | (_, Some err) => (Extra2, Some err)
      | (extra2, None) => (extra2, None)
      end
  end.

Import Go.
Local Open Scope go_scope.

(** ** Headers and blocks behind pointers

    A header as the functions that copy it see it: the three [*big.Int]
    fields are pointers ([None] is nil), the two extra fields are
    slices, the hashes, the address and the bloom filter are the numbers
    of their bytes. *)
Record Header : Type := {
  ParentHash : Z;
  Coinbase : Z;
  StateRoot : Z;
  TxsRoot : Z;
  ReceiptsRoot : Z;
  LogsBloom : Z;
  Difficulty : option nat;
  Number : option nat;
  GasLimit : Z;
  GasUsed : Z;
  Time : option nat;
  Extra : slice;
  Extra2 : slice;
  MixHash : Z;
  Nonce : list Z
}.

(** The fields of a block that the functions below read or set; the
    caches and the relay fields keep their zero value there. *)
Record Block : Type := {
  header : option nat;
  transactions : slice;
  td : option nat
}.

(** What a pointer points to.  Pointers are typed in Go: a load at
    another type than the object's does not occur in a program that
    compiles, and is a nil dereference here. *)
Inductive object : Type :=
| HeaderObject (h : Header)
| BlockObject (b : Block)
| IntObject (v : Z).

Definition heap : Type := Go.heap object Z.
Definition M (A : Type) : Type := Go.M object Z A.

Definition load_header (p : option nat) : M Header :=
  match p with
  | None => panic NilDereference
  | Some a =>
      o <- load a ;;
      match o with
      | HeaderObject h => ret h
      | _ => panic NilDereference
      end
  end.

Definition load_block (p : option nat) : M Block :=
  match p with
  | None => panic NilDereference
  | Some a =>
      o <- load a ;;
      match o with
      | BlockObject b => ret b
      | _ => panic NilDereference
      end
  end.

Definition load_int (p : option nat) : M Z :=
  match p with
  | None => panic NilDereference
  | Some a =>
      o <- load a ;;
      match o with
      | IntObject v => ret v
      | _ => panic NilDereference
      end
  end.

(** [new(big.Int)]: a new number, zero. *)
Definition new_Int : M (option nat) :=
  a <- new (IntObject 0) ;; ret (Some a).

(** [z.Set(x)] of [math/big]: [z] takes the value of [x], and is
    returned; nothing is read when [z] and [x] are the same pointer. *)
Definition Int_Set (z x : option nat) : M (option nat) :=
  if decide (z = x) then ret z
  else
    v <- load_int x ;;
    match z with
    | Some a => store a (IntObject v) ;;; ret z
    | None => panic NilDereference
    end.

(** The assignments to the fields of the copy. *)
Definition set_Time (t : option nat) (h : Header) : Header :=
  {| ParentHash := ParentHash h; Coinbase := Coinbase h; StateRoot := StateRoot h;
     TxsRoot := TxsRoot h; ReceiptsRoot := ReceiptsRoot h; LogsBloom := LogsBloom h;
     Difficulty := Difficulty h; Number := Number h; GasLimit := GasLimit h;
     GasUsed := GasUsed h; Time := t; Extra := Extra h; Extra2 := Extra2 h;
     MixHash := MixHash h; Nonce := Nonce h |}.

Definition set_Difficulty (d : option nat) (h : Header) : Header :=
  {| ParentHash := ParentHash h; Coinbase := Coinbase h; StateRoot := StateRoot h;
     TxsRoot := TxsRoot h; ReceiptsRoot := ReceiptsRoot h; LogsBloom := LogsBloom h;
     Difficulty := d; Number := Number h; GasLimit := GasLimit h;
     GasUsed := GasUsed h; Time := Time h; Extra := Extra h; Extra2 := Extra2 h;
     MixHash := MixHash h; Nonce := Nonce h |}.

Definition set_Number (n : option nat) (h : Header) : Header :=
  {| ParentHash := ParentHash h; Coinbase := Coinbase h; StateRoot := StateRoot h;
     TxsRoot := TxsRoot h; ReceiptsRoot := ReceiptsRoot h; LogsBloom := LogsBloom h;
     Difficulty := Difficulty h; Number := n; GasLimit := GasLimit h;
     GasUsed := GasUsed h; Time := Time h; Extra := Extra h; Extra2 := Extra2 h;
     MixHash := MixHash h; Nonce := Nonce h |}.

Definition set_Extra (e : slice) (h : Header) : Header :=
  {| ParentHash := ParentHash h; Coinbase := Coinbase h; StateRoot := StateRoot h;
     TxsRoot := TxsRoot h; ReceiptsRoot := ReceiptsRoot h; LogsBloom := LogsBloom h;
     Difficulty := Difficulty h; Number := Number h; GasLimit := GasLimit h;
     GasUsed := GasUsed h; Time := Time h; Extra := e; Extra2 := Extra2 h;
     MixHash := MixHash h; Nonce := Nonce h |}.

Definition set_Extra2 (e : slice) (h : Header) : Header :=
  {| ParentHash := ParentHash h; Coinbase := Coinbase h; StateRoot := StateRoot h;
     TxsRoot := TxsRoot h; ReceiptsRoot := ReceiptsRoot h; LogsBloom := LogsBloom h;
     Difficulty := Difficulty h; Number := Number h; GasLimit := GasLimit h;
     GasUsed := GasUsed h; Time := Time h; Extra := Extra h; Extra2 := e;
     MixHash := MixHash h; Nonce := Nonce h |}.

(** [CopyHeader]: [cpy := *h], then a new number for each of the three
    [big.Int] fields, set to the original's when that is not nil, and a
    new array for each extra field that is not empty.  The struct behind
    the pointer returned is put on the heap when it is complete. *)
Definition CopyHeader (h : option nat) : M (option nat) :=
  hd <- load_header h ;;
  let cpy := hd in
  t <- new_Int ;;
  let cpy := set_Time t cpy in
  (if Time hd is Some _ then Int_Set (Time cpy) (Time hd) ;;; ret tt else ret tt) ;;;
  d <- new_Int ;;
  let cpy := set_Difficulty d cpy in
  (if Difficulty hd is Some _
   then Int_Set (Difficulty cpy) (Difficulty hd) ;;; ret tt else ret tt) ;;;
  n <- new_Int ;;
  let cpy := set_Number n cpy in
  (if Number hd is Some _ then Int_Set (Number cpy) (Number hd) ;;; ret tt else ret tt) ;;;
  cpy <- (if (0 <? s_len (Extra hd))%nat
          then e <- make_slice 0 (s_len (Extra hd)) ;;
               copy e (Extra hd) ;;;
               ret (set_Extra e cpy)
          else ret cpy) ;;
  cpy <- (if (0 <? s_len (Extra2 hd))%nat
          then e <- make_slice 0 (s_len (Extra2 hd)) ;;
               copy e (Extra2 hd) ;;;
               ret (set_Extra2 e cpy)
          else ret cpy) ;;
  p <- new (HeaderObject cpy) ;;
  ret (Some p).

(** [NewBlockWithHeader]: [&Block{header: CopyHeader(header)}]. *)
Definition NewBlockWithHeader (header : option nat) : M (option nat) :=
  c <- CopyHeader header ;;
  b <- new (BlockObject {| header := c; transactions := nil_slice; td := None |}) ;;
  ret (Some b).

(** [WithSeal]: [cpy := *header], and a block on [&cpy] with the
    transactions of [b]. *)
Definition WithSeal (b : option nat) (header : option nat) : M (option nat) :=
  cpy <- load_header header ;;
  c <- new (HeaderObject cpy) ;;
  blk <- load_block b ;;
  r <- new (BlockObject {| header := Some c; transactions := transactions blk;
                           td := None |}) ;;
  ret (Some r).

(** The methods [Number], [Difficulty] and [Time] of a block:
    [new(big.Int).Set(b.header.X)]. *)
Definition Block_Number (b : option nat) : M (option nat) :=
  z <- new_Int ;;
  blk <- load_block b ;;
  hd <- load_header (header blk) ;;
  Int_Set z (Number hd).

Definition Block_Difficulty (b : option nat) : M (option nat) :=
  z <- new_Int ;;
  blk <- load_block b ;;
  hd <- load_header (header blk) ;;
  Int_Set z (Difficulty hd).

Definition Block_Time (b : option nat) : M (option nat) :=
  z <- new_Int ;;
  blk <- load_block b ;;
  hd <- load_header (header blk) ;;
  Int_Set z (Time hd).

End Block.

(* ===================================================================== *)
(** * Package [dpor]: the snapshot *)
(* ===================================================================== *)

Module Dpor.
Import Go.
Local Open Scope go_scope.

Definition TermGapBetweenElectionAndMining : Z := 3.
Definition MaxSizeOfRecentSigners : Z := 5.
Definition MaxSizeOfRecentValidators : Z := 5.
Definition MaxSizeOfRecentProposers : Z := 5.

Inductive error : Type :=
| errValidatorNotInCommittee
| errProposerNotInCommittee
| errSignerNotInCommittee
| errGenesisBlockNumber
| errInvalidChain
  (** errors of the database and of [encoding/json] *)
| errNotFound
| errJSON.

(** [configs.DporConfig], the fields the snapshot reads (all [uint64]). *)
Record DporConfig : Type := {
  TermLen : Z;
  ViewLen : Z;
  MaxInitBlockNumber : Z
}.

(** [rpt.Rpt]: an address and its reputation, an [int64]. *)
Record Rpt : Type := { Address : Z; Rpt_ : Z }.

Record DporSnapshot : Type := {
  Number : Z;
  Hash : Z;
  Candidates : slice;
  RecentSigners : mapref;
  RecentProposers : mapref;
  RecentValidators : mapref;
  config : DporConfig;
  (** the pointer to the contract caller; the snapshot never looks
      behind it *)
  ContractCaller : option nat
}.

Abbreviation M := (Go.M DporSnapshot Z).
Abbreviation heap := (Go.heap DporSnapshot Z).

(** What the snapshot takes from outside this file: the election and
    the checkpoint test of the packages [election] and [dpor], and the
    two choices Go leaves to its implementation (the order of a [range]
    over a map, and the conversion to [uint64] of a float that does not
    fit). *)
Class Environment : Type := {
  Elect : list Rpt -> Z -> Z -> outcome (list Z);
  IsCheckPoint : Z -> Z -> Z -> outcome bool;
  range_order : list (Z * slice) -> list (Z * slice);
  float_overflow : Z
}.

Section Snapshot.
Context {keccak : types.Keccak} {env : Environment}.

(** [s.lock.Lock()] and [s.lock.RLock()]: with one thread, what is
    left of taking the lock is the dereference of [s]. *)
Definition lock (s : nat) : M unit := _ <- load s ;; ret tt.

Definition number (s : nat) : M Z :=
  st <- load s ;; ret (Number st).

Definition setNumber (s : nat) (number : Z) : M unit :=
  st <- load s ;;
  store s {| Number := number; Hash := Hash st;
             Candidates := Candidates st;
             RecentSigners := RecentSigners st;
             RecentProposers := RecentProposers st;
             RecentValidators := RecentValidators st;
             config := config st; ContractCaller := ContractCaller st |}.

Definition setHash (s : nat) (hash : Z) : M unit :=
  st <- load s ;;
  store s {| Number := Number st; Hash := hash;
             Candidates := Candidates st;
             RecentSigners := RecentSigners st;
             RecentProposers := RecentProposers st;
             RecentValidators := RecentValidators st;
             config := config st; ContractCaller := ContractCaller st |}.

Definition hash (s : nat) : M Z :=
  st <- load s ;; ret (Hash st).

Definition candidates (s : nat) : M slice :=
  st <- load s ;; ret (Candidates st).

Definition setCandidates (s : nat) (candidates : slice) : M unit :=
  lock s ;;;
  cands <- make_slice 0 (s_len candidates) ;;
  copy cands candidates ;;;
  st <- load s ;;
  store s {| Number := Number st; Hash := Hash st;
             Candidates := cands;
             RecentSigners := RecentSigners st;
             RecentProposers := RecentProposers st;
             RecentValidators := RecentValidators st;
             config := config st; ContractCaller := ContractCaller st |}.

(** The three getters that hand out a fresh map with the same
    entries (the slices themselves are shared). *)
Definition copy_map (r : mapref) : M mapref :=
  m <- make_map ;;
  es <- map_range range_order r ;;
  for_each es (fun e => map_set m (fst e) (snd e)) ;;;
  ret m.

Definition recentSigners (s : nat) : M mapref :=
  st <- load s ;; copy_map (RecentSigners st).

Definition recentProposers (s : nat) : M mapref :=
  st <- load s ;; copy_map (RecentProposers st).

Definition recentValidators (s : nat) : M mapref :=
  st <- load s ;; copy_map (RecentValidators st).

Definition lookup_committee (r : mapref) (term : Z) : M slice :=
  o <- map_get r term ;;
  match o with
  | Some signers => ret signers
  | None => ret nil_slice
  end.

Definition getRecentSigners (s : nat) (term : Z) : M slice :=
  st <- load s ;; lookup_committee (RecentSigners st) term.

Definition getRecentProposers (s : nat) (term : Z) : M slice :=
  st <- load s ;; lookup_committee (RecentProposers st) term.

Definition getRecentValidators (s : nat) (term : Z) : M slice :=
  st <- load s ;; lookup_committee (RecentValidators st) term.

(** [uint64(math.Max(0, float64(term-size)))]: the subtraction is on
    [uint64] and wraps, so the float is never negative and [math.Max]
    returns it. *)
Definition beforeTerm (term size : Z) : Z :=
  U64.of_float64 float_overflow
    (Z.max 0 (U64.to_float64 (U64.sub term size))).

(** The body the three setters share: store a private copy of the
    committee at [term], then drop the entry at [beforeTerm]. *)
Definition install (r : mapref) (size term : Z) (signers : slice) : M unit :=
  ss <- make_slice 0 (s_len signers) ;;
  copy ss signers ;;;
  map_set r term ss ;;;
  o <- map_get r (beforeTerm term size) ;;
  match o with
  | Some _ => map_delete r (beforeTerm term size)
  | None => ret tt
  end.

Definition setRecentSigners (s : nat) (term : Z) (signers : slice) : M unit :=
  st <- load s ;;
  install (RecentSigners st) MaxSizeOfRecentSigners term signers.

Definition setRecentValidators (s : nat) (term : Z) (validators : slice) : M unit :=
  st <- load s ;;
  install (RecentValidators st) MaxSizeOfRecentValidators term validators.

Definition setRecentProposers (s : nat) (term : Z) (proposers : slice) : M unit :=
  st <- load s ;;
  install (RecentProposers st) MaxSizeOfRecentProposers term proposers.

Definition setContractCaller (s : nat) (contractCaller : option nat) : M unit :=
  st <- load s ;;
  store s {| Number := Number st; Hash := Hash st;
             Candidates := Candidates st;
             RecentSigners := RecentSigners st;
             RecentProposers := RecentProposers st;
             RecentValidators := RecentValidators st;
             config := config st; ContractCaller := contractCaller |}.

(** ** Term arithmetic *)

Definition Term (s : nat) : M Z :=
  n <- number s ;;
  if n =? 0 then ret 0
  else
    n <- number s ;;
    st <- load s ;;
    udiv (U64.sub n 1) (U64.mul (TermLen (config st)) (ViewLen (config st))).

Definition TermOf (s : nat) (blockNum : Z) : M Z :=
  if blockNum =? 0 then ret 0
  else
    st <- load s ;;
    udiv (U64.sub blockNum 1)
         (U64.mul (TermLen (config st)) (ViewLen (config st))).

Definition FutureTermOf (s : nat) (blockNum : Z) : M Z :=
  t <- TermOf s blockNum ;;
  ret (U64.add t TermGapBetweenElectionAndMining).

(** ** Construction, copy and header application *)

Definition newSnapshot (config : DporConfig) (number : Z) (hash : Z)
    (signers : slice) : M nat :=
  ms <- make_map ;;
  mp <- make_map ;;
  mv <- make_map ;;
  snap <- new {| Number := number; Hash := hash;
                 Candidates := nil_slice;
                 RecentSigners := ms;
                 RecentProposers := mp;
                 RecentValidators := mv;
                 config := config; ContractCaller := None |} ;;
  t <- Term snap ;;
  setRecentSigners snap t signers ;;;
  ret snap.

Definition copy (s : nat) : M nat :=
  st <- load s ;;
  n <- number s ;;
  h <- hash s ;;
  cands <- make_slice 0 (s_len (Candidates st)) ;;
  ms <- make_map ;;
  mv <- make_map ;;
  mp <- make_map ;;
  cpy <- new {| Number := n; Hash := h;
                Candidates := cands;
                RecentSigners := ms;
                RecentProposers := mp;
                RecentValidators := mv;
                config := config st; ContractCaller := None |} ;;
  src <- candidates s ;;
  Go.copy cands src ;;;
  m1 <- recentSigners s ;;
  es1 <- map_range range_order m1 ;;
  for_each es1 (fun e => setRecentSigners cpy (fst e) (snd e)) ;;;
  m2 <- recentProposers s ;;
  es2 <- map_range range_order m2 ;;
  for_each es2 (fun e => setRecentSigners cpy (fst e) (snd e)) ;;;
  m3 <- recentValidators s ;;
  es3 <- map_range range_order m3 ;;
  for_each es3 (fun e => setRecentSigners cpy (fst e) (snd e)) ;;;
  ret cpy.

Definition default_candidates : list Z :=
  [ 0xe94b7b6c5a0e526a4d97f9768ad6097bde25c62a;
    0xc05302acebd0730e3a18a058d7d1cb1204c4a092;
    0xef3dd127de235f15ffb4fc0d71469d1339df6465;
    0x3a18598184ef84198db90c28fdfdfdf56544f747;
    0x6e31e5b68a98dcd17264bd1ba547d0b3e874da1e;
    0x22a672eab2b1a3ff3ed91563205a56ca5a560e08;
    0x7b2f052a372951d02798853e39ee56c895109992;
    0x2f0176cc3a8617b6ddea6a501028fa4c6fc25ca1;
    0xe4d51117832e84f1d082e9fc12439b771a57e7b2;
    0x32bd7c33bb5060a85f361caf20c0bda9075c5d51 ].

Definition updateCandidates (s : nat) (header : types.Header) : M (option error) :=
  candidates <- slice_lit default_candidates ;;
  setCandidates s candidates ;;;
  ret None.

(** [rpts = append(rpts, Rpt{candidate, int64(idx)})] for every index. *)
Definition index_rpts (l : list Z) : list Rpt :=
  imap (fun idx candidate => {| Address := candidate; Rpt_ := Z.of_nat idx |}) l.

Definition updateRpts (s : nat) (header : types.Header) : M (list Rpt * option error) :=
  c <- candidates s ;;
  l <- elems c ;;
  ret (index_rpts l, None).

Definition ifUseDefaultSigners (s : nat) : M bool :=
  n <- number s ;;
  st <- load s ;;
  ret (n <? MaxInitBlockNumber (config st)).

Definition ifUseDefaultProposers (s : nat) : M bool :=
  st <- load s ;;
  ret (Number st <? MaxInitBlockNumber (config st)).

Definition ifStartElection (s : nat) : M bool :=
  n <- number s ;;
  st <- load s ;;
  ret (U64.sub (MaxInitBlockNumber (config st))
         (U64.mul (U64.mul (TermLen (config st))
                           (TermGapBetweenElectionAndMining - 1))
                  (ViewLen (config st)))
       <=? n).

Definition updateSigners (s : nat) (rpts : list Rpt) (seed : Z) : M (option error) :=
  c <- candidates s ;;
  st <- load s ;;
  signers <- reslice c (TermLen (config st)) ;;
  d <- ifUseDefaultSigners s ;;
  (if d : bool
   then t <- Term s ;; setRecentSigners s (U64.add t 1) signers
   else ret tt) ;;;
  e <- ifStartElection s ;;
  (if e : bool
   then
     st <- load s ;;
     elected <- lift (Elect rpts seed (U64.to_int (TermLen (config st)))) ;;
     signers <- slice_lit elected ;;
     n <- number s ;;
     term <- FutureTermOf s n ;;
     setRecentSigners s term signers ;;;
     _ <- getRecentSigners s term ;;
     ret tt
   else ret tt) ;;;
  ret None.

Definition updateProposers (s : nat) (rpts : list Rpt) (seed : Z) : M (option error) :=
  c <- candidates s ;;
  st <- load s ;;
  proposers <- reslice c (TermLen (config st)) ;;
  d <- ifUseDefaultProposers s ;;
  (if d : bool
   then t <- Term s ;; setRecentProposers s (U64.add t 1) proposers
   else ret tt) ;;;
  e <- ifStartElection s ;;
  (if e : bool
   then
     st <- load s ;;
     elected <- lift (Elect rpts seed (U64.to_int (TermLen (config st)))) ;;
     proposers <- slice_lit elected ;;
     n <- number s ;;
     term <- FutureTermOf s n ;;
     setRecentProposers s term proposers ;;;
     _ <- getRecentProposers s term ;;
     ret tt
   else ret tt) ;;;
  ret None.

(** [header.Hash().Big().Int64()] *)
Definition seed_of (header : types.Header) : Z :=
  U64.int64_of_big (types.Hash header).

Definition applyHeader (s : nat) (header : types.Header) : M (option error) :=
  setNumber s (U64.of_big (types.Number header)) ;;;
  setHash s (types.Hash header) ;;;
  err <- updateCandidates s header ;;
  match err with
  | Some e => ret (Some e)
  | None =>
      r <- updateRpts s header ;;
      match snd r with
      | Some e => ret (Some e)
      | None =>
          n <- number s ;;
          st <- load s ;;
          cp <- lift (IsCheckPoint n (TermLen (config st)) (ViewLen (config st))) ;;
          if cp : bool
          then
            err <- updateSigners s (fst r) (seed_of header) ;;
            match err with
            | Some e => ret (Some e)
            | None => ret None
            end
          else ret None
      end
  end.

(** The sanity loop of [apply]: every header's number is its
    predecessor's plus one, on [uint64]. *)
Fixpoint contiguous (headers : list types.Header) : bool :=
  match headers with
  | h1 :: (h2 :: _) as rest =>
      if U64.of_big (types.Number h2)
         =? U64.add (U64.of_big (types.Number h1)) 1
      then contiguous rest
      else false
  | _ => true
  end.

(** The loop of [apply] over the headers, leaving at the first error. *)
Fixpoint applyHeaders_loop (snap : nat) (headers : list types.Header)
    : M (option error) :=
  match headers with
  | [] => ret None
  | header :: rest =>
      err <- applyHeader snap header ;;
      match err with
      | Some e => ret (Some e)
      | None => applyHeaders_loop snap rest
      end
  end.

Definition apply (s : nat) (headers : list types.Header)
    (contractCaller : option nat) : M (option nat * option error) :=
  match headers with
  | [] => ret (Some s, None)
  | first :: _ =>
      if negb (contiguous headers) then ret (None, Some errInvalidChain)
      else
        st <- load s ;;
        if negb (U64.of_big (types.Number first) =? U64.add (Number st) 1)
        then ret (None, Some errInvalidChain)
        else
          snap <- copy s ;;
          setContractCaller snap contractCaller ;;;
          err <- applyHeaders_loop snap headers ;;
          match err with
          | Some e => ret (None, Some e)
          | None =>
              let last_ := List.last headers first in
              setNumber snap (U64.of_big (types.Number last_)) ;;;
              setHash snap (types.Hash last_) ;;;
              ret (Some snap, None)
          end
  end.

(** ** Queries *)

Definition SignersOf (s : nat) (number : Z) : M slice :=
  t <- TermOf s number ;; getRecentSigners s t.

Definition ValidatorsOf (s : nat) (number : Z) : M slice :=
  t <- TermOf s number ;; getRecentValidators s t.

Definition ProposersOf (s : nat) (number : Z) : M slice :=
  t <- TermOf s number ;; getRecentProposers s t.

(** [for view, s := range committee { if s == a { return view, nil } }
    return -1, err]: the first position of [a], counted from [view]. *)
Fixpoint view_from (view : Z) (committee : list Z) (a : Z) (err : error)
    : Z * option error :=
  match committee with
  | [] => (-1, Some err)
  | s :: rest =>
      if s =? a then (view, None) else view_from (view + 1) rest a err
  end.

Definition ValidatorViewOf (s : nat) (validator : Z) (number : Z)
    : M (Z * option error) :=
  c <- ValidatorsOf s number ;;
  l <- elems c ;;
  ret (view_from 0 l validator errValidatorNotInCommittee).

Definition ProposerViewOf (s : nat) (proposer : Z) (number : Z)
    : M (Z * option error) :=
  c <- ProposersOf s number ;;
  l <- elems c ;;
  ret (view_from 0 l proposer errProposerNotInCommittee).

Definition SignerViewOf (s : nat) (signer : Z) (number : Z)
    : M (Z * option error) :=
  c <- SignersOf s number ;;
  l <- elems c ;;
  ret (view_from 0 l signer errSignerNotInCommittee).

Definition IsValidatorOf (s : nat) (validator : Z) (number : Z) : M bool :=
  r <- ValidatorViewOf s validator number ;;
  ret (bool_decide (snd r = None)).

Definition IsSignerOf (s : nat) (signer : Z) (number : Z) : M bool :=
  r <- SignerViewOf s signer number ;;
  ret (bool_decide (snd r = None)).

Definition IsLeaderOf (s : nat) (signer : Z) (number : Z)
    : M (bool * option error) :=
  if number =? 0 then ret (false, Some errGenesisBlockNumber)
  else
    r <- ProposerViewOf s signer number ;;
    match snd r with
    | Some err => ret (false, Some err)
    | None =>
        st <- load s ;;
        m <- urem (U64.sub number 1)
                  (U64.mul (TermLen (config st)) (ViewLen (config st))) ;;
        q <- udiv m (ViewLen (config st)) ;;
        ret (fst r =? U64.to_int q, None)
    end.

Definition IsProposerOf (s : nat) (signer : Z) (number : Z)
    : M (bool * option error) :=
  if number =? 0 then ret (false, Some errGenesisBlockNumber)
  else
    r <- ProposerViewOf s signer number ;;
    match snd r with
    | Some err => ret (false, Some err)
    | None =>
        st <- load s ;;
        m <- urem (U64.sub number 1)
                  (U64.mul (TermLen (config st)) (ViewLen (config st))) ;;
        q <- udiv m (ViewLen (config st)) ;;
        ret (fst r =? U64.to_int q, None)
    end.

Definition FutureSignersOf (s : nat) (number : Z) : M slice :=
  t <- FutureTermOf s number ;; getRecentSigners s t.

Definition FutureProposersOf (s : nat) (number : Z) : M slice :=
  t <- FutureTermOf s number ;; getRecentProposers s t.

Definition InturnOf (s : nat) (number : Z) (signer : Z) : M bool :=
  r <- IsProposerOf s signer number ;;
  match snd r with
  | Some _ => ret false
  | None => ret (fst r)
  end.

(** ** The remaining accessors and the queries on the future term *)

Definition contractCaller (s : nat) : M (option nat) :=
  st <- load s ;; ret (ContractCaller st).

Definition FutureSignerViewOf (s : nat) (signer : Z) (number : Z)
    : M (Z * option error) :=
  c <- FutureSignersOf s number ;;
  l <- elems c ;;
  ret (view_from 0 l signer errSignerNotInCommittee).

(** The error of this one is the validators' error, as in the source. *)
Definition FutureProposerViewOf (s : nat) (signer : Z) (number : Z)
    : M (Z * option error) :=
  c <- FutureProposersOf s number ;;
  l <- elems c ;;
  ret (view_from 0 l signer errValidatorNotInCommittee).

Definition IsFutureSignerOf (s : nat) (signer : Z) (number : Z) : M bool :=
  r <- FutureSignerViewOf s signer number ;;
  ret (bool_decide (snd r = None)).

Definition IsFutureProposerOf (s : nat) (proposer : Z) (number : Z) : M bool :=
  r <- FutureProposerViewOf s proposer number ;;
  ret (bool_decide (snd r = None)).

End Snapshot.

(** ** Persistence *)

(** What [encoding/json] sees of a snapshot: its exported fields, a nil
    slice or map as [None] (JSON [null]), maps by key. *)
Record Document : Type := {
  d_number : Z;
  d_hash : Z;
  d_candidates : option (list Z);
  d_signers : option (gmap Z (option (list Z)));
  d_proposers : option (gmap Z (option (list Z)));
  d_validators : option (gmap Z (option (list Z)));
  d_caller : option nat
}.

(** [json.Marshal] and [json.Unmarshal] on snapshots; [None] is an
    error of the library. *)
Class Json : Type := {
  blob : Type;
  json_Marshal : Document -> option blob;
  json_Unmarshal : blob -> option Document
}.


Section Persistence.
Context {json : Json}.

Definition slice_value (h : heap) (s : slice) : option (list Z) :=
  match s_array s with
  | Some _ => Some (slice_elems h s)
  | None => None
  end.

Definition map_value (h : heap) (r : mapref)
    : option (gmap Z (option (list Z))) :=
  match r with
  | Some _ => Some (slice_value h <$> map_contents h r)
  | None => None
  end.

Definition document_of (h : heap) (st : DporSnapshot) : Document :=
  {| d_number := Number st; d_hash := Hash st;
     d_candidates := slice_value h (Candidates st);
     d_signers := map_value h (RecentSigners st);
     d_proposers := map_value h (RecentProposers st);
     d_validators := map_value h (RecentValidators st);
     d_caller := ContractCaller st |}.

(** The 32 bytes of a hash, most significant first. *)
Definition hash_bytes (hash : Z) : list Z :=
  map (fun i => (hash / 2 ^ (8 * (31 - Z.of_nat i))) mod 256) (seq 0 32).

(** [append([]byte("dpor-"), hash[:]...)] *)
Definition db_key (hash : Z) : list Z :=
  [100; 112; 111; 114; 45] ++ hash_bytes hash.

Definition store (s : nat) (db : gmap (list Z) blob)
    : M (option error * gmap (list Z) blob) :=
  st <- load s ;;
  doc <- (fun h => (Ret (document_of h st), h)) ;;
  match json_Marshal doc with
  | None => ret (Some errJSON, db)
  | Some b => ret (None, <[db_key (Hash st) := b]> db)
  end.

(** The slices and maps [json.Unmarshal] allocates for a document. *)
Definition alloc_slice (v : option (list Z)) : M slice :=
  match v with
  | Some l => slice_lit l
  | None => ret nil_slice
  end.

Definition alloc_map (v : option (gmap Z (option (list Z)))) : M mapref :=
  match v with
  | Some m =>
      r <- make_map ;;
      for_each (map_to_list m)
        (fun e => sl <- alloc_slice (snd e) ;; map_set r (fst e) sl) ;;;
      ret r
  | None => ret None
  end.

Definition loadSnapshot (config : DporConfig) (db : gmap (list Z) blob)
    (hash : Z) : M (option nat * option error) :=
  match db !! db_key hash with
  | None => ret (None, Some errNotFound)
  | Some b =>
      match json_Unmarshal b with
      | None => ret (None, Some errJSON)
      | Some doc =>
          cands <- alloc_slice (d_candidates doc) ;;
          ms <- alloc_map (d_signers doc) ;;
          mp <- alloc_map (d_proposers doc) ;;
          mv <- alloc_map (d_validators doc) ;;
          snap <- new {| Number := d_number doc; Hash := d_hash doc;
                         Candidates := cands;
                         RecentSigners := ms;
                         RecentProposers := mp;
                         RecentValidators := mv;
                         config := config;
                         ContractCaller := d_caller doc |} ;;
          ret (Some snap, None)
      end
  end.

End Persistence.
End Dpor.

(* ===================================================================== *)
(** * Package [miner]: the set of unconfirmed blocks *)
(* ===================================================================== *)

(** [container/ring], as far as the tracker uses it.  A reference to a ring
    element is the list of the values met by following [Next] from that
    element, once around; the nil ring is the empty list. *)
Module Ring.
Section Ring.
Context {A : Type}.

(** [ring.New(1)] with its value set. *)
Definition New1 (v : A) : list A := [v].

(** [r.Move(1)]: the reference to the next element. *)
Definition Move_next (r : list A) : list A :=
  match r with
  | [] => []
  | x :: rest => rest ++ [x]
  end.

(** [r.Move(-1)]: the reference to the previous element. *)
Definition Move_prev (r : list A) : list A :=
  match r with
  | [] => []
  | x :: _ => List.last r x :: List.removelast r
  end.

(** [r.Link(s)] for two distinct rings, seen from [r] afterwards: the
    elements of [s] come right after [r]. *)
Definition Link (r s : list A) : list A :=
  match r with
  | [] => []
  | x :: rest => x :: s ++ rest
  end.

(** [r.Unlink(1)], seen from [r] afterwards: the element after [r] is
    gone, unless [r] is alone in its ring. *)
Definition Unlink1 (r : list A) : list A :=
  match r with
  | x :: _ :: rest => x :: rest
  | _ => r
  end.

(** [r.Next().Value] *)
Definition Next_Value (r : list A) : option A := head (Move_next r).

End Ring.
End Ring.

Module Miner.

(** The canonical chain, as the tracker consults it. *)
Class headerRetriever (C : Type) : Type := {
  GetHeaderByNumber : C -> Z -> option types.Header
}.

Record unconfirmedBlock : Type := {
  index : Z;
  hash : Z
}.

(** The lines the tracker writes to the log. *)
Inductive log_record : Type :=
| MinedPotentialBlock (number hash : Z)
| FailedToRetrieveHeader (number hash : Z)
| ReachedCanonicalChain (number hash : Z)
| BecameSideFork (number hash : Z).

Section Tracker.
Context {C : Type} {retriever : headerRetriever C} {keccak : types.Keccak}.

(** The ring holds pointers to the blocks; a pointer is kept with the
    block it points to, which is never written after its allocation.
    [allocated] counts the blocks allocated so far and is the next
    fresh pointer. *)
Record unconfirmedBlocks : Type := {
  chain : C;
  depth : Z;
  blocks : list (nat * unconfirmedBlock);
  allocated : nat
}.

Definition newUnconfirmedBlocks (chain : C) (depth : Z) : unconfirmedBlocks :=
  {| chain := chain; depth := depth; blocks := []; allocated := 0 |}.

Definition set_blocks (set : unconfirmedBlocks)
    (r : list (nat * unconfirmedBlock)) : unconfirmedBlocks :=
  {| chain := chain set; depth := depth set; blocks := r;
     allocated := allocated set |}.

(** The [switch] of [Shift] on the retrieved header. *)
Definition classify (header : option types.Header) (blk : unconfirmedBlock)
    : log_record :=
  match header with
  | None => FailedToRetrieveHeader (index blk) (hash blk)
  | Some h =>
      if types.Hash h =? hash blk
      then ReachedCanonicalChain (index blk) (hash blk)
      else BecameSideFork (index blk) (hash blk)
  end.

(** The loop of [Shift]; [fuel] bounds the number of blocks dropped,
    and [None] means it was too small. *)
Fixpoint Shift_loop (fuel : nat) (set : unconfirmedBlocks) (height : Z)
    (log : list log_record) : option (unconfirmedBlocks * list log_record) :=
  match blocks set with
  | [] => Some (set, log)
  | (p, blk) :: _ =>
      if height <? U64.add (index blk) (depth set) then Some (set, log)
      else
        match fuel with
        | O => None
        | S fuel' =>
            let header := GetHeaderByNumber (chain set) (index blk) in
            let log' := log ++ [classify header blk] in
            if bool_decide (Some p = fst <$> Ring.Next_Value (blocks set))
            then Shift_loop fuel' (set_blocks set []) height log'
            else
              let r1 := Ring.Move_prev (blocks set) in
              let r2 := Ring.Unlink1 r1 in
              let r3 := Ring.Move_next r2 in
              Shift_loop fuel' (set_blocks set r3) height log'
        end
  end.

Definition Shift (set : unconfirmedBlocks) (height : Z)
    : option (unconfirmedBlocks * list log_record) :=
  Shift_loop (length (blocks set)) set height [].

(** After [set.blocks.Move(-1).Link(item)] the field [set.blocks] still
    refers to the element it referred to before, which now comes two
    steps after the former last element. *)
Definition Insert (set : unconfirmedBlocks) (index : Z) (hash : Z)
    : option (unconfirmedBlocks * list log_record) :=
  match Shift set index with
  | None => None
  | Some (set1, log) =>
      let item := Ring.New1 (allocated set1,
                             {| index := index; hash := hash |}) in
      let r :=
        match blocks set1 with
        | [] => item
        | _ => Ring.Move_next
                 (Ring.Move_next (Ring.Link (Ring.Move_prev (blocks set1)) item))
        end in
      Some ({| chain := chain set1; depth := depth set1; blocks := r;
               allocated := S (allocated set1) |},
            log ++ [MinedPotentialBlock index hash])
  end.

End Tracker.

Arguments unconfirmedBlocks : clear implicits.

End Miner.

(* ===================================================================== *)
(** * Sample values *)
(* ===================================================================== *)

Module Sample.
Import Go Dpor.

(** A stand-in for the digest: it only has to be a function of the
    header. *)
Definition keccak : types.Keccak :=
  {| types.sigHash := fun h => types.Number h * 1000 + 7 |}.

(** A 64-bit x86 machine ([uint64] of a float that is too large is 2^63),
    maps ranged in key order as [map_to_list] gives it, an election that
    takes the candidates of highest reputation, the first block of every
    term as checkpoint. *)
Definition env : Environment := {|
  Elect := fun rpts seed k =>
    Ret (map Address (firstn (Z.to_nat k) (rev rpts)));
  IsCheckPoint := fun n t v =>
    if t * v =? 0 then Panic DivideByZero
    else Ret ((n - 1) mod (t * v) =? 0);
  range_order := fun l => l;
  float_overflow := 2 ^ 63
|}.

(** The configuration of the end-to-end scenarios. *)
Definition cfg : DporConfig :=
  {| TermLen := 4; ViewLen := 3; MaxInitBlockNumber := 24 |}.

Definition header (n : Z) : types.Header :=
  {| types.ParentHash := 0; types.Coinbase := 0;
     types.Number := n; types.Time := 0 |}.

(** A heap holding one backing array with the seed signers. *)
Definition seed_heap : heap := Heap [] [] [[1; 2; 3; 4]].
Definition seed_slice : slice := Slice (Some 0%nat) 4 4.

(** The heap after [newSnapshot(cfg, 0, 0, seed)]; the snapshot is at
    pointer 0 and holds [genesis]. *)
Definition genesis_heap : heap :=
  snd (@newSnapshot env cfg 0 0 seed_slice seed_heap).

Definition genesis : DporSnapshot :=
  {| Number := 0; Hash := 0; Candidates := nil_slice;
     RecentSigners := Some 0%nat; RecentProposers := Some 1%nat;
     RecentValidators := Some 2%nat;
     config := cfg; ContractCaller := None |}.

(** The genesis heap with the seed also installed as the proposers of
    term 0. *)
Definition proposers_heap : heap :=
  snd (@setRecentProposers env 0 0 seed_slice genesis_heap).


(** The headers 1 to 13: term 0 and the first block of term 1. *)
Definition batch_rest : list types.Header :=
  map header [2; 3; 4; 5; 6; 7; 8; 9; 10; 11; 12; 13].

Definition batch : list types.Header := header 1 :: batch_rest.

(** The heap after applying the batch to the genesis snapshot; the new
    snapshot is at pointer 1. *)
Definition applied_heap : heap :=
  snd (@apply keccak env 0 batch None genesis_heap).

(** The committee the sample election picks: the four candidates of
    highest reputation, best first. *)
Definition elected_committee : list Z :=
  [ 0x32bd7c33bb5060a85f361caf20c0bda9075c5d51;
    0xe4d51117832e84f1d082e9fc12439b771a57e7b2;
    0x2f0176cc3a8617b6ddea6a501028fa4c6fc25ca1;
    0x7b2f052a372951d02798853e39ee56c895109992 ].

(** The genesis snapshot with a committee of its own in each mapping at
    term 0: signers 1 to 4, proposers 5 to 8, validators 9 to 12. *)
Definition three_committees_heap : heap :=
  snd (Go.bind (slice_lit [5; 6; 7; 8]) (fun proposers =>
       Go.bind (@setRecentProposers env 0 0 proposers) (fun _ =>
       Go.bind (slice_lit [9; 10; 11; 12]) (fun validators =>
       @setRecentValidators env 0 0 validators))) genesis_heap).

(** The heap after [copy] of that snapshot; the copy is at pointer 1. *)
Definition copied_heap : heap :=
  snd (@Dpor.copy env 0 three_committees_heap).

(** A canonical chain that has every block, block [n] being [header n]. *)
#[export] Instance full_chain : Miner.headerRetriever unit :=
  {| Miner.GetHeaderByNumber := fun _ n => Some (header n) |}.

(** A tracker of depth 5 after [Insert(100, hash of header 100)] and
    [Insert(101, 5)]; block 101 with hash 5 is not the canonical one. *)
Definition tracker : Miner.unconfirmedBlocks unit :=
  {| Miner.chain := tt; Miner.depth := 5;
     Miner.blocks := [ (0%nat, {| Miner.index := 100; Miner.hash := 100007 |});
                       (1%nat, {| Miner.index := 101; Miner.hash := 5 |}) ];
     Miner.allocated := 2 |}.

(** An encoding that writes a document down as it is. *)
#[export] Instance plain_json : Json :=
  {| blob := Document; json_Marshal := Some; json_Unmarshal := Some |}.

(** The genesis heap with the seed also stored, in the signers and in the
    proposers mapping, at term 3. *)
Definition future_heap : heap :=
  snd (Go.bind (@setRecentSigners env 0 3 seed_slice) (fun _ =>
       @setRecentProposers env 0 3 seed_slice) genesis_heap).

(** The genesis snapshot after [updateCandidates]: the roster is in the
    arrays 2 and 3, the struct points to the second. *)
Definition roster_heap : heap :=
  snd (updateCandidates 0 (header 1) genesis_heap).

Definition roster : DporSnapshot :=
  {| Number := 0; Hash := 0; Candidates := Slice (Some 3%nat) 10 10;
     RecentSigners := Some 0%nat; RecentProposers := Some 1%nat;
     RecentValidators := Some 2%nat;
     config := cfg; ContractCaller := None |}.

(** A header at pointer 1 whose number, at pointer 0, is 7; its time and
    its difficulty are nil, its first extra field holds three bytes and
    its second is empty.  A block at pointer 2 and a number, 9, at
    pointer 3. *)
Definition sealed : Block.Header :=
  {| Block.ParentHash := 11; Block.Coinbase := 12; Block.StateRoot := 13;
     Block.TxsRoot := 14; Block.ReceiptsRoot := 15; Block.LogsBloom := 0;
     Block.Difficulty := None; Block.Number := Some 0%nat;
     Block.GasLimit := 100; Block.GasUsed := 10; Block.Time := None;
     Block.Extra := Slice (Some 0%nat) 3 3; Block.Extra2 := nil_slice;
     Block.MixHash := 16; Block.Nonce := [0; 0; 0; 0; 0; 0; 0; 1] |}.

Definition block_heap : Block.heap :=
  Heap [Block.IntObject 7; Block.HeaderObject sealed;
        Block.BlockObject {| Block.header := None;
                              Block.transactions := nil_slice;
                              Block.td := None |};
        Block.IntObject 9]
       [] [[1; 2; 3]].

End Sample.

(* ===================================================================== *)
(** * Vocabulary of the statements *)
(* ===================================================================== *)

Section Outcomes.
Context {S E : Type}.
Implicit Types h : Go.heap S E.

(** ** Weakest preconditions

    [wp m Q X h]: run from [h], the computation [m] either returns a
    value and a heap that satisfy [Q], or panics in a heap that
    satisfies [X]. *)
Definition wp {A} (m : Go.M S E A) (Q : A -> Go.heap S E -> Prop)
    (X : Go.heap S E -> Prop) h : Prop :=
  match m h with
  | (Go.Ret a, h') => Q a h'
  | (Go.Panic _, h') => X h'
  end.

(** The array behind [sl], if it has one, is in the heap [h]. *)
Definition allocated (h : Go.heap S E) (sl : Go.slice) : Prop :=
  match Go.s_array sl with
  | Some a => (a < length (Go.arrays h))%nat
  | None => True
  end.

End Outcomes.

Section Frames.
Import Go Dpor.
Variable h0 : heap.
Implicit Types (h : heap) (m : gmap Z slice) (st : DporSnapshot).
Variables (cfg : DporConfig) (p l1 l2 l3 : nat).

Definition extends (h : heap) : Prop :=
  structs h0 `prefix_of` structs h /\
  maps h0 `prefix_of` maps h /\
  arrays h0 `prefix_of` arrays h.

Definition fresh_slice (sl : slice) : Prop :=
  match s_array sl with
  | Some a => (length (arrays h0) <= a)%nat
  | None => True
  end.

Definition fresh_values (m : gmap Z slice) : Prop :=
  map_Forall (fun _ v => fresh_slice v) m.

(** The struct at [p], as far as the setters leave it alone. *)
Definition shape (st : DporSnapshot) : Prop :=
  RecentSigners st = Some l1 /\ RecentProposers st = Some l2 /\
  RecentValidators st = Some l3 /\ config st = cfg /\
  fresh_slice (Candidates st).

Record owned (h : heap) : Prop := Owned {
  own_ext : extends h;
  own_ptr : (length (structs h0) <= p)%nat;
  own_distinct : l1 <> l2 /\ l1 <> l3 /\ l2 <> l3;
  own_maps : forall l, l ∈ [l1; l2; l3] ->
               (length (maps h0) <= l < length (maps h))%nat;
  own_struct : exists st, structs h !! p = Some st /\ shape st;
  own_signers : fresh_values (map_contents h (Some l1));
  own_proposers : map_contents h (Some l2) = ∅;
  own_validators : map_contents h (Some l3) = ∅
}.

End Frames.

Section Updates.
Import Go Dpor.
Context {env : Environment}.
Implicit Types (h : heap) (st : DporSnapshot).

(** The struct after each of the field setters. *)
Definition with_Number (n : Z) st : DporSnapshot :=
  {| Number := n; Hash := Hash st; Candidates := Candidates st;
     RecentSigners := RecentSigners st; RecentProposers := RecentProposers st;
     RecentValidators := RecentValidators st;
     config := config st; ContractCaller := ContractCaller st |}.

Definition with_Hash (x : Z) st : DporSnapshot :=
  {| Number := Number st; Hash := x; Candidates := Candidates st;
     RecentSigners := RecentSigners st; RecentProposers := RecentProposers st;
     RecentValidators := RecentValidators st;
     config := config st; ContractCaller := ContractCaller st |}.

Definition with_Candidates (c : slice) st : DporSnapshot :=
  {| Number := Number st; Hash := Hash st; Candidates := c;
     RecentSigners := RecentSigners st; RecentProposers := RecentProposers st;
     RecentValidators := RecentValidators st;
     config := config st; ContractCaller := ContractCaller st |}.

Definition with_ContractCaller (c : option nat) st : DporSnapshot :=
  {| Number := Number st; Hash := Hash st; Candidates := Candidates st;
     RecentSigners := RecentSigners st; RecentProposers := RecentProposers st;
     RecentValidators := RecentValidators st;
     config := config st; ContractCaller := c |}.

Definition put_struct (p : nat) st h : heap :=
  Heap (<[p := st]> (structs h)) (maps h) (arrays h).

(** [install]: one array more, and in the map the entry at [term] set and
    the entry at [beforeTerm] removed. *)
Definition installed (l : nat) (size term : Z) (len : nat) (x : list Z) h : heap :=
  Heap (structs h)
       (<[l := delete (beforeTerm term size)
                 (<[term := Slice (Some (length (arrays h))) len len]>
                    (map_contents h (Some l)))]> (maps h))
       (arrays h ++ [x]).

End Updates.

Section TermSpec.
Import Go Dpor.
Implicit Types (h : heap) (st : DporSnapshot).

(** The term of a block number, on [uint64]. *)
Definition term_of (cfg : DporConfig) (n : Z) : Z :=
  if n =? 0 then 0
  else U64.sub n 1 / U64.mul (TermLen cfg) (ViewLen cfg).

End TermSpec.

Section GenesisSpec.
Import Go Dpor.
Context {env : Environment}.
Implicit Types (h : heap) (st : DporSnapshot).

(** The struct [newSnapshot] allocates in a heap with [l] maps. *)
Definition genesis_struct (cfg : DporConfig) (number hash : Z) (l : nat)
    : DporSnapshot :=
  {| Number := number; Hash := hash; Candidates := nil_slice;
     RecentSigners := Some l; RecentProposers := Some (Datatypes.S l);
     RecentValidators := Some (Datatypes.S (Datatypes.S l));
     config := cfg; ContractCaller := None |}.

Definition genesis_result (cfg : DporConfig) (number hash : Z)
    (signers : slice) h : heap :=
  installed (length (maps h)) MaxSizeOfRecentSigners (term_of cfg number)
    (s_len signers) (slice_elems h signers)
    (Heap (structs h ++ [genesis_struct cfg number hash (length (maps h))])
          (maps h ++ [∅; ∅; ∅]) (arrays h)).

End GenesisSpec.

Section EvictionSpec.
Import Go Dpor.
Context {env : Environment}.
Implicit Types (h : heap) (st : DporSnapshot).


End EvictionSpec.

Section OracleSpec.
Import Go Dpor.
Context {env : Environment}.
Implicit Types (h : heap) (st : DporSnapshot).

(** The heap after [updateCandidates]: the literal roster and the private
    copy [setCandidates] makes of it, and the struct pointing to the copy. *)
Definition roster_slice h : slice :=
  Slice (Some (Datatypes.S (length (arrays h)))) 10 10.

Definition roster_heap (p : nat) st h : heap :=
  put_struct p (with_Candidates (roster_slice h) st)
    (Heap (structs h) (maps h)
          (arrays h ++ [default_candidates; default_candidates])).

(** A call that, whenever it returns, returns the nil error. *)
Definition never_fails (m : M (option error)) : Prop :=
  forall h r h', m h = (Ret r, h') -> r = None.

End OracleSpec.

Section ConfigurationSpec.
Import Go Dpor.
Context {env : Environment}.

(** A configuration under which applying a header cannot panic: the
    committee is no larger than the roster of ten, a term has a length, and
    the election and the checkpoint test return. *)
Definition well_configured (cfg : DporConfig) : Prop :=
  0 <= TermLen cfg <= 10 /\
  U64.mul (TermLen cfg) (ViewLen cfg) <> 0 /\
  (forall rpts seed,
     exists c, Elect rpts seed (U64.to_int (TermLen cfg)) = Ret c) /\
  (forall n, exists b, IsCheckPoint n (TermLen cfg) (ViewLen cfg) = Ret b).

(** [ifUseDefaultSigners] and [ifStartElection] at block [n]. *)
Definition use_default (cfg : DporConfig) (n : Z) : bool :=
  n <? MaxInitBlockNumber cfg.

Definition start_election (cfg : DporConfig) (n : Z) : bool :=
  U64.sub (MaxInitBlockNumber cfg)
    (U64.mul (U64.mul (TermLen cfg) (TermGapBetweenElectionAndMining - 1))
             (ViewLen cfg)) <=? n.

(** The term a checkpoint at block [n] elects for. *)
Definition future_term (cfg : DporConfig) (n : Z) : Z :=
  U64.add (term_of cfg n) TermGapBetweenElectionAndMining.

End ConfigurationSpec.

Section PanicSpec.
Import Go Dpor.
Context {env : Environment}.
Variables (h0 : heap) (cfg : DporConfig).
Implicit Types (h : heap).

(** Where a panic leaves the heap: still an extension of [h0], and only
    under a configuration that is not well formed. *)
Definition crashed h : Prop := extends h0 h /\ ~ well_configured cfg.

End PanicSpec.

Section HeaderSpec.
Import Go Dpor.
Context {keccak : types.Keccak} {env : Environment}.
Variables (h0 : heap) (cfg : DporConfig) (p l1 l2 l3 : nat).
Implicit Types (h : heap) (st : DporSnapshot).
Local Abbreviation owned := (owned h0 cfg p l1 l2 l3).

(** The committee elected from [rpts] and [seed] is stored in the signers
    mapping at the future term of block [n]. *)
Definition elected (rpts : list Rpt) (seed n : Z) h : Prop :=
  exists c sl,
    Elect rpts seed (U64.to_int (TermLen cfg)) = Ret c /\
    map_contents h (Some l1) !! future_term cfg n = Some sl /\
    slice_elems h sl = c.

(** What [applyHeader] leaves behind for the header [hd]. *)
Definition applied (hd : types.Header) h : Prop :=
  let n := U64.of_big (types.Number hd) in
  owned h /\
  (exists st, structs h !! p = Some st /\ Number st = n /\
              Hash st = types.Hash hd) /\
  (IsCheckPoint n (TermLen cfg) (ViewLen cfg) = Ret true ->
   start_election cfg n = true ->
   beforeTerm (future_term cfg n) MaxSizeOfRecentSigners <> future_term cfg n ->
   elected (index_rpts default_candidates) (seed_of hd) n h).

End HeaderSpec.

Section ApplySpec.
Import Go Dpor.
Context {keccak : types.Keccak} {env : Environment}.
Variables (h0 : heap) (cfg : DporConfig).
Implicit Types (h : heap) (st : DporSnapshot).

(** The two sanity checks of [apply] on a batch that starts with [first],
    against the original [st]. *)
Definition fits st (first : types.Header) (rest : list types.Header) : bool :=
  contiguous (first :: rest) &&
  (U64.of_big (types.Number first) =? U64.add (Number st) 1).

(** What [apply] returns and where it leaves the heap. *)
Definition apply_result (s : nat) (headers : list types.Header)
    (r : option nat * option error) h : Prop :=
  (headers = [] /\ r = (Some s, None) /\ h = h0) \/
  (exists st first rest,
     structs h0 !! s = Some st /\ headers = first :: rest /\
     (contiguous headers = false \/ fits st first rest = false) /\
     r = (None, Some errInvalidChain) /\ h = h0) \/
  (headers <> [] /\ contiguous headers = false /\
   r = (None, Some errInvalidChain) /\ h = h0) \/
  (exists st first rest cpy l1 l2 l3,
     structs h0 !! s = Some st /\ headers = first :: rest /\
     fits st first rest = true /\
     r = (Some cpy, None) /\
     applied h0 cfg cpy l1 l2 l3 (List.last headers first) h).

Definition apply_panicked (s : nat) h : Prop :=
  extends h0 h /\ (structs h0 !! s = None \/ ~ well_configured cfg).

End ApplySpec.

Section BatchSpec.
Import Go Dpor.
Context {keccak : types.Keccak} {env : Environment}.
Implicit Types (h : heap) (st : DporSnapshot).


Definition no_config : DporConfig :=
  {| TermLen := 0; ViewLen := 0; MaxInitBlockNumber := 0 |}.

(** The configuration of the snapshot at [s], if there is one. *)
Definition config_at h (s : nat) : DporConfig :=
  match structs h !! s with
  | Some st => config st
  | None => no_config
  end.

End BatchSpec.

Section TrackerSpec.
Import Miner.
Context {C : Type} {retriever : headerRetriever C} {keccak : types.Keccak}.
Implicit Types (set : unconfirmedBlocks C) (e : nat * unconfirmedBlock).

(** Every block of the ring is an allocation of its own. *)
Definition well_formed set : Prop :=
  NoDup (map fst (blocks set)) /\
  Forall (fun e => (fst e < allocated set)%nat) (blocks set).

(** An entry is ripe at [height] when its index plus the depth (on
    [uint64]) is not above [height]. *)
Definition ripe (d height : Z) e : bool :=
  negb (height <? U64.add (index (snd e)) d).

(** The entries at the front that are ripe, and what follows them. *)
Fixpoint ripe_front (d height : Z) (l : list (nat * unconfirmedBlock))
    : list (nat * unconfirmedBlock) :=
  match l with
  | [] => []
  | e :: l' => if ripe d height e then e :: ripe_front d height l' else []
  end.

Fixpoint ripe_rest (d height : Z) (l : list (nat * unconfirmedBlock))
    : list (nat * unconfirmedBlock) :=
  match l with
  | [] => []
  | e :: l' => if ripe d height e then ripe_rest d height l' else l
  end.

(** The log line for an entry that is dropped. *)
Definition report set e : log_record :=
  classify (GetHeaderByNumber (chain set) (index (snd e))) (snd e).

End TrackerSpec.

Section InsertSpec.
Import Miner.
Context {C : Type} {retriever : headerRetriever C} {keccak : types.Keccak}.
Implicit Types (set : unconfirmedBlocks C).

(** The tracker after [Insert]: what [Shift] left, and the new block at
    the end under a fresh pointer. *)
Definition inserted set (i h : Z) : unconfirmedBlocks C :=
  {| chain := chain set; depth := depth set;
     blocks := ripe_rest (depth set) i (blocks set)
               ++ [(allocated set, {| index := i; hash := h |})];
     allocated := Datatypes.S (allocated set) |}.

End InsertSpec.

Section DecodingSpec.
Import Go Dpor.
Implicit Types (h : heap) (sl : slice) (v : option (list Z))
  (m : gmap Z (option (list Z))).



End DecodingSpec.

Section CommitteeMapsSpec.
Import Go Dpor.

(** From the mapping [m] to [m'], with a committee stored at [term]:
    every other entry of [m'] is an entry of [m], at most one entry of [m]
    is gone, and the size grew by one at most. *)
Definition evicts_at_most_one (m m' : gmap Z slice) (term : Z) : Prop :=
  (forall k, k <> term -> k ∈ dom m' -> m' !! k = m !! k) /\
  (forall k1 k2, k1 ∈ dom m -> k2 ∈ dom m ->
                 k1 ∉ dom m' -> k2 ∉ dom m' -> k1 = k2) /\
  (size m' <= Datatypes.S (size m))%nat.

(** What one of the three setters does to its mapping [l]. *)
Definition stored_at (h h' : heap) (l : nat) (term : Z) (src : slice) : Prop :=
  let m := map_contents h (Some l) in
  let m' := map_contents h' (Some l) in
  evicts_at_most_one m m' term /\
  (forall c, m' !! term = Some c ->
     s_array c = Some (length (arrays h)) /\
     slice_elems h' c = slice_elems h src) /\
  (forall l', l' <> l -> map_contents h' (Some l') = map_contents h (Some l')) /\
  structs h' = structs h /\
  arrays h' = arrays h ++ [slice_elems h src].

End CommitteeMapsSpec.

Section CheckpointSpec.
Import Go Dpor.
Context {env : Environment}.

(** The heap after the default branch of [updateSigners] or
    [updateProposers] on the mapping [l]: the first [TermLen] candidates
    stored for the term after the snapshot's. *)
Definition default_installed (l : nat) (st : DporSnapshot) (h : heap) : heap :=
  installed l 5 (U64.add (term_of (config st) (Number st)) 1)
    (Z.to_nat (TermLen (config st)))
    (slice_elems h (Slice (s_array (Candidates st))
                          (Z.to_nat (TermLen (config st)))
                          (s_cap (Candidates st))))
    h.

(** The heap after the election branch: the elected committee [c] in an
    array of its own, and a private copy of it stored for the future
    term. *)
Definition elected_installed (l : nat) (st : DporSnapshot) (c : list Z)
    (h : heap) : heap :=
  installed l 5 (future_term (config st) (Number st)) (length c) c
    (Heap (structs h) (maps h) (arrays h ++ [c])).

(** Both branches in turn, each if its condition holds. *)
Definition checkpoint_installed (l : nat) (st : DporSnapshot) (c : list Z)
    (h : heap) : heap :=
  let h1 := if use_default (config st) (Number st)
            then default_installed l st h else h in
  if start_election (config st) (Number st)
  then elected_installed l st c h1 else h1.

End CheckpointSpec.

Section KeySpec.

(** The number a byte string writes, most significant byte first. *)
Definition be_value (l : list Z) : Z :=
  fold_left (fun acc b => acc * 256 + b) l 0.

(** The [k] low bytes of [x], most significant first. *)
Definition digits_of (k : nat) (x : Z) : list Z :=
  map (fun i => (x / 2 ^ (8 * (Z.of_nat k - 1 - Z.of_nat i))) mod 256) (seq 0 k).

End KeySpec.

Section AscendingSpec.
Import Miner.

(** The blocks of a tracker fed with ascending heights: the indices
    grow strictly along the ring, and no index plus the depth leaves
    [uint64]. *)
Definition ascending (d : Z) (l : list (nat * unconfirmedBlock)) : Prop :=
  StronglySorted (fun a b => index (snd a) < index (snd b)) l /\
  Forall (fun e => 0 <= index (snd e) /\ index (snd e) + d < 2 ^ 64) l.

End AscendingSpec.

Section HeaderSpec.
Import Go Block.

(** The number behind a pointer to a [big.Int]. *)
Definition int_at (h : heap) (p : option nat) : option Z :=
  match p with
  | Some a =>
      match structs h !! a with
      | Some (IntObject v) => Some v
      | _ => None
      end
  | None => None
  end.

(** The pointer is nil or points to a number. *)
Definition int_ok (h : heap) (p : option nat) : Prop :=
  p = None \/ is_Some (int_at h p).

(** The number a copy of the field holds: zero for nil. *)
Definition value_of (h : heap) (p : option nat) : Z := default 0 (int_at h p).

(** The pointers and slices of a header are those of the heap. *)
Definition valid_header (h : heap) (hd : Header) : Prop :=
  int_ok h (Time hd) /\ int_ok h (Difficulty hd) /\ int_ok h (Number hd) /\
  allocated h (Extra hd) /\ allocated h (Extra2 hd).

(** The copy of an extra field made at array [a]: a slice on a new
    array when the field is not empty, the field itself when it is. *)
Definition copied_extra (h : heap) (a : nat) (src : slice)
    : slice * list (list Z) :=
  if (0 <? s_len src)%nat
  then (Slice (Some a) (s_len src) (s_len src), [slice_elems h src])
  else (src, []).

(** The header [CopyHeader] makes of [hd], and the heap it leaves. *)
Definition copied_header (h : heap) (hd : Header) : Header :=
  let t := length (structs h) in
  let e := copied_extra h (length (arrays h)) (Extra hd) in
  let e2 := copied_extra h (length (arrays h) + length (snd e)) (Extra2 hd) in
  set_Extra2 (fst e2)
    (set_Extra (fst e)
       (set_Number (Some (t + 2)%nat)
          (set_Difficulty (Some (t + 1)%nat) (set_Time (Some t) hd)))).

Definition copied_heap (h : heap) (hd : Header) : heap :=
  let e := copied_extra h (length (arrays h)) (Extra hd) in
  let e2 := copied_extra h (length (arrays h) + length (snd e)) (Extra2 hd) in
  Heap (structs h ++ [IntObject (value_of h (Time hd));
                      IntObject (value_of h (Difficulty hd));
                      IntObject (value_of h (Number hd));
                      HeaderObject (copied_header h hd)])
       (maps h)
       (arrays h ++ snd e ++ snd e2).

End HeaderSpec.

Section BlockSpec.
Import Go Block.

(** The heap [h2] has the objects of [h1] from the pointer [k] on; the
    objects below [k] may have been written. *)
Definition same_above (k : nat) (h1 h2 : heap) : Prop :=
  length (structs h2) = length (structs h1) /\
  forall a, (k <= a)%nat -> structs h2 !! a = structs h1 !! a.

(** The number a call returned, if the call returned one. *)
Definition returned_int (r : outcome (option nat) * heap) : option Z :=
  match r with
  | (Ret p, h') => int_at h' p
  | (Panic _, _) => None
  end.

End BlockSpec.

Section CopySpec.
Import Go Dpor.
Context {env : Environment}.

(** The struct [copy] allocates for the snapshot [st], in the heap [h]:
    the three maps are the next three of the heap, the signers first,
    then the validators, then the proposers. *)
Definition copy_struct (h : heap) (st : DporSnapshot) : DporSnapshot :=
  {| Number := Number st; Hash := Hash st;
     Candidates := Slice (Some (length (arrays h)))
                         (s_len (Candidates st)) (s_len (Candidates st));
     RecentSigners := Some (length (maps h));
     RecentProposers := Some (length (maps h) + 2)%nat;
     RecentValidators := Some (length (maps h) + 1)%nat;
     config := config st; ContractCaller := None |}.

(** What holds of the heap from the allocation of the copy to the end of
    [copy], started in [h] on the snapshot [st] at [s]: the original and
    the copy are in place, the validators and the proposers of the copy
    are empty, and its candidates read as the original's. *)
Definition copying (h : heap) (s : nat) (st : DporSnapshot) (h' : heap) : Prop :=
  structs h' !! s = Some st /\
  structs h' !! length (structs h) = Some (copy_struct h st) /\
  (length (maps h) + 2 < length (maps h'))%nat /\
  map_contents h' (Some (length (maps h) + 1)%nat) = ∅ /\
  map_contents h' (Some (length (maps h) + 2)%nat) = ∅ /\
  allocated h' (Candidates (copy_struct h st)) /\
  slice_elems h' (Candidates (copy_struct h st)) = slice_elems h (Candidates st).

End CopySpec.

(* ===================================================================== *)
(** * Facts on machine arithmetic *)
(* ===================================================================== *)

Lemma u64_wrap_small (x : Z) : 0 <= x < 2 ^ 64 -> U64.wrap x = x.
Proof. intros Hx. unfold U64.wrap, U64.modulus. apply Z.mod_small. exact Hx. Qed.

Lemma u64_wrap_range (x : Z) : 0 <= U64.wrap x < 2 ^ 64.
Proof. unfold U64.wrap, U64.modulus. apply Z.mod_pos_bound. lia. Qed.

Lemma u64_sub_small (a b : Z) : 0 <= b <= a -> a < 2 ^ 64 -> U64.sub a b = a - b.
Proof. intros H1 H2. unfold U64.sub. apply u64_wrap_small. lia. Qed.

Lemma u64_mul_small (a b : Z) :
  0 <= a -> 0 <= b -> a * b < 2 ^ 64 -> U64.mul a b = a * b.
Proof. intros Ha Hb H. unfold U64.mul. apply u64_wrap_small. nia. Qed.

Lemma u64_to_int_small (x : Z) : 0 <= x < 2 ^ 63 -> U64.to_int x = x.
Proof.
  intros Hx. unfold U64.to_int.
  destruct (Z.ltb_spec x (2 ^ 63)); [reflexivity | lia].
Qed.

Lemma u64_to_float64_small (x : Z) : x < 2 ^ 53 -> U64.to_float64 x = x.
Proof.
  intros Hx. unfold U64.to_float64.
  destruct (Z.ltb_spec x (2 ^ 53)); [reflexivity | lia].
Qed.

(* ===================================================================== *)
(** * Running the heap monad *)
(* ===================================================================== *)

Section Run.
Context {S E : Type}.
Implicit Types h : Go.heap S E.

Lemma run_bind {A B} (m : Go.M S E A) (f : A -> Go.M S E B) h a h' :
  m h = (Go.Ret a, h') -> Go.bind m f h = f a h'.
Proof. intros Hm. unfold Go.bind. rewrite Hm. reflexivity. Qed.

Lemma run_bind_panic {A B} (m : Go.M S E A) (f : A -> Go.M S E B) h w h' :
  m h = (Go.Panic w, h') -> Go.bind m f h = (Go.Panic w, h').
Proof. intros Hm. unfold Go.bind. rewrite Hm. reflexivity. Qed.

Lemma run_load h p s :
  Go.structs h !! p = Some s -> Go.load p h = (Go.Ret s, h).
Proof. intros Hp. unfold Go.load. rewrite Hp. reflexivity. Qed.

Lemma run_udiv (a b : Z) h :
  b <> 0 -> Go.udiv a b h = (Go.Ret (a / b), h).
Proof.
  intros Hb. unfold Go.udiv.
  destruct (Z.eqb_spec b 0); [contradiction | reflexivity].
Qed.

Lemma run_urem (a b : Z) h :
  b <> 0 -> Go.urem a b h = (Go.Ret (a mod b), h).
Proof.
  intros Hb. unfold Go.urem.
  destruct (Z.eqb_spec b 0); [contradiction | reflexivity].
Qed.

Lemma run_ret {A} (a : A) h : Go.ret a h = (Go.Ret a, h).
Proof. reflexivity. Qed.

Lemma wp_ret {A} (a : A) Q X h : Q a h -> wp (Go.ret a) Q X h.
Proof. intros HQ. exact HQ. Qed.

Lemma wp_panic {A} w (Q : A -> _ -> Prop) X h : X h -> wp (Go.panic w) Q X h.
Proof. intros HX. exact HX. Qed.

Lemma wp_bind {A B} (m : Go.M S E A) (f : A -> Go.M S E B) Q X h :
  wp m (fun a h' => wp (f a) Q X h') X h -> wp (Go.bind m f) Q X h.
Proof.
  unfold wp, Go.bind. destruct (m h) as [[a | w] h']; intros Hm; exact Hm.
Qed.

Lemma wp_mono {A} (m : Go.M S E A) (Q Q' : A -> _ -> Prop) (X X' : _ -> Prop) h :
  wp m Q' X' h ->
  (forall a h', Q' a h' -> Q a h') ->
  (forall h', X' h' -> X h') ->
  wp m Q X h.
Proof.
  unfold wp. destruct (m h) as [[a | w] h']; intros Hm HQ HX; auto.
Qed.

Lemma wp_run {A} (m : Go.M S E A) Q X h a h' :
  m h = (Go.Ret a, h') -> Q a h' -> wp m Q X h.
Proof. intros Hm HQ. unfold wp. rewrite Hm. exact HQ. Qed.

Lemma wp_returns {A} (m : Go.M S E A) Q h :
  wp m Q (fun _ => False) h -> exists a h', m h = (Go.Ret a, h') /\ Q a h'.
Proof.
  unfold wp. destruct (m h) as [[a | w] h']; intros Hm; [eauto | contradiction].
Qed.

Lemma wp_outcome {A} (m : Go.M S E A) Q X h :
  wp m Q X h ->
  (exists a h', m h = (Go.Ret a, h') /\ Q a h') \/
  (exists w h', m h = (Go.Panic w, h') /\ X h').
Proof.
  unfold wp. destruct (m h) as [[a | w] h']; intros Hm; [left | right]; eauto.
Qed.

Lemma wp_for_each {A} (l : list A) (body : A -> Go.M S E unit)
    (I : Go.heap S E -> Prop) X h :
  (forall x h', x ∈ l -> I h' -> wp (body x) (fun _ => I) X h') ->
  I h -> wp (Go.for_each l body) (fun _ => I) X h.
Proof.
  revert h. induction l as [| x l IH]; intros h Hbody HI; simpl.
  - exact HI.
  - apply wp_bind. eapply wp_mono.
    + apply Hbody; [left | exact HI].
    + intros u h' HI'. apply IH; [| exact HI'].
      intros y h'' Hy. apply Hbody. right. exact Hy.
    + auto.
Qed.

(** The primitives. *)

Lemma wp_load p Q X h :
  (forall s, Go.structs h !! p = Some s -> Q s h) ->
  (Go.structs h !! p = None -> X h) ->
  wp (Go.load p) Q X h.
Proof.
  intros HQ HX. unfold wp, Go.load.
  destruct (Go.structs h !! p) as [s |]; auto.
Qed.

Lemma wp_store p s Q X h :
  is_Some (Go.structs h !! p) ->
  Q tt (Go.Heap (<[p := s]> (Go.structs h)) (Go.maps h) (Go.arrays h)) ->
  wp (Go.store p s) Q X h.
Proof.
  intros [s0 Hp] HQ. unfold wp, Go.store. rewrite Hp. exact HQ.
Qed.

Lemma wp_new s Q X h :
  Q (length (Go.structs h))
    (Go.Heap (Go.structs h ++ [s]) (Go.maps h) (Go.arrays h)) ->
  wp (Go.new s) Q X h.
Proof. intros HQ. exact HQ. Qed.

Lemma wp_make_map Q X h :
  Q (Some (length (Go.maps h)))
    (Go.Heap (Go.structs h) (Go.maps h ++ [∅]) (Go.arrays h)) ->
  wp Go.make_map Q X h.
Proof. intros HQ. exact HQ. Qed.

Lemma wp_map_get r k Q X h :
  Q (Go.map_contents h r !! k) h -> wp (Go.map_get r k) Q X h.
Proof. intros HQ. exact HQ. Qed.

Lemma wp_map_range order r Q X h :
  Q (order (map_to_list (Go.map_contents h r))) h ->
  wp (Go.map_range order r) Q X h.
Proof. intros HQ. exact HQ. Qed.

Lemma wp_map_set l k v Q X h :
  Q tt (Go.Heap (Go.structs h)
          (<[l := <[k := v]> (Go.map_contents h (Some l))]> (Go.maps h))
          (Go.arrays h)) ->
  wp (Go.map_set (Some l) k v) Q X h.
Proof. intros HQ. exact HQ. Qed.

Lemma wp_map_delete l k Q X h :
  Q tt (Go.Heap (Go.structs h)
          (<[l := delete k (Go.map_contents h (Some l))]> (Go.maps h))
          (Go.arrays h)) ->
  wp (Go.map_delete (Some l) k) Q X h.
Proof. intros HQ. exact HQ. Qed.

Lemma wp_elems sl Q X h :
  Q (Go.slice_elems h sl) h -> wp (Go.elems sl) Q X h.
Proof. intros HQ. exact HQ. Qed.

Lemma wp_slice_lit (l : list E) Q X h :
  Q (Go.Slice (Some (length (Go.arrays h))) (length l) (length l))
    (Go.Heap (Go.structs h) (Go.maps h) (Go.arrays h ++ [l])) ->
  wp (Go.slice_lit l) Q X h.
Proof. intros HQ. exact HQ. Qed.

Lemma wp_make_slice (zero : E) (n : nat) Q X h :
  Q (Go.Slice (Some (length (Go.arrays h))) n n)
    (Go.Heap (Go.structs h) (Go.maps h) (Go.arrays h ++ [replicate n zero])) ->
  wp (Go.make_slice zero n) Q X h.
Proof. intros HQ. exact HQ. Qed.

Lemma wp_copy (dst src : Go.slice) (a : nat) Q X h :
  Go.s_array dst = Some a ->
  (forall y, Q tt (Go.Heap (Go.structs h) (Go.maps h) (<[a := y]> (Go.arrays h)))) ->
  wp (Go.copy dst src) Q X h.
Proof. intros Ha HQ. unfold wp, Go.copy. rewrite Ha. apply HQ. Qed.

Lemma wp_lift {A} (o : Go.outcome A) Q X h :
  match o with Go.Ret a => Q a h | Go.Panic _ => X h end ->
  wp (Go.lift o) Q X h.
Proof. intros HQ. unfold wp, Go.lift. destruct o; exact HQ. Qed.

Lemma wp_udiv a b Q X h :
  (b <> 0 -> Q (a / b) h) -> (b = 0 -> X h) -> wp (Go.udiv a b) Q X h.
Proof.
  intros HQ HX. unfold Go.udiv. destruct (Z.eqb_spec b 0).
  - apply wp_panic. auto.
  - apply wp_ret. auto.
Qed.

Lemma wp_reslice sl n Q X h :
  (n <= Z.of_nat (Go.s_cap sl) ->
   Q (Go.Slice (Go.s_array sl) (Z.to_nat n) (Go.s_cap sl)) h) ->
  (Z.of_nat (Go.s_cap sl) < n -> X h) ->
  wp (Go.reslice sl n) Q X h.
Proof.
  intros HQ HX. unfold Go.reslice.
  destruct (Z.leb_spec n (Z.of_nat (Go.s_cap sl))).
  - apply wp_ret. auto.
  - apply wp_panic. auto.
Qed.

Lemma slice_elems_alloc h (x : list E) (sl : Go.slice) :
  allocated h sl ->
  Go.slice_elems (Go.Heap (Go.structs h) (Go.maps h) (Go.arrays h ++ [x])) sl
  = Go.slice_elems h sl.
Proof.
  unfold allocated, Go.slice_elems. simpl.
  destruct (Go.s_array sl) as [a |]; [| reflexivity].
  intros Ha. rewrite lookup_app_l by exact Ha. reflexivity.
Qed.

Lemma slice_elems_take h (sl : Go.slice) :
  take (Go.s_len sl) (Go.slice_elems h sl) = Go.slice_elems h sl.
Proof.
  unfold Go.slice_elems. destruct (Go.s_array sl); [| apply take_nil].
  rewrite take_take. rewrite Nat.min_id. reflexivity.
Qed.

Lemma insert_last_app {A} (l : list A) (y z : A) :
  <[length l := y]> (l ++ [z]) = l ++ [y].
Proof.
  replace (length l) with (length l + 0)%nat at 1 by lia.
  rewrite insert_app_r. reflexivity.
Qed.

(** [make] followed by [copy]: a private copy of a slice.  The heap
    gains one array; it holds the elements of the source when the source
    is nil or its array is allocated. *)
Lemma wp_make_copy {B} (zero : E) (src : Go.slice)
    (k : Go.slice -> Go.M S E B) Q X h :
  (forall x,
     (allocated h src -> x = Go.slice_elems h src) ->
     wp (k (Go.Slice (Some (length (Go.arrays h))) (Go.s_len src) (Go.s_len src)))
        Q X (Go.Heap (Go.structs h) (Go.maps h) (Go.arrays h ++ [x]))) ->
  wp (Go.bind (Go.make_slice zero (Go.s_len src))
        (fun ss => Go.bind (Go.copy ss src) (fun _ => k ss))) Q X h.
Proof.
  intros Hk. unfold wp at 1, Go.bind, Go.make_slice, Go.copy. simpl.
  rewrite Nat.min_id.
  rewrite list_lookup_middle by reflexivity. simpl.
  rewrite drop_replicate. rewrite Nat.sub_diag. simpl. rewrite app_nil_r.
  rewrite insert_last_app.
  match goal with
  | |- context [Go.arrays h ++ [?y]] => specialize (Hk y)
  end.
  apply Hk. intros Hsrc.
  rewrite (slice_elems_alloc h _ src Hsrc).
  apply slice_elems_take.
Qed.

End Run.

(* ===================================================================== *)
(** * Term arithmetic *)
(* ===================================================================== *)

Section TermArithmetic.
Import Go Dpor.
Variables (h : heap) (s : nat) (st : DporSnapshot).
Hypothesis Hs : structs h !! s = Some st.

Let T := TermLen (config st).
Let V := ViewLen (config st).

Hypothesis HT : 0 < T.
Hypothesis HV : 0 < V.
Hypothesis HTV : T * V < 2 ^ 64.

Lemma term_length_fits : U64.mul T V = T * V /\ 0 < T * V.
Proof. split; [apply u64_mul_small; lia | nia]. Qed.

Lemma TermOf_zero : TermOf s 0 h = (Ret 0, h).
Proof. reflexivity. Qed.

Lemma TermOf_pos (n : Z) :
  0 < n < 2 ^ 64 -> TermOf s n h = (Ret ((n - 1) / (T * V)), h).
Proof.
  intros Hn. unfold TermOf.
  destruct (Z.eqb_spec n 0) as [-> | _]; [lia |].
  rewrite (run_bind _ _ _ _ _ (run_load _ _ _ Hs)).
  fold T V. destruct term_length_fits as [-> Hpos].
  rewrite u64_sub_small by lia.
  apply run_udiv. lia.
Qed.

Lemma TermOf_range (n : Z) :
  0 <= n < 2 ^ 64 ->
  exists t, TermOf s n h = (Ret t, h) /\ 0 <= t /\ t <= Z.max 0 (n - 1) /\
            (0 < n -> t = (n - 1) / (T * V)).
Proof.
  intros Hn. destruct (Z.eq_dec n 0) as [-> | Hne].
  - exists 0. rewrite TermOf_zero. repeat split; lia.
  - exists ((n - 1) / (T * V)). rewrite TermOf_pos by lia.
    destruct term_length_fits as [_ Hpos].
    assert (0 <= (n - 1) / (T * V) <= n - 1).
    { split; [apply Z.div_pos; lia |].
      apply Z.div_le_upper_bound; [lia | nia]. }
    repeat split; lia.
Qed.

End TermArithmetic.

(** C8. With [TermLen] and [ViewLen] positive (and their product a
    [uint64]): [TermOf(0) = 0]; [TermOf(n) = (n - 1) / (TermLen * ViewLen)]
    for every block number [n > 0]; [FutureTermOf(n)] is [TermOf(n) + 3] (on
    [uint64], and exactly so whenever the sum fits, as it does for
    [n + 2 < 2^64]); hence [TermOf(k * TermLen * ViewLen) = k - 1] for
    [k >= 1] and [TermOf(k * TermLen * ViewLen + 1) = k]. *)
Theorem term_arithmetic (h : Dpor.heap) (s : nat) (st : Dpor.DporSnapshot) :
  Go.structs h !! s = Some st ->
  0 < Dpor.TermLen (Dpor.config st) ->
  0 < Dpor.ViewLen (Dpor.config st) ->
  Dpor.TermLen (Dpor.config st) * Dpor.ViewLen (Dpor.config st) < 2 ^ 64 ->
  let L := Dpor.TermLen (Dpor.config st) * Dpor.ViewLen (Dpor.config st) in
  Dpor.TermOf s 0 h = (Go.Ret 0, h) /\
  (forall n, 0 < n < 2 ^ 64 ->
     Dpor.TermOf s n h = (Go.Ret ((n - 1) / L), h)) /\
  (forall n, 0 <= n < 2 ^ 64 ->
     exists t, Dpor.TermOf s n h = (Go.Ret t, h) /\
       Dpor.FutureTermOf s n h = (Go.Ret ((t + 3) mod 2 ^ 64), h) /\
       (n + 2 < 2 ^ 64 -> Dpor.FutureTermOf s n h = (Go.Ret (t + 3), h))) /\
  (forall k, 1 <= k -> k * L < 2 ^ 64 ->
     Dpor.TermOf s (k * L) h = (Go.Ret (k - 1), h)) /\
  (forall k, 1 <= k -> k * L + 1 < 2 ^ 64 ->
     Dpor.TermOf s (k * L + 1) h = (Go.Ret k, h)).
Proof.
  intros Hs HT HV HTV L.
  assert (HL : 0 < L) by (unfold L; nia).
  split; [reflexivity |].
  split; [intros n Hn; apply (TermOf_pos h s st Hs HT HV HTV n Hn) |].
  split.
  { intros n Hn.
    destruct (TermOf_range h s st Hs HT HV HTV n Hn) as (t & Ht & Ht0 & Htn & _).
    exists t. split; [exact Ht |].
    assert (Hf : Dpor.FutureTermOf s n h = (Go.Ret ((t + 3) mod 2 ^ 64), h)).
    { unfold Dpor.FutureTermOf. rewrite (run_bind _ _ _ _ _ Ht). reflexivity. }
    split; [exact Hf |].
    intros Hfit. rewrite Hf. rewrite Z.mod_small by lia. reflexivity. }
  split.
  - intros k Hk Hfit.
    rewrite (TermOf_pos h s st Hs HT HV HTV) by nia. fold L.
    do 2 f_equal.
    replace (k * L - 1) with ((k - 1) * L + (L - 1)) by ring.
    rewrite Z.div_add_l by lia. rewrite Z.div_small by lia. lia.
  - intros k Hk Hfit.
    rewrite (TermOf_pos h s st Hs HT HV HTV) by nia. fold L.
    do 2 f_equal.
    replace (k * L + 1 - 1) with (k * L) by ring.
    apply Z.div_mul. lia.
Qed.

Lemma term_arithmetic_witness :
  Go.structs Sample.genesis_heap !! 0%nat = Some Sample.genesis /\
  Dpor.TermOf 0 12 Sample.genesis_heap
    = (Go.Ret 0, Sample.genesis_heap) /\
  Dpor.TermOf 0 13 Sample.genesis_heap
    = (Go.Ret 1, Sample.genesis_heap).
Proof.
  assert (Hs : Go.structs Sample.genesis_heap !! 0%nat = Some Sample.genesis)
    by (vm_compute; reflexivity).
  destruct (term_arithmetic Sample.genesis_heap 0 Sample.genesis Hs)
    as (_ & _ & _ & Hk & Hk1); [simpl; lia | simpl; lia | simpl; lia |].
  split; [exact Hs |].
  split.
  - apply (Hk 1); simpl; lia.
  - apply (Hk1 1); simpl; lia.
Defined.

(* ===================================================================== *)
(** * Committee queries *)
(* ===================================================================== *)

Section Views.
Import Go Dpor.

(** The loop of the [...ViewOf] queries finds the first position of the
    address, or reports the error. *)
Lemma view_from_absent (i : Z) (l : list Z) (a : Z) (err : error) :
  a ∉ l -> view_from i l a err = (-1, Some err).
Proof.
  revert i. induction l as [| x l IH]; intros i Hin; simpl; [reflexivity |].
  destruct (Z.eqb_spec x a) as [-> | Hne].
  - exfalso. apply Hin. left.
  - apply IH. intros Hl. apply Hin. right. exact Hl.
Qed.

Lemma view_from_first (i : Z) (l : list Z) (a : Z) (err : error) (k : nat) :
  l !! k = Some a ->
  (forall j, (j < k)%nat -> l !! j <> Some a) ->
  view_from i l a err = (i + Z.of_nat k, None).
Proof.
  revert i k. induction l as [| x l IH]; intros i k Hk Hfirst.
  - discriminate.
  - simpl. destruct k as [| k].
    + simpl in Hk. injection Hk as ->. rewrite Z.eqb_refl.
      f_equal. lia.
    + destruct (Z.eqb_spec x a) as [-> | Hne].
      * exfalso. apply (Hfirst 0%nat); [lia | reflexivity].
      * rewrite (IH (i + 1) k).
        -- f_equal. lia.
        -- exact Hk.
        -- intros j Hj. apply (Hfirst (Datatypes.S j)). lia.
Qed.

Variables (h : heap) (s : nat) (st : DporSnapshot).
Hypothesis Hs : structs h !! s = Some st.

Lemma run_getRecentProposers (t : Z) :
  getRecentProposers s t h
  = (Ret (default nil_slice (map_contents h (RecentProposers st) !! t)), h).
Proof.
  unfold getRecentProposers.
  rewrite (run_bind _ _ _ _ _ (run_load _ _ _ Hs)).
  unfold lookup_committee, map_get, bind.
  destruct (map_contents h (RecentProposers st) !! t); reflexivity.
Qed.

Lemma run_getRecentSigners (t : Z) :
  getRecentSigners s t h
  = (Ret (default nil_slice (map_contents h (RecentSigners st) !! t)), h).
Proof.
  unfold getRecentSigners.
  rewrite (run_bind _ _ _ _ _ (run_load _ _ _ Hs)).
  unfold lookup_committee, map_get, bind.
  destruct (map_contents h (RecentSigners st) !! t); reflexivity.
Qed.

Lemma run_getRecentValidators (t : Z) :
  getRecentValidators s t h
  = (Ret (default nil_slice (map_contents h (RecentValidators st) !! t)), h).
Proof.
  unfold getRecentValidators.
  rewrite (run_bind _ _ _ _ _ (run_load _ _ _ Hs)).
  unfold lookup_committee, map_get, bind.
  destruct (map_contents h (RecentValidators st) !! t); reflexivity.
Qed.

Lemma slice_elems_length (c : slice) :
  Forall (fun arr => Z.of_nat (length arr) < 2 ^ 63) (arrays h) ->
  Z.of_nat (length (slice_elems h c)) < 2 ^ 63.
Proof.
  intros Hshort. unfold slice_elems.
  destruct (s_array c) as [a |]; [| simpl; lia].
  rewrite length_take.
  destruct (arrays h !! a) as [arr |] eqn:Ha; [| simpl; lia].
  simpl. pose proof (Forall_lookup_1 _ _ _ _ Hshort Ha) as Hlen.
  simpl in Hlen. lia.
Qed.

End Views.

(** C7. [IsProposerOf(a, 0)] fails with the genesis error.  For a block
    number [n > 0] it fails with the proposers' not-in-committee error when
    [a] is not in [ProposersOf(n)], and otherwise answers whether the view
    of [a] (its first position in [ProposersOf(n)], from 0) is
    [((n - 1) mod (TermLen * ViewLen)) / ViewLen].  [IsLeaderOf] gives the
    same results.  (The configuration is positive with a product that is a
    [uint64], and arrays are shorter than 2^63, as every Go array is.) *)
Theorem in_turn_proposer_rule
    (h : Dpor.heap) (s : nat) (st : Dpor.DporSnapshot) (a n : Z) :
  Go.structs h !! s = Some st ->
  0 < Dpor.TermLen (Dpor.config st) ->
  0 < Dpor.ViewLen (Dpor.config st) ->
  Dpor.TermLen (Dpor.config st) * Dpor.ViewLen (Dpor.config st) < 2 ^ 64 ->
  Forall (fun arr => Z.of_nat (length arr) < 2 ^ 63) (Go.arrays h) ->
  0 <= n < 2 ^ 64 ->
  let L := Dpor.TermLen (Dpor.config st) * Dpor.ViewLen (Dpor.config st) in
  let slot := ((n - 1) mod L) / Dpor.ViewLen (Dpor.config st) in
  (n = 0 ->
     Dpor.IsProposerOf s a n h
     = (Go.Ret (false, Some Dpor.errGenesisBlockNumber), h)) /\
  (0 < n ->
     exists c, Dpor.ProposersOf s n h = (Go.Ret c, h) /\
       (a ∉ Go.slice_elems h c ->
          Dpor.IsProposerOf s a n h
          = (Go.Ret (false, Some Dpor.errProposerNotInCommittee), h)) /\
       (forall view : nat,
          Go.slice_elems h c !! view = Some a ->
          (forall j, (j < view)%nat -> Go.slice_elems h c !! j <> Some a) ->
          Dpor.IsProposerOf s a n h
          = (Go.Ret (bool_decide (Z.of_nat view = slot), None), h))) /\
  Dpor.IsLeaderOf s a n h = Dpor.IsProposerOf s a n h.
Proof.
  intros Hs HT HV HTV Hshort Hn L slot.
  destruct (term_length_fits st HT HV HTV) as [Hmul HLpos].
  split; [intros ->; reflexivity |].
  split; [| reflexivity].
  intros Hpos.
  set (c := default Go.nil_slice
              (Go.map_contents h (Dpor.RecentProposers st) !! ((n - 1) / L))).
  assert (Hc : Dpor.ProposersOf s n h = (Go.Ret c, h)).
  { unfold Dpor.ProposersOf.
    rewrite (run_bind _ _ _ _ _ (TermOf_pos h s st Hs HT HV HTV n ltac:(lia))).
    apply (run_getRecentProposers h s st Hs). }
  exists c. split; [exact Hc |].
  assert (Hview : forall r,
            Dpor.view_from 0 (Go.slice_elems h c) a Dpor.errProposerNotInCommittee = r ->
            Dpor.ProposerViewOf s a n h = (Go.Ret r, h)).
  { intros r <-. unfold Dpor.ProposerViewOf.
    rewrite (run_bind _ _ _ _ _ Hc). reflexivity. }
  assert (Hne : (n =? 0) = false) by (apply Z.eqb_neq; lia).
  split.
  - intros Habs. unfold Dpor.IsProposerOf. rewrite Hne.
    rewrite (run_bind _ _ _ _ _ (Hview _ (view_from_absent 0 _ a _ Habs))).
    reflexivity.
  - intros view Hk Hfirst. unfold Dpor.IsProposerOf. rewrite Hne.
    rewrite (run_bind _ _ _ _ _ (Hview _ (view_from_first 0 _ a _ view Hk Hfirst))).
    cbn [snd fst].
    rewrite (run_bind _ _ _ _ _ (run_load _ _ _ Hs)).
    rewrite Hmul. rewrite u64_sub_small by lia.
    erewrite run_bind by (apply run_urem; fold L; lia).
    erewrite run_bind by (apply run_udiv; lia).
    fold L slot. unfold Go.ret. do 3 f_equal.
    assert (Hlen : Z.of_nat view < 2 ^ 63).
    { pose proof (slice_elems_length h c Hshort) as Hl.
      pose proof (lookup_lt_Some _ _ _ Hk) as Hlt. lia. }
    assert (Hslot : 0 <= slot < 2 ^ 64).
    { unfold slot. pose proof (Z.mod_pos_bound (n - 1) L HLpos) as Hm.
      split; [apply Z.div_pos; lia |].
      apply Z.div_lt_upper_bound; [lia | nia]. }
    unfold U64.to_int, U64.modulus.
    destruct (Z.ltb_spec slot (2 ^ 63)).
    + destruct (Z.eqb_spec (0 + Z.of_nat view) slot) as [He | He].
      * symmetry. apply bool_decide_eq_true. lia.
      * symmetry. apply bool_decide_eq_false. lia.
    + destruct (Z.eqb_spec (0 + Z.of_nat view) (slot - 2 ^ 64)) as [He | He].
      * lia.
      * symmetry. apply bool_decide_eq_false. lia.
Qed.

Lemma in_turn_proposer_rule_witness :
  Go.structs Sample.proposers_heap !! 0%nat = Some Sample.genesis /\
  Dpor.IsProposerOf 0 2 4 Sample.proposers_heap
  = (Go.Ret (true, None), Sample.proposers_heap).
Proof.
  assert (Hs : Go.structs Sample.proposers_heap !! 0%nat = Some Sample.genesis)
    by (vm_compute; reflexivity).
  split; [exact Hs |].
  destruct (in_turn_proposer_rule Sample.proposers_heap 0 Sample.genesis 2 4 Hs)
    as (_ & Hrule & _).
  - simpl. lia.
  - simpl. lia.
  - simpl. lia.
  - assert (Ha : Go.arrays Sample.proposers_heap
                 = [[1; 2; 3; 4]; [1; 2; 3; 4]; [1; 2; 3; 4]])
      by (vm_compute; reflexivity).
    rewrite Ha. repeat constructor.
  - lia.
  - destruct Hrule as (c & Hc & _ & Hin); [lia |].
    assert (Hc' : Dpor.ProposersOf 0 4 Sample.proposers_heap
                  = (Go.Ret (Go.Slice (Some 2%nat) 4 4), Sample.proposers_heap))
      by (vm_compute; reflexivity).
    rewrite Hc' in Hc. injection Hc as <-.
    rewrite (Hin 1%nat).
    + reflexivity.
    + vm_compute. reflexivity.
    + intros j Hj. assert (j = 0%nat) as -> by lia. vm_compute. discriminate.
Defined.

(* ===================================================================== *)
(** * What a snapshot owns

    [h0] is the heap in which an operation starts.  A later heap extends
    it when every struct, map and array of [h0] is still there unchanged.
    A snapshot at [p] with the maps [l1], [l2], [l3] is owned when all of
    it -- the struct, its three maps, every array its slices point to --
    was allocated after [h0]. *)
(* ===================================================================== *)

Section Ownership.
Import Go Dpor.
Variable h0 : heap.
Implicit Types (h : heap) (m : gmap Z slice) (st : DporSnapshot).

Variables (cfg : DporConfig) (p l1 l2 l3 : nat).

Local Abbreviation extends := (extends h0).
Local Abbreviation fresh_slice := (fresh_slice h0).
Local Abbreviation fresh_values := (fresh_values h0).
Local Abbreviation shape := (shape h0 cfg l1 l2 l3).
Local Abbreviation owned := (owned h0 cfg p l1 l2 l3).

Lemma extends_refl : extends h0.
Proof. repeat split; reflexivity. Qed.

Lemma prefix_insert_ge {A} (l0 l : list A) (i : nat) (x : A) :
  l0 `prefix_of` l -> (length l0 <= i)%nat -> l0 `prefix_of` <[i := x]> l.
Proof.
  intros [k ->] Hi. rewrite insert_app_r_alt by exact Hi.
  apply prefix_app_r. reflexivity.
Qed.

Lemma prefix_snoc {A} (l0 l : list A) (x : A) :
  l0 `prefix_of` l -> l0 `prefix_of` l ++ [x].
Proof. intros H. apply prefix_app_r. exact H. Qed.

(** An extension keeps every object of [h0] as it was. *)
Lemma extends_structs h i st :
  extends h -> structs h0 !! i = Some st -> structs h !! i = Some st.
Proof. intros (H & _ & _) Hi. eapply prefix_lookup_Some; eauto. Qed.



(** ** Heap updates that keep the extension *)


Lemma extends_new_map h m :
  extends h -> extends (Heap (structs h) (maps h ++ [m]) (arrays h)).
Proof. intros (H1 & H2 & H3). repeat split; simpl; auto using prefix_snoc. Qed.

Lemma extends_new_array h a :
  extends h -> extends (Heap (structs h) (maps h) (arrays h ++ [a])).
Proof. intros (H1 & H2 & H3). repeat split; simpl; auto using prefix_snoc. Qed.

Lemma extends_set_struct h i st :
  extends h -> (length (structs h0) <= i)%nat ->
  extends (Heap (<[i := st]> (structs h)) (maps h) (arrays h)).
Proof.
  intros (H1 & H2 & H3) Hi. repeat split; simpl; auto using prefix_insert_ge.
Qed.

Lemma extends_set_map h i m :
  extends h -> (length (maps h0) <= i)%nat ->
  extends (Heap (structs h) (<[i := m]> (maps h)) (arrays h)).
Proof.
  intros (H1 & H2 & H3) Hi. repeat split; simpl; auto using prefix_insert_ge.
Qed.

Lemma extends_set_array h i a :
  extends h -> (length (arrays h0) <= i)%nat ->
  extends (Heap (structs h) (maps h) (<[i := a]> (arrays h))).
Proof.
  intros (H1 & H2 & H3) Hi. repeat split; simpl; auto using prefix_insert_ge.
Qed.

(** ** Heap updates that keep the ownership *)

Lemma map_contents_set_eq h l m :
  (l < length (maps h))%nat ->
  map_contents (Heap (structs h) (<[l := m]> (maps h)) (arrays h)) (Some l) = m.
Proof.
  intros Hl. unfold map_contents. simpl.
  rewrite list_lookup_insert_eq by exact Hl. reflexivity.
Qed.

Lemma map_contents_set_ne h l l' m :
  l <> l' ->
  map_contents (Heap (structs h) (<[l := m]> (maps h)) (arrays h)) (Some l')
  = map_contents h (Some l').
Proof.
  intros Hne. unfold map_contents. simpl.
  rewrite list_lookup_insert_ne by exact Hne. reflexivity.
Qed.

Lemma map_contents_new_map h m l :
  (l < length (maps h))%nat ->
  map_contents (Heap (structs h) (maps h ++ [m]) (arrays h)) (Some l)
  = map_contents h (Some l).
Proof.
  intros Hl. unfold map_contents. simpl.
  rewrite lookup_app_l by exact Hl. reflexivity.
Qed.

Lemma in_three (a b c x : nat) : x ∈ [a; b; c] <-> x = a \/ x = b \/ x = c.
Proof.
  split.
  - intros H. repeat (apply elem_of_cons in H as [-> | H]; auto).
    inversion H.
  - intros [-> | [-> | ->]].
    + left.
    + right. left.
    + right. right. left.
Qed.

Lemma owned_new_array h a :
  owned h -> owned (Heap (structs h) (maps h) (arrays h ++ [a])).
Proof.
  intros [Hext Hp Hd Hm Hst Hs Hpr Hv].
  split; auto using extends_new_array.
Qed.

Lemma owned_new_map h m :
  owned h -> owned (Heap (structs h) (maps h ++ [m]) (arrays h)).
Proof.
  intros [Hext Hp Hd Hm Hst Hs Hpr Hv].
  assert (Hl : forall l, l ∈ [l1; l2; l3] -> (l < length (maps h))%nat).
  { intros l Hl. apply Hm in Hl. lia. }
  split; auto using extends_new_map.
  - intros l Hin. specialize (Hm l Hin). simpl. rewrite length_app. simpl. lia.
  - rewrite map_contents_new_map by (apply Hl, in_three; auto). exact Hs.
  - rewrite map_contents_new_map by (apply Hl, in_three; auto). exact Hpr.
  - rewrite map_contents_new_map by (apply Hl, in_three; auto). exact Hv.
Qed.

Lemma owned_set_array h i a :
  owned h -> (length (arrays h0) <= i)%nat ->
  owned (Heap (structs h) (maps h) (<[i := a]> (arrays h))).
Proof.
  intros [Hext Hp Hd Hm Hst Hs Hpr Hv] Hi.
  split; auto using extends_set_array.
Qed.

(** A map that is none of the three, itself allocated after [h0]. *)
Lemma owned_set_other_map h l m :
  owned h -> l ∉ [l1; l2; l3] -> (length (maps h0) <= l)%nat ->
  owned (Heap (structs h) (<[l := m]> (maps h)) (arrays h)).
Proof.
  intros [Hext Hp Hd Hm Hst Hs Hpr Hv] Hnot Hl.
  assert (Hne : l <> l1 /\ l <> l2 /\ l <> l3).
  { repeat split; intros ->; apply Hnot, in_three; auto. }
  destruct Hne as (Hn1 & Hn2 & Hn3).
  split; auto using extends_set_map.
  - intros l' Hin. specialize (Hm l' Hin). simpl. rewrite length_insert. lia.
  - rewrite map_contents_set_ne by exact Hn1. exact Hs.
  - rewrite map_contents_set_ne by exact Hn2. exact Hpr.
  - rewrite map_contents_set_ne by exact Hn3. exact Hv.
Qed.

Lemma owned_set_signers h m :
  owned h -> fresh_values m ->
  owned (Heap (structs h) (<[l1 := m]> (maps h)) (arrays h)).
Proof.
  intros [Hext Hp Hd Hm Hst Hs Hpr Hv] Hfresh.
  destruct Hd as (H12 & H13 & H23).
  assert (Hl1 : (length (maps h0) <= l1 < length (maps h))%nat)
    by (apply Hm, in_three; auto).
  split; auto.
  - apply extends_set_map; [exact Hext | lia].
  - intros l' Hin. specialize (Hm l' Hin). simpl. rewrite length_insert. lia.
  - rewrite map_contents_set_eq by lia. exact Hfresh.
  - rewrite map_contents_set_ne by exact H12. exact Hpr.
  - rewrite map_contents_set_ne by exact H13. exact Hv.
Qed.

Lemma owned_set_struct h st :
  owned h -> shape st ->
  owned (Heap (<[p := st]> (structs h)) (maps h) (arrays h)).
Proof.
  intros [Hext Hp Hd Hm (st0 & Hst0 & Hsh0) Hs Hpr Hv] Hsh.
  split; auto.
  - apply extends_set_struct; assumption.
  - exists st. split; [| exact Hsh]. simpl.
    apply list_lookup_insert_eq. apply (lookup_lt_Some _ _ _ Hst0).
Qed.

End Ownership.

(* ===================================================================== *)
(** * The setters, step by step *)
(* ===================================================================== *)

Section Setters.
Import Go Dpor.
Context {env : Environment}.
Implicit Types (h : heap) (st : DporSnapshot).

Lemma run_store p st st' h :
  structs h !! p = Some st -> Go.store p st' h = (Ret tt, put_struct p st' h).
Proof. intros Hp. unfold Go.store. rewrite Hp. reflexivity. Qed.

Lemma run_setNumber p n h st :
  structs h !! p = Some st ->
  setNumber p n h = (Ret tt, put_struct p (with_Number n st) h).
Proof.
  intros Hp. unfold setNumber.
  rewrite (run_bind _ _ _ _ _ (run_load _ _ _ Hp)).
  apply (run_store _ _ _ _ Hp).
Qed.

Lemma run_setHash p x h st :
  structs h !! p = Some st ->
  setHash p x h = (Ret tt, put_struct p (with_Hash x st) h).
Proof.
  intros Hp. unfold setHash.
  rewrite (run_bind _ _ _ _ _ (run_load _ _ _ Hp)).
  apply (run_store _ _ _ _ Hp).
Qed.

Lemma run_setContractCaller p c h st :
  structs h !! p = Some st ->
  setContractCaller p c h = (Ret tt, put_struct p (with_ContractCaller c st) h).
Proof.
  intros Hp. unfold setContractCaller.
  rewrite (run_bind _ _ _ _ _ (run_load _ _ _ Hp)).
  apply (run_store _ _ _ _ Hp).
Qed.

Lemma run_number p h st :
  structs h !! p = Some st -> number p h = (Ret (Number st), h).
Proof.
  intros Hp. unfold number.
  rewrite (run_bind _ _ _ _ _ (run_load _ _ _ Hp)). reflexivity.
Qed.

Lemma run_hash p h st :
  structs h !! p = Some st -> hash p h = (Ret (Hash st), h).
Proof.
  intros Hp. unfold hash.
  rewrite (run_bind _ _ _ _ _ (run_load _ _ _ Hp)). reflexivity.
Qed.

Lemma run_candidates p h st :
  structs h !! p = Some st -> candidates p h = (Ret (Candidates st), h).
Proof.
  intros Hp. unfold candidates.
  rewrite (run_bind _ _ _ _ _ (run_load _ _ _ Hp)). reflexivity.
Qed.

Lemma put_struct_lookup p st h :
  is_Some (structs h !! p) -> structs (put_struct p st h) !! p = Some st.
Proof.
  intros [st0 Hp]. unfold put_struct. simpl.
  apply list_lookup_insert_eq. apply (lookup_lt_Some _ _ _ Hp).
Qed.

(** [setCandidates]: the struct points to a private copy of the roster. *)
Lemma wp_setCandidates p (src : slice) Q X h st :
  structs h !! p = Some st ->
  (forall x,
     (allocated h src -> x = slice_elems h src) ->
     Q tt (put_struct p
             (with_Candidates
                (Slice (Some (length (arrays h))) (s_len src) (s_len src)) st)
             (Heap (structs h) (maps h) (arrays h ++ [x])))) ->
  wp (setCandidates p src) Q X h.
Proof.
  intros Hp HQ. unfold setCandidates, lock.
  apply wp_bind.
  apply wp_run with (a := tt) (h' := h).
  { rewrite (run_bind _ _ _ _ _ (run_load _ _ _ Hp)). reflexivity. }
  apply wp_make_copy. intros x Hx.
  apply wp_bind. apply wp_load; simpl.
  - intros st' Hst'. rewrite Hp in Hst'. injection Hst' as <-.
    apply wp_store; simpl; [eauto |]. apply HQ. exact Hx.
  - intros Hnone. rewrite Hp in Hnone. discriminate.
Qed.

Lemma wp_install l size term (src : slice) Q X h :
  (l < length (maps h))%nat ->
  (forall x,
     (allocated h src -> x = slice_elems h src) ->
     Q tt (installed l size term (s_len src) x h)) ->
  wp (install (Some l) size term src) Q X h.
Proof.
  intros Hl HQ. unfold install.
  apply wp_make_copy. intros x Hx.
  apply wp_bind, wp_map_set.
  apply wp_bind, wp_map_get.
  set (m1 := <[term := Slice (Some (length (arrays h))) (s_len src) (s_len src)]>
               (map_contents h (Some l))).
  assert (Hm1 : map_contents
                  (Heap (structs h) (<[l := m1]> (maps h)) (arrays h ++ [x]))
                  (Some l) = m1).
  { unfold map_contents. simpl. rewrite list_lookup_insert_eq by exact Hl.
    reflexivity. }
  simpl structs. simpl maps. simpl arrays.
  change (map_contents (Heap (structs h) (maps h) (arrays h ++ [x])) (Some l))
    with (map_contents h (Some l)).
  fold m1. rewrite Hm1.
  specialize (HQ x Hx). unfold installed in HQ. fold m1 in HQ.
  destruct (m1 !! beforeTerm term size) as [v |] eqn:Hbt.
  - apply wp_map_delete. rewrite Hm1. cbn [structs maps arrays].
    rewrite list_insert_insert_eq. exact HQ.
  - apply wp_ret. rewrite delete_id in HQ by exact Hbt. exact HQ.
Qed.

Lemma wp_setRecentSigners p l term (src : slice) Q X h st :
  structs h !! p = Some st -> RecentSigners st = Some l ->
  (l < length (maps h))%nat ->
  (forall x,
     (allocated h src -> x = slice_elems h src) ->
     Q tt (installed l MaxSizeOfRecentSigners term (s_len src) x h)) ->
  wp (setRecentSigners p term src) Q X h.
Proof.
  intros Hp Hr Hl HQ. unfold setRecentSigners.
  apply wp_bind, wp_load.
  - intros st' Hst'. rewrite Hp in Hst'. injection Hst' as <-.
    rewrite Hr. apply wp_install; assumption.
  - intros Hnone. rewrite Hp in Hnone. discriminate.
Qed.

Lemma wp_setRecentProposers p l term (src : slice) Q X h st :
  structs h !! p = Some st -> RecentProposers st = Some l ->
  (l < length (maps h))%nat ->
  (forall x,
     (allocated h src -> x = slice_elems h src) ->
     Q tt (installed l MaxSizeOfRecentProposers term (s_len src) x h)) ->
  wp (setRecentProposers p term src) Q X h.
Proof.
  intros Hp Hr Hl HQ. unfold setRecentProposers.
  apply wp_bind, wp_load.
  - intros st' Hst'. rewrite Hp in Hst'. injection Hst' as <-.
    rewrite Hr. apply wp_install; assumption.
  - intros Hnone. rewrite Hp in Hnone. discriminate.
Qed.

Lemma wp_setRecentValidators p l term (src : slice) Q X h st :
  structs h !! p = Some st -> RecentValidators st = Some l ->
  (l < length (maps h))%nat ->
  (forall x,
     (allocated h src -> x = slice_elems h src) ->
     Q tt (installed l MaxSizeOfRecentValidators term (s_len src) x h)) ->
  wp (setRecentValidators p term src) Q X h.
Proof.
  intros Hp Hr Hl HQ. unfold setRecentValidators.
  apply wp_bind, wp_load.
  - intros st' Hst'. rewrite Hp in Hst'. injection Hst' as <-.
    rewrite Hr. apply wp_install; assumption.
  - intros Hnone. rewrite Hp in Hnone. discriminate.
Qed.

End Setters.

(* ===================================================================== *)
(** * The evicted term *)
(* ===================================================================== *)

Section BeforeTerm.
Import Go Dpor.
Context {env : Environment}.

Lemma to_float64_top (x : Z) :
  2 ^ 64 - 5 <= x < 2 ^ 64 -> U64.to_float64 x = 2 ^ 64.
Proof.
  intros Hx.
  assert (Hc : x = 2 ^ 64 - 5 \/ x = 2 ^ 64 - 4 \/ x = 2 ^ 64 - 3 \/
               x = 2 ^ 64 - 2 \/ x = 2 ^ 64 - 1) by lia.
  destruct Hc as [-> | [-> | [-> | [-> | ->]]]]; vm_compute; reflexivity.
Qed.

(** Below term 5 the subtraction wraps, the float is 2^64, and the
    conversion back is the implementation's choice. *)
Lemma beforeTerm_wrapped (t : Z) :
  0 <= t < 5 -> beforeTerm t 5 = float_overflow.
Proof.
  intros Ht. unfold beforeTerm.
  rewrite to_float64_top.
  - reflexivity.
  - unfold U64.sub, U64.wrap, U64.modulus.
    replace (t - 5) with ((t - 5 + 2 ^ 64) + (-1) * 2 ^ 64) by ring.
    rewrite Z.mod_add by lia. rewrite Z.mod_small by lia. lia.
Qed.

(** From term 5 on (and while the float is exact) it is [t - 5]. *)
Lemma beforeTerm_exact (t : Z) :
  5 <= t < 2 ^ 53 -> beforeTerm t 5 = t - 5.
Proof.
  intros Ht. unfold beforeTerm.
  rewrite u64_sub_small by lia.
  rewrite u64_to_float64_small by lia.
  rewrite Z.max_r by lia.
  unfold U64.of_float64, U64.modulus.
  destruct (Z.ltb_spec (t - 5) (2 ^ 64)); [reflexivity | lia].
Qed.

Lemma beforeTerm_other (t : Z) :
  0 <= t < 2 ^ 53 -> 5 <= float_overflow -> beforeTerm t 5 <> t.
Proof.
  intros Ht Hov. destruct (Z.lt_ge_cases t 5).
  - rewrite beforeTerm_wrapped by lia. lia.
  - rewrite beforeTerm_exact by lia. lia.
Qed.

End BeforeTerm.

(* ===================================================================== *)
(** * Running the term functions on any configuration *)
(* ===================================================================== *)

Section Terms.
Import Go Dpor.
Implicit Types (h : heap) (st : DporSnapshot).

Lemma run_TermOf p h st n :
  structs h !! p = Some st ->
  (n <> 0 -> U64.mul (TermLen (config st)) (ViewLen (config st)) <> 0) ->
  TermOf p n h = (Ret (term_of (config st) n), h).
Proof.
  intros Hp Hdiv. unfold TermOf, term_of.
  destruct (Z.eqb_spec n 0) as [-> | Hn]; [reflexivity |].
  rewrite (run_bind _ _ _ _ _ (run_load _ _ _ Hp)).
  apply run_udiv. auto.
Qed.

Lemma run_Term p h st :
  structs h !! p = Some st ->
  (Number st <> 0 -> U64.mul (TermLen (config st)) (ViewLen (config st)) <> 0) ->
  Term p h = (Ret (term_of (config st) (Number st)), h).
Proof.
  intros Hp Hdiv. unfold Term, term_of.
  rewrite (run_bind _ _ _ _ _ (run_number _ _ _ Hp)).
  destruct (Z.eqb_spec (Number st) 0) as [He | Hn]; [reflexivity |].
  rewrite (run_bind _ _ _ _ _ (run_number _ _ _ Hp)).
  rewrite (run_bind _ _ _ _ _ (run_load _ _ _ Hp)).
  apply run_udiv. auto.
Qed.

Lemma run_FutureTermOf p h st n :
  structs h !! p = Some st ->
  (n <> 0 -> U64.mul (TermLen (config st)) (ViewLen (config st)) <> 0) ->
  FutureTermOf p n h
  = (Ret (U64.add (term_of (config st) n) TermGapBetweenElectionAndMining), h).
Proof.
  intros Hp Hdiv. unfold FutureTermOf.
  rewrite (run_bind _ _ _ _ _ (run_TermOf _ _ _ _ Hp Hdiv)). reflexivity.
Qed.

Lemma term_of_bounds (cfg : DporConfig) (n : Z) :
  0 <= n < 2 ^ 64 -> 0 <= term_of cfg n <= n.
Proof.
  intros Hn. unfold term_of.
  destruct (Z.eqb_spec n 0) as [-> | Hne]; [lia |].
  rewrite u64_sub_small by lia.
  pose proof (u64_wrap_range (TermLen cfg * ViewLen cfg)) as Hr.
  fold (U64.mul (TermLen cfg) (ViewLen cfg)) in Hr.
  destruct (Z.eq_dec (U64.mul (TermLen cfg) (ViewLen cfg)) 0) as [-> | Hd].
  - rewrite Z.div_0_r. lia.
  - split; [apply Z.div_pos; lia |].
    assert ((n - 1) / U64.mul (TermLen cfg) (ViewLen cfg) <= n - 1); [| lia].
    apply Z.div_le_upper_bound; [lia | nia].
Qed.

(** A weakest precondition that pins the result down gives the run. *)
Lemma wp_of_run {A} (m : M A) (a : A) h h' :
  wp m (fun a' h'' => (a', h'') = (a, h')) (fun _ => False) h ->
  m h = (Ret a, h').
Proof.
  unfold wp. destruct (m h) as [[a' | w] h'']; intros Hm.
  - injection Hm as -> ->. reflexivity.
  - contradiction.
Qed.

End Terms.

(* ===================================================================== *)
(** * The genesis constructor *)
(* ===================================================================== *)

Section Genesis.
Import Go Dpor.
Context {env : Environment}.
Implicit Types (h : heap) (st : DporSnapshot).

Lemma run_newSnapshot h (cfg : DporConfig) (number hash : Z) (signers : slice) :
  allocated h signers ->
  (number <> 0 -> U64.mul (TermLen cfg) (ViewLen cfg) <> 0) ->
  newSnapshot cfg number hash signers h
  = (Ret (length (structs h)), genesis_result cfg number hash signers h).
Proof.
  intros Ha Hdiv. apply wp_of_run. unfold newSnapshot.
  apply wp_bind, wp_make_map. apply wp_bind, wp_make_map.
  apply wp_bind, wp_make_map. apply wp_bind, wp_new.
  cbn [structs maps arrays].
  rewrite !length_app. cbn [length].
  replace (length (maps h) + 1)%nat with (Datatypes.S (length (maps h))) by lia.
  replace (Datatypes.S (length (maps h)) + 1)%nat
    with (Datatypes.S (Datatypes.S (length (maps h)))) by lia.
  rewrite <- !app_assoc. cbn [app].
  fold (genesis_struct cfg number hash (length (maps h))).
  set (st := genesis_struct cfg number hash (length (maps h))).
  set (h1 := Heap (structs h ++ [st]) (maps h ++ [∅; ∅; ∅]) (arrays h)).
  assert (Hp : structs h1 !! length (structs h) = Some st).
  { unfold h1. simpl. apply list_lookup_middle. reflexivity. }
  apply wp_bind.
  eapply wp_run; [apply (run_Term _ _ _ Hp); exact Hdiv |].
  apply wp_bind.
  eapply (wp_setRecentSigners _ (length (maps h)) _ _ _ _ _ st Hp).
  - reflexivity.
  - unfold h1. simpl. rewrite length_app. simpl. lia.
  - intros x Hx. apply wp_ret.
    rewrite Hx by exact Ha. reflexivity.
Qed.

End Genesis.

(* ===================================================================== *)
(** * The heap after an installation *)
(* ===================================================================== *)

Section Installed.
Import Go Dpor.
Context {env : Environment}.
Implicit Types (h : heap) (st : DporSnapshot).
Variables (l : nat) (size term : Z) (len : nat) (x : list Z).

Lemma installed_structs h :
  structs (installed l size term len x h) = structs h.
Proof. reflexivity. Qed.

Lemma installed_map_eq h :
  (l < length (maps h))%nat ->
  map_contents (installed l size term len x h) (Some l)
  = delete (beforeTerm term size)
      (<[term := Slice (Some (length (arrays h))) len len]>
         (map_contents h (Some l))).
Proof.
  intros Hl. unfold installed, map_contents at 1. simpl.
  rewrite list_lookup_insert_eq by exact Hl. reflexivity.
Qed.

Lemma installed_map_ne h l' :
  l <> l' ->
  map_contents (installed l size term len x h) (Some l')
  = map_contents h (Some l').
Proof.
  intros Hne. unfold installed, map_contents. simpl.
  rewrite list_lookup_insert_ne by exact Hne. reflexivity.
Qed.

Lemma installed_elems_new h :
  slice_elems (installed l size term len x h)
    (Slice (Some (length (arrays h))) len len) = take len x.
Proof.
  unfold slice_elems, installed. simpl.
  rewrite list_lookup_middle by reflexivity. reflexivity.
Qed.

Lemma installed_elems_old h (sl : slice) :
  allocated h sl ->
  slice_elems (installed l size term len x h) sl = slice_elems h sl.
Proof. intros Ha. unfold installed. apply slice_elems_alloc. exact Ha. Qed.

Lemma installed_lookup h :
  (l < length (maps h))%nat ->
  beforeTerm term size <> term ->
  map_contents (installed l size term len x h) (Some l) !! term
  = Some (Slice (Some (length (arrays h))) len len).
Proof.
  intros Hl Hne. rewrite installed_map_eq by exact Hl.
  rewrite lookup_delete_ne by exact Hne. apply lookup_insert_eq.
Qed.

Lemma installed_extends h :
  (length (maps h) <= l)%nat -> extends h (installed l size term len x h).
Proof.
  intros Hl. unfold installed. repeat split; simpl.
  - reflexivity.
  - rewrite list_insert_ge by exact Hl. reflexivity.
  - apply prefix_app_r. reflexivity.
Qed.

End Installed.

Section GenesisFacts.
Import Go Dpor.
Context {env : Environment}.
Implicit Types (h : heap).
Variables (cfg : DporConfig) (number hash : Z) (signers : slice).

Lemma genesis_result_struct h :
  structs (genesis_result cfg number hash signers h) !! length (structs h)
  = Some (genesis_struct cfg number hash (length (maps h))).
Proof.
  unfold genesis_result. rewrite installed_structs. simpl.
  apply list_lookup_middle. reflexivity.
Qed.

Lemma genesis_result_extends h :
  extends h (genesis_result cfg number hash signers h).
Proof.
  unfold genesis_result, installed. repeat split; simpl.
  - apply prefix_app_r. reflexivity.
  - replace (length (maps h)) with (length (maps h) + 0)%nat at 1 by lia.
    rewrite insert_app_r. apply prefix_app_r. reflexivity.
  - apply prefix_app_r. reflexivity.
Qed.

Lemma genesis_result_signers h :
  beforeTerm (term_of cfg number) MaxSizeOfRecentSigners <> term_of cfg number ->
  map_contents (genesis_result cfg number hash signers h) (Some (length (maps h)))
    !! term_of cfg number
  = Some (Slice (Some (length (arrays h))) (s_len signers) (s_len signers)).
Proof.
  intros Hne. unfold genesis_result.
  apply (installed_lookup _ _ _ _ _
           (Heap (structs h ++ [genesis_struct cfg number hash (length (maps h))])
                 (maps h ++ [∅; ∅; ∅]) (arrays h))); [| exact Hne].
  simpl. rewrite length_app. simpl. lia.
Qed.

Lemma genesis_result_proposers h :
  map_contents (genesis_result cfg number hash signers h)
    (Some (Datatypes.S (length (maps h)))) = ∅.
Proof.
  unfold genesis_result. rewrite installed_map_ne by lia.
  unfold map_contents. simpl.
  rewrite lookup_app_r by lia.
  replace (Datatypes.S (length (maps h)) - length (maps h))%nat with 1%nat by lia.
  reflexivity.
Qed.

Lemma genesis_result_validators h :
  map_contents (genesis_result cfg number hash signers h)
    (Some (Datatypes.S (Datatypes.S (length (maps h))))) = ∅.
Proof.
  unfold genesis_result. rewrite installed_map_ne by lia.
  unfold map_contents. simpl.
  rewrite lookup_app_r by lia.
  replace (Datatypes.S (Datatypes.S (length (maps h))) - length (maps h))%nat
    with 2%nat by lia.
  reflexivity.
Qed.

Lemma genesis_result_elems h :
  slice_elems (genesis_result cfg number hash signers h)
    (Slice (Some (length (arrays h))) (s_len signers) (s_len signers))
  = slice_elems h signers.
Proof.
  unfold genesis_result.
  rewrite (installed_elems_new _ _ _ _ _
             (Heap (structs h ++ [genesis_struct cfg number hash (length (maps h))])
                   (maps h ++ [∅; ∅; ∅]) (arrays h))).
  apply slice_elems_take.
Qed.

End GenesisFacts.

(** C4 (as amended).  [newSnapshot(config, number, hash, seedSigners)]
    installs the seed signers in the signers mapping only, at the term of
    [number] (term 0 for the genesis block): on the snapshot it returns,
    [SignersOf(number)] holds the elements of the seed, while the proposers
    and the validators mappings are empty, so that [ProposersOf(0)] and
    [ValidatorsOf(0)] are nil.  Nothing that was on the heap before is
    changed. *)
Theorem newSnapshot_installs_signers
    (env : Dpor.Environment) (h : Dpor.heap) (cfg : Dpor.DporConfig)
    (number hash : Z) (signers : Go.slice) :
  allocated h signers ->
  0 <= number < 2 ^ 53 ->
  (number <> 0 -> U64.mul (Dpor.TermLen cfg) (Dpor.ViewLen cfg) <> 0) ->
  5 <= Dpor.float_overflow ->
  exists p h',
    Dpor.newSnapshot cfg number hash signers h = (Go.Ret p, h') /\
    extends h h' /\
    (exists c,
       Dpor.SignersOf p number h' = (Go.Ret c, h') /\
       Go.slice_elems h' c = Go.slice_elems h signers) /\
    (number = 0 -> Dpor.TermOf p number h' = (Go.Ret 0, h')) /\
    (forall t, Dpor.getRecentProposers p t h' = (Go.Ret Go.nil_slice, h')) /\
    (forall t, Dpor.getRecentValidators p t h' = (Go.Ret Go.nil_slice, h')) /\
    Dpor.ProposersOf p 0 h' = (Go.Ret Go.nil_slice, h') /\
    Dpor.ValidatorsOf p 0 h' = (Go.Ret Go.nil_slice, h').
Proof.
  intros Ha Hn Hdiv Hov.
  exists (length (Go.structs h)), (genesis_result cfg number hash signers h).
  pose proof (genesis_result_struct cfg number hash signers h) as Hp.
  set (h' := genesis_result cfg number hash signers h) in *.
  set (p := length (Go.structs h)) in *.
  assert (Hterm : Dpor.TermOf p number h' = (Go.Ret (term_of cfg number), h')).
  { apply (run_TermOf _ _ _ _ Hp). exact Hdiv. }
  assert (Hbt : Dpor.beforeTerm (term_of cfg number) Dpor.MaxSizeOfRecentSigners
                <> term_of cfg number).
  { apply beforeTerm_other; [| exact Hov].
    pose proof (term_of_bounds cfg number ltac:(lia)). lia. }
  assert (Hprop : forall t,
            Dpor.getRecentProposers p t h' = (Go.Ret Go.nil_slice, h')).
  { intros t. rewrite (run_getRecentProposers _ _ _ Hp).
    unfold genesis_struct. cbn [Dpor.RecentProposers].
    unfold h'. rewrite genesis_result_proposers. reflexivity. }
  assert (Hval : forall t,
            Dpor.getRecentValidators p t h' = (Go.Ret Go.nil_slice, h')).
  { intros t. rewrite (run_getRecentValidators _ _ _ Hp).
    unfold genesis_struct. cbn [Dpor.RecentValidators].
    unfold h'. rewrite genesis_result_validators. reflexivity. }
  split; [apply run_newSnapshot; assumption |].
  split; [apply genesis_result_extends |].
  split.
  { exists (Go.Slice (Some (length (Go.arrays h))) (Go.s_len signers) (Go.s_len signers)).
    split.
    - unfold Dpor.SignersOf. rewrite (run_bind _ _ _ _ _ Hterm).
      rewrite (run_getRecentSigners _ _ _ Hp).
      unfold genesis_struct. cbn [Dpor.RecentSigners].
      unfold h'. rewrite genesis_result_signers by exact Hbt. reflexivity.
    - apply genesis_result_elems. }
  split; [intros ->; reflexivity |].
  split; [exact Hprop |].
  split; [exact Hval |].
  split.
  - unfold Dpor.ProposersOf. simpl.
    rewrite (run_bind _ _ _ _ _ (run_ret 0 h')). apply Hprop.
  - unfold Dpor.ValidatorsOf. simpl.
    rewrite (run_bind _ _ _ _ _ (run_ret 0 h')). apply Hval.
Qed.

Lemma newSnapshot_installs_signers_witness :
  allocated Sample.seed_heap Sample.seed_slice /\
  5 <= @Dpor.float_overflow Sample.env /\
  exists p h',
    @Dpor.newSnapshot Sample.env Sample.cfg 0 0 Sample.seed_slice Sample.seed_heap
    = (Go.Ret p, h') /\
    exists c, Dpor.SignersOf p 0 h' = (Go.Ret c, h') /\
              Go.slice_elems h' c = [1; 2; 3; 4].
Proof.
  assert (Ha : allocated Sample.seed_heap Sample.seed_slice)
    by (unfold allocated; simpl; lia).
  assert (Hov : 5 <= @Dpor.float_overflow Sample.env) by (simpl; lia).
  split; [exact Ha |]. split; [exact Hov |].
  destruct (newSnapshot_installs_signers Sample.env Sample.seed_heap Sample.cfg
              0 0 Sample.seed_slice Ha ltac:(lia) ltac:(intros H; now contradiction H) Hov)
    as (p & h' & Hrun & _ & (c & Hc & Hel) & _).
  exists p, h'. split; [exact Hrun |].
  exists c. split; [exact Hc |]. rewrite Hel. reflexivity.
Defined.

(** C4 as stated fails: after [newSnapshot] with the seed [[1; 2; 3; 4]] at
    block 0, [ProposersOf(0)] and [ValidatorsOf(0)] are nil; the seed is
    under [SignersOf(0)]. *)
Lemma newSnapshot_proposers_counterexample :
  Go.slice_elems Sample.seed_heap Sample.seed_slice = [1; 2; 3; 4] /\
  fst (@Dpor.newSnapshot Sample.env Sample.cfg 0 0 Sample.seed_slice Sample.seed_heap)
  = Go.Ret 0%nat /\
  Dpor.ProposersOf 0 0 Sample.genesis_heap = (Go.Ret Go.nil_slice, Sample.genesis_heap) /\
  Dpor.ValidatorsOf 0 0 Sample.genesis_heap = (Go.Ret Go.nil_slice, Sample.genesis_heap) /\
  Go.slice_elems Sample.genesis_heap Go.nil_slice = [] /\
  fst (Go.bind (Dpor.SignersOf 0 0) Go.elems Sample.genesis_heap) = Go.Ret [1; 2; 3; 4].
Proof. repeat split; vm_compute; reflexivity. Qed.

(* ===================================================================== *)
(** * Eviction *)
(* ===================================================================== *)

Section Eviction.
Import Go Dpor.
Implicit Types (m : gmap Z slice) (v : slice) (t k : Z).




End Eviction.

Section EvictionOnHeap.
Import Go Dpor.
Context {env : Environment}.
Implicit Types (h : heap) (st : DporSnapshot).

Lemma run_setRecentSigners p l term (src : slice) h st :
  structs h !! p = Some st -> RecentSigners st = Some l ->
  (l < length (maps h))%nat -> allocated h src ->
  setRecentSigners p term src h
  = (Ret tt, installed l MaxSizeOfRecentSigners term (s_len src)
               (slice_elems h src) h).
Proof.
  intros Hp Hr Hl Ha. apply wp_of_run.
  eapply wp_setRecentSigners; eauto.
  intros x Hx. rewrite (Hx Ha). reflexivity.
Qed.

Lemma run_setRecentProposers p l term (src : slice) h st :
  structs h !! p = Some st -> RecentProposers st = Some l ->
  (l < length (maps h))%nat -> allocated h src ->
  setRecentProposers p term src h
  = (Ret tt, installed l MaxSizeOfRecentProposers term (s_len src)
               (slice_elems h src) h).
Proof.
  intros Hp Hr Hl Ha. apply wp_of_run.
  eapply wp_setRecentProposers; eauto.
  intros x Hx. rewrite (Hx Ha). reflexivity.
Qed.

Lemma run_setRecentValidators p l term (src : slice) h st :
  structs h !! p = Some st -> RecentValidators st = Some l ->
  (l < length (maps h))%nat -> allocated h src ->
  setRecentValidators p term src h
  = (Ret tt, installed l MaxSizeOfRecentValidators term (s_len src)
               (slice_elems h src) h).
Proof.
  intros Hp Hr Hl Ha. apply wp_of_run.
  eapply wp_setRecentValidators; eauto.
  intros x Hx. rewrite (Hx Ha). reflexivity.
Qed.


End EvictionOnHeap.




(* ===================================================================== *)
(** * The placeholder oracles *)
(* ===================================================================== *)

Section Oracles.
Import Go Dpor.
Context {env : Environment}.
Implicit Types (h : heap) (st : DporSnapshot).

Lemma run_updateCandidates p (header : types.Header) h st :
  structs h !! p = Some st ->
  updateCandidates p header h = (Ret None, roster_heap p st h).
Proof.
  intros Hp. apply wp_of_run. unfold updateCandidates.
  apply wp_bind, wp_slice_lit.
  apply wp_bind.
  eapply wp_setCandidates; [exact Hp |].
  intros x Hx. apply wp_ret.
  rewrite Hx.
  - unfold roster_heap, roster_slice, slice_elems. cbn.
    rewrite list_lookup_middle by reflexivity. cbn.
    rewrite length_app. cbn.
    replace (length (arrays h) + 1)%nat with (Datatypes.S (length (arrays h))) by lia.
    rewrite <- app_assoc. reflexivity.
  - unfold allocated. cbn. rewrite length_app. cbn. lia.
Qed.

Lemma roster_heap_struct p st h :
  is_Some (structs h !! p) ->
  structs (roster_heap p st h) !! p
  = Some (with_Candidates (roster_slice h) st).
Proof. intros Hp. unfold roster_heap. apply put_struct_lookup. exact Hp. Qed.

Lemma roster_heap_elems p st h :
  slice_elems (roster_heap p st h) (roster_slice h) = default_candidates.
Proof.
  unfold roster_heap, roster_slice, slice_elems, put_struct. cbn [s_array s_len arrays].
  replace (Datatypes.S (length (arrays h))) with (length (arrays h) + 1)%nat by lia.
  rewrite lookup_app_r by lia.
  replace (length (arrays h) + 1 - length (arrays h))%nat with 1%nat by lia.
  reflexivity.
Qed.

Lemma run_updateRpts p (header : types.Header) h st :
  structs h !! p = Some st ->
  updateRpts p header h
  = (Ret (index_rpts (slice_elems h (Candidates st)), None), h).
Proof.
  intros Hp. unfold updateRpts.
  rewrite (run_bind _ _ _ _ _ (run_candidates _ _ _ Hp)). reflexivity.
Qed.

Lemma index_rpts_lookup (l : list Z) (i : nat) (c : Z) :
  l !! i = Some c ->
  index_rpts l !! i = Some {| Address := c; Rpt_ := Z.of_nat i |}.
Proof.
  intros Hi. unfold index_rpts. rewrite list_lookup_imap. rewrite Hi. reflexivity.
Qed.

Lemma index_rpts_length (l : list Z) : length (index_rpts l) = length l.
Proof. unfold index_rpts. apply length_imap. Qed.

Lemma never_fails_ret : never_fails (ret None).
Proof. intros h r h' Hrun. injection Hrun as <- _. reflexivity. Qed.

Lemma never_fails_bind {A} (m : M A) (f : A -> M (option error)) :
  (forall h a h', m h = (Ret a, h') -> never_fails (f a)) ->
  never_fails (bind m f).
Proof.
  intros Hf h r h' Hrun. unfold bind in Hrun.
  destruct (m h) as [[a | w] h1] eqn:Hm; [| discriminate].
  exact (Hf h a h1 Hm h1 r h' Hrun).
Qed.

Lemma never_fails_then {A} (m : M A) (k : M (option error)) :
  never_fails k -> never_fails (bind m (fun _ => k)).
Proof. intros Hk. apply never_fails_bind. intros _ _ _ _. exact Hk. Qed.

Lemma never_fails_updateCandidates p (header : types.Header) :
  never_fails (updateCandidates p header).
Proof.
  unfold updateCandidates.
  apply never_fails_bind. intros _ c _ _.
  apply never_fails_then, never_fails_ret.
Qed.

Lemma updateRpts_error p (header : types.Header) h r h' :
  updateRpts p header h = (Ret r, h') -> snd r = None.
Proof.
  unfold updateRpts, candidates, load, elems, ret. unfold bind. intros Hrun.
  destruct (structs h !! p); [| discriminate].
  injection Hrun as <- _. reflexivity.
Qed.

Lemma never_fails_updateSigners p rpts seed :
  never_fails (updateSigners p rpts seed).
Proof.
  unfold updateSigners.
  do 4 (apply never_fails_bind; intros _ ? _ _).
  apply never_fails_then.
  apply never_fails_bind; intros _ ? _ _.
  apply never_fails_then, never_fails_ret.
Qed.

Context {keccak : types.Keccak}.

Lemma never_fails_applyHeader p (header : types.Header) :
  never_fails (applyHeader p header).
Proof.
  unfold applyHeader.
  do 2 apply never_fails_then.
  apply never_fails_bind. intros h0 err h1 Herr.
  rewrite (never_fails_updateCandidates _ _ _ _ _ Herr).
  apply never_fails_bind. intros h2 r h3 Hr.
  rewrite (updateRpts_error _ _ _ _ _ Hr).
  do 3 (apply never_fails_bind; intros _ ? _ _).
  destruct a1; [| apply never_fails_ret].
  apply never_fails_bind. intros h4 err' h5 Herr'.
  rewrite (never_fails_updateSigners _ _ _ _ _ _ Herr').
  apply never_fails_ret.
Qed.

End Oracles.

(** C10.  [updateCandidates] never returns an error and sets the roster to
    the same ten hard-coded addresses whatever the header is;
    [updateRpts] never returns an error and returns one entry per
    candidate, the score of the candidate at position [i] being [i]; so
    right after [updateCandidates] the reputations are one fixed list.
    And [applyHeader], from any heap and with any election, never returns
    an error. *)
Theorem placeholder_oracles
    (keccak : types.Keccak) (env : Dpor.Environment)
    (h : Dpor.heap) (p : nat) (st : Dpor.DporSnapshot) (header : types.Header) :
  Go.structs h !! p = Some st ->
  length Dpor.default_candidates = 10%nat /\
  Dpor.updateCandidates p header h = (Go.Ret None, roster_heap p st h) /\
  (exists st', Go.structs (roster_heap p st h) !! p = Some st' /\
     Go.slice_elems (roster_heap p st h) (Dpor.Candidates st')
     = Dpor.default_candidates) /\
  (exists rpts, Dpor.updateRpts p header h = (Go.Ret (rpts, None), h) /\
     length rpts = length (Go.slice_elems h (Dpor.Candidates st)) /\
     forall (i : nat) (c : Z),
       Go.slice_elems h (Dpor.Candidates st) !! i = Some c ->
       rpts !! i = Some {| Dpor.Address := c; Dpor.Rpt_ := Z.of_nat i |}) /\
  (forall header',
     Dpor.updateRpts p header' (roster_heap p st h)
     = (Go.Ret (Dpor.index_rpts Dpor.default_candidates, None),
        roster_heap p st h)) /\
  (forall h0 r h', Dpor.applyHeader p header h0 = (Go.Ret r, h') -> r = None).
Proof.
  intros Hp.
  assert (Hp' : Go.structs (roster_heap p st h) !! p
                = Some (with_Candidates (roster_slice h) st))
    by (apply roster_heap_struct; eauto).
  split; [reflexivity |].
  split; [apply run_updateCandidates; exact Hp |].
  split.
  { eexists. split; [exact Hp' |]. apply roster_heap_elems. }
  split.
  { eexists. split; [apply run_updateRpts; exact Hp |].
    split; [apply index_rpts_length |].
    intros i c. apply index_rpts_lookup. }
  split.
  { intros header'. rewrite (run_updateRpts _ _ _ _ Hp').
    cbn [Dpor.Candidates with_Candidates].
    rewrite roster_heap_elems. reflexivity. }
  apply never_fails_applyHeader.
Qed.

Lemma placeholder_oracles_witness :
  Go.structs Sample.genesis_heap !! 0%nat = Some Sample.genesis /\
  Dpor.updateCandidates 0 (Sample.header 1) Sample.genesis_heap
  = Dpor.updateCandidates 0 (Sample.header 2) Sample.genesis_heap /\
  fst (Dpor.updateCandidates 0 (Sample.header 1) Sample.genesis_heap) = Go.Ret None.
Proof.
  assert (Hs : Go.structs Sample.genesis_heap !! 0%nat = Some Sample.genesis)
    by (vm_compute; reflexivity).
  split; [exact Hs |].
  destruct (placeholder_oracles Sample.keccak Sample.env
              Sample.genesis_heap 0 Sample.genesis
              (Sample.header 1) Hs) as (_ & H1 & _).
  destruct (placeholder_oracles Sample.keccak Sample.env
              Sample.genesis_heap 0 Sample.genesis
              (Sample.header 2) Hs) as (_ & H2 & _).
  split.
  - rewrite H1, H2. reflexivity.
  - rewrite H1. reflexivity.
Defined.

(* ===================================================================== *)
(** * Applying headers to an owned snapshot *)
(* ===================================================================== *)

Section Configuration.
Import Go Dpor.
Context {env : Environment}.

End Configuration.

Section OwnedSteps.
Import Go Dpor.
Context {keccak : types.Keccak} {env : Environment}.
Variables (h0 : heap) (cfg : DporConfig) (p l1 l2 l3 : nat).
Implicit Types (h : heap) (st : DporSnapshot).

Local Abbreviation owned := (owned h0 cfg p l1 l2 l3).
Local Abbreviation shape := (shape h0 cfg l1 l2 l3).
Local Abbreviation crashed := (crashed h0 cfg).

Lemma owned_struct_at h st :
  owned h -> structs h !! p = Some st -> shape st.
Proof.
  intros Ho Hp. destruct (own_struct _ _ _ _ _ _ _ Ho) as (st' & Hp' & Hsh).
  rewrite Hp in Hp'. injection Hp' as <-. exact Hsh.
Qed.

Lemma owned_put h st :
  owned h -> shape st -> owned (put_struct p st h).
Proof. intros Ho Hsh. apply owned_set_struct; assumption. Qed.

Lemma owned_l1 h : owned h -> (length (maps h0) <= l1 < length (maps h))%nat.
Proof. intros Ho. apply (own_maps _ _ _ _ _ _ _ Ho), in_three. auto. Qed.

Lemma owned_arrays h : owned h -> (length (arrays h0) <= length (arrays h))%nat.
Proof.
  intros Ho. destruct (own_ext _ _ _ _ _ _ _ Ho) as (_ & _ & Ha).
  apply prefix_length. exact Ha.
Qed.

Lemma owned_installed h size term len x :
  owned h -> owned (installed l1 size term len x h).
Proof.
  intros Ho. unfold installed.
  apply (owned_set_signers h0 cfg p l1 l2 l3
           (Heap (structs h) (maps h) (arrays h ++ [x]))).
  - apply owned_new_array. exact Ho.
  - apply map_Forall_delete. apply map_Forall_insert_2.
    + unfold fresh_slice. simpl. apply owned_arrays. exact Ho.
    + apply (own_signers _ _ _ _ _ _ _ Ho).
Qed.

Lemma shape_with_Number n st : shape st -> shape (with_Number n st).
Proof. intros Hsh. exact Hsh. Qed.

Lemma shape_with_Hash x st : shape st -> shape (with_Hash x st).
Proof. intros Hsh. exact Hsh. Qed.

Lemma shape_with_ContractCaller c st :
  shape st -> shape (with_ContractCaller c st).
Proof. intros Hsh. exact Hsh. Qed.

Lemma shape_with_Candidates (c : slice) st :
  shape st -> fresh_slice h0 c -> shape (with_Candidates c st).
Proof.
  intros (H1 & H2 & H3 & H4 & _) Hc. repeat split; assumption.
Qed.

End OwnedSteps.

Section TermSteps.
Import Go Dpor.
Implicit Types (h : heap) (st : DporSnapshot).

Lemma wp_TermOf p n Q X h st :
  structs h !! p = Some st ->
  Q (term_of (config st) n) h ->
  (U64.mul (TermLen (config st)) (ViewLen (config st)) = 0 -> X h) ->
  wp (TermOf p n) Q X h.
Proof.
  intros Hp HQ HX.
  destruct (Z.eq_dec (U64.mul (TermLen (config st)) (ViewLen (config st))) 0)
    as [Hz | Hnz].
  - unfold TermOf. unfold term_of in HQ.
    destruct (Z.eqb_spec n 0); [apply wp_ret; exact HQ |].
    apply wp_bind. eapply wp_run; [apply (run_load _ _ _ Hp) |].
    apply wp_udiv; [intros Hne; contradiction | auto].
  - eapply wp_run; [apply (run_TermOf _ _ _ _ Hp); auto | exact HQ].
Qed.

Lemma wp_Term p Q X h st :
  structs h !! p = Some st ->
  Q (term_of (config st) (Number st)) h ->
  (U64.mul (TermLen (config st)) (ViewLen (config st)) = 0 -> X h) ->
  wp (Term p) Q X h.
Proof.
  intros Hp HQ HX.
  destruct (Z.eq_dec (U64.mul (TermLen (config st)) (ViewLen (config st))) 0)
    as [Hz | Hnz].
  - unfold Term. unfold term_of in HQ.
    apply wp_bind. eapply wp_run; [apply (run_number _ _ _ Hp) |].
    destruct (Z.eqb_spec (Number st) 0); [apply wp_ret; exact HQ |].
    apply wp_bind. eapply wp_run; [apply (run_number _ _ _ Hp) |].
    apply wp_bind. eapply wp_run; [apply (run_load _ _ _ Hp) |].
    apply wp_udiv; [intros Hne; contradiction | auto].
  - eapply wp_run; [apply (run_Term _ _ _ Hp); auto | exact HQ].
Qed.

Lemma wp_FutureTermOf p n Q X h st :
  structs h !! p = Some st ->
  Q (U64.add (term_of (config st) n) TermGapBetweenElectionAndMining) h ->
  (U64.mul (TermLen (config st)) (ViewLen (config st)) = 0 -> X h) ->
  wp (FutureTermOf p n) Q X h.
Proof.
  intros Hp HQ HX. unfold FutureTermOf.
  apply wp_bind. eapply wp_TermOf; [exact Hp | | exact HX].
  apply wp_ret. exact HQ.
Qed.

Lemma run_ifUseDefaultSigners p h st :
  structs h !! p = Some st ->
  ifUseDefaultSigners p h
  = (Ret (Number st <? MaxInitBlockNumber (config st)), h).
Proof.
  intros Hp. unfold ifUseDefaultSigners.
  rewrite (run_bind _ _ _ _ _ (run_number _ _ _ Hp)).
  rewrite (run_bind _ _ _ _ _ (run_load _ _ _ Hp)). reflexivity.
Qed.

Lemma run_ifStartElection p h st :
  structs h !! p = Some st ->
  ifStartElection p h = (Ret (start_election (config st) (Number st)), h).
Proof.
  intros Hp. unfold ifStartElection.
  rewrite (run_bind _ _ _ _ _ (run_number _ _ _ Hp)).
  rewrite (run_bind _ _ _ _ _ (run_load _ _ _ Hp)). reflexivity.
Qed.

End TermSteps.

Section HeaderSteps.
Import Go Dpor.
Context {keccak : types.Keccak} {env : Environment}.
Variables (h0 : heap) (cfg : DporConfig) (p l1 l2 l3 : nat).
Implicit Types (h : heap) (st : DporSnapshot).

Local Abbreviation owned := (owned h0 cfg p l1 l2 l3).
Local Abbreviation shape := (shape h0 cfg l1 l2 l3).
Local Abbreviation crashed := (crashed h0 cfg).
Local Abbreviation elected := (elected cfg l1).
Local Abbreviation applied := (applied h0 cfg p l1 l2 l3).

Lemma owned_crashed h : owned h -> ~ well_configured cfg -> crashed h.
Proof. intros Ho Hn. split; [apply (own_ext _ _ _ _ _ _ _ Ho) | exact Hn]. Qed.

Lemma updateSigners_spec (rpts : list Rpt) (seed : Z) h st :
  owned h -> structs h !! p = Some st ->
  s_cap (Candidates st) = 10%nat ->
  wp (updateSigners p rpts seed)
     (fun r h' =>
        r = None /\ owned h' /\ structs h' !! p = Some st /\
        (start_election cfg (Number st) = true ->
         beforeTerm (future_term cfg (Number st)) MaxSizeOfRecentSigners
         <> future_term cfg (Number st) ->
         elected rpts seed (Number st) h'))
     crashed h.
Proof.
  intros Ho Hp Hcap.
  pose proof (owned_struct_at _ _ _ _ _ _ _ _ Ho Hp) as Hsh.
  destruct Hsh as (Hr1 & _ & _ & Hcfg & _).
  unfold updateSigners.
  apply wp_bind. eapply wp_run; [apply (run_candidates _ _ _ Hp) |].
  apply wp_bind. eapply wp_run; [apply (run_load _ _ _ Hp) |].
  rewrite Hcfg.
  apply wp_bind. apply wp_reslice.
  2:{ intros Hbig. apply (owned_crashed _ Ho).
      intros (Hlen & _). rewrite Hcap in Hbig. lia. }
  intros _.
  apply wp_bind. eapply wp_run; [apply (run_ifUseDefaultSigners _ _ _ Hp) |].
  (* the default committee *)
  apply wp_bind.
  apply wp_mono with
    (Q' := fun _ h1 => owned h1 /\ structs h1 !! p = Some st) (X' := crashed).
  { destruct (Number st <? MaxInitBlockNumber (config st)).
    - apply wp_bind. eapply wp_Term; [exact Hp | |].
      + eapply wp_setRecentSigners; [exact Hp | exact Hr1 | |].
        * apply (owned_l1 _ _ _ _ _ _ _ Ho).
        * intros x _. split; [apply owned_installed; exact Ho | exact Hp].
      + rewrite Hcfg. intros Hz. apply (owned_crashed _ Ho).
        intros (_ & Hnz & _). contradiction.
    - apply wp_ret. split; assumption. }
  2:{ auto. }
  clear h Ho Hp. intros _ h [Ho Hp].
  apply wp_bind. eapply wp_run; [apply (run_ifStartElection _ _ _ Hp) |].
  rewrite Hcfg.
  apply wp_bind.
  apply wp_mono with
    (Q' := fun _ h1 =>
             owned h1 /\ structs h1 !! p = Some st /\
             (start_election cfg (Number st) = true ->
              beforeTerm (future_term cfg (Number st)) MaxSizeOfRecentSigners
              <> future_term cfg (Number st) ->
              elected rpts seed (Number st) h1))
    (X' := crashed).
  { destruct (start_election cfg (Number st)).
    - apply wp_bind. eapply wp_run; [apply (run_load _ _ _ Hp) |].
      rewrite Hcfg.
      apply wp_bind. apply wp_lift.
      destruct (Elect rpts seed (U64.to_int (TermLen cfg))) as [c | w] eqn:Hel.
      2:{ apply (owned_crashed _ Ho). intros (_ & _ & Htot & _).
          destruct (Htot rpts seed) as [c Hc]. congruence. }
      apply wp_bind, wp_slice_lit.
      set (h2 := Heap (structs h) (maps h) (arrays h ++ [c])).
      assert (Ho2 : owned h2) by (apply owned_new_array; exact Ho).
      assert (Hp2 : structs h2 !! p = Some st) by exact Hp.
      apply wp_bind. eapply wp_run; [apply (run_number _ _ _ Hp2) |].
      apply wp_bind. eapply wp_FutureTermOf; [exact Hp2 | |].
      2:{ rewrite Hcfg. intros Hz. apply (owned_crashed _ Ho2).
          intros (_ & Hnz & _). contradiction. }
      rewrite Hcfg. fold (future_term cfg (Number st)).
      apply wp_bind.
      eapply wp_setRecentSigners; [exact Hp2 | exact Hr1 | |].
      { apply (owned_l1 _ _ _ _ _ _ _ Ho2). }
      intros x Hx.
      set (sl0 := Slice (Some (length (arrays h))) (length c) (length c)) in *.
      assert (Hxc : x = c).
      { rewrite Hx.
        - unfold slice_elems, sl0, h2. cbn [s_array s_len arrays].
          rewrite list_lookup_middle by reflexivity. cbn. apply firstn_all.
        - unfold allocated, sl0, h2. cbn. rewrite length_app. cbn. lia. }
      subst x.
      set (h3 := installed l1 MaxSizeOfRecentSigners (future_term cfg (Number st))
                   (s_len sl0) c h2).
      assert (Ho3 : owned h3) by (apply owned_installed; exact Ho2).
      assert (Hp3 : structs h3 !! p = Some st) by exact Hp2.
      apply wp_bind.
      eapply wp_run; [apply (run_getRecentSigners _ _ _ Hp3) |].
      apply wp_ret.
      split; [exact Ho3 |]. split; [exact Hp3 |].
      intros _ Hbt.
      exists c, (Slice (Some (length (arrays h2))) (s_len sl0) (s_len sl0)).
      split; [exact Hel |]. split.
      + unfold h3. apply installed_lookup; [| exact Hbt].
        apply (owned_l1 _ _ _ _ _ _ _ Ho2).
      + unfold h3. rewrite installed_elems_new. unfold sl0. cbn [s_len].
        apply firstn_all.
    - apply wp_ret. split; [exact Ho |]. split; [exact Hp |].
      intros Hfalse. discriminate. }
  2:{ auto. }
  intros _ h' (Ho' & Hp' & Hel). apply wp_ret. auto.
Qed.

Lemma owned_roster_heap h st :
  owned h -> structs h !! p = Some st -> owned (roster_heap p st h).
Proof.
  intros Ho Hp. unfold roster_heap.
  pose proof (owned_struct_at _ _ _ _ _ _ _ _ Ho Hp) as Hsh.
  apply owned_put.
  - change (arrays h ++ [default_candidates; default_candidates])
      with (arrays h ++ [default_candidates] ++ [default_candidates]).
    rewrite app_assoc.
    apply (owned_new_array h0 cfg p l1 l2 l3
             (Heap (structs h) (maps h) (arrays h ++ [default_candidates]))).
    apply owned_new_array. exact Ho.
  - apply shape_with_Candidates; [exact Hsh |].
    unfold fresh_slice, roster_slice. simpl.
    pose proof (owned_arrays _ _ _ _ _ _ _ Ho). lia.
Qed.

Lemma applyHeader_spec (hd : types.Header) h :
  owned h ->
  wp (applyHeader p hd) (fun r h' => r = None /\ applied hd h') crashed h.
Proof.
  intros Ho.
  destruct (own_struct _ _ _ _ _ _ _ Ho) as (st & Hp & Hsh).
  unfold applyHeader.
  set (n := U64.of_big (types.Number hd)).
  (* number and hash *)
  apply wp_bind. eapply wp_run; [apply (run_setNumber _ _ _ _ Hp) |].
  set (st1 := with_Number n st). set (h1 := put_struct p st1 h).
  assert (Ho1 : owned h1) by (apply owned_put; [exact Ho | exact Hsh]).
  assert (Hp1 : structs h1 !! p = Some st1) by (apply put_struct_lookup; eauto).
  apply wp_bind. eapply wp_run; [apply (run_setHash _ _ _ _ Hp1) |].
  set (st2 := with_Hash (types.Hash hd) st1). set (h2 := put_struct p st2 h1).
  assert (Ho2 : owned h2) by (apply owned_put; [exact Ho1 | exact Hsh]).
  assert (Hp2 : structs h2 !! p = Some st2) by (apply put_struct_lookup; eauto).
  (* the roster and the reputations *)
  apply wp_bind. eapply wp_run; [apply (run_updateCandidates _ _ _ _ Hp2) |].
  set (st3 := with_Candidates (roster_slice h2) st2).
  set (h3 := roster_heap p st2 h2).
  assert (Ho3 : owned h3) by (apply owned_roster_heap; assumption).
  assert (Hp3 : structs h3 !! p = Some st3)
    by (apply roster_heap_struct; eauto).
  apply wp_bind. eapply wp_run; [apply (run_updateRpts _ _ _ _ Hp3) |].
  cbn [snd fst].
  replace (slice_elems h3 (Candidates st3)) with default_candidates
    by (symmetry; apply roster_heap_elems).
  apply wp_bind. eapply wp_run; [apply (run_number _ _ _ Hp3) |].
  apply wp_bind. eapply wp_run; [apply (run_load _ _ _ Hp3) |].
  assert (Hcfg : config st3 = cfg) by (destruct Hsh as (_ & _ & _ & Hc & _); exact Hc).
  rewrite Hcfg. change (Number st3) with n.
  assert (Happlied : forall h',
            owned h' -> structs h' !! p = Some st3 ->
            (IsCheckPoint n (TermLen cfg) (ViewLen cfg) = Ret true ->
             start_election cfg n = true ->
             beforeTerm (future_term cfg n) MaxSizeOfRecentSigners
             <> future_term cfg n ->
             elected (index_rpts default_candidates) (seed_of hd) n h') ->
            applied hd h').
  { intros h' Ho' Hp' Hel. split; [exact Ho' |]. split; [| exact Hel].
    exists st3. split; [exact Hp' |]. split; reflexivity. }
  apply wp_bind. apply wp_lift.
  destruct (IsCheckPoint n (TermLen cfg) (ViewLen cfg)) as [b | w] eqn:Hcp.
  2:{ apply (owned_crashed _ Ho3). intros (_ & _ & _ & Htot).
      destruct (Htot n) as [b Hb]. congruence. }
  destruct b.
  - apply wp_bind.
    eapply wp_mono.
    + apply (updateSigners_spec (index_rpts default_candidates) (seed_of hd)
               h3 st3 Ho3 Hp3). reflexivity.
    + intros r h' (-> & Ho' & Hp' & Hel). apply wp_ret.
      split; [reflexivity |]. apply Happlied; auto.
    + auto.
  - apply wp_ret. split; [reflexivity |]. apply Happlied; auto.
    intros Hfalse. discriminate.
Qed.

(** The loop over the headers: every header is applied, none fails, and
    the last one leaves its trace. *)
Lemma applyHeaders_loop_spec (headers : list types.Header) (hd : types.Header) h :
  owned h ->
  wp (applyHeaders_loop p (headers ++ [hd]))
     (fun r h' => r = None /\ applied hd h') crashed h.
Proof.
  revert h. induction headers as [| x headers IH]; intros h Ho; simpl.
  - apply wp_bind. eapply wp_mono.
    + apply applyHeader_spec. exact Ho.
    + intros r h' (-> & Ha). apply wp_ret. auto.
    + auto.
  - apply wp_bind. eapply wp_mono.
    + apply (applyHeader_spec x). exact Ho.
    + intros r h' (-> & (Ho' & _)). apply IH. exact Ho'.
    + auto.
Qed.

End HeaderSteps.

Section CopySteps.
Import Go Dpor.
Context {keccak : types.Keccak} {env : Environment}.
Variables (h0 : heap) (cfg : DporConfig).
Implicit Types (h : heap) (st : DporSnapshot).

(** A fresh map with the entries of another one ([recentSigners] and its
    two siblings) is no map of the owned snapshot. *)
Lemma copy_map_spec (p l1 l2 l3 : nat) (r : mapref) h st X :
  owned h0 cfg p l1 l2 l3 h -> structs h !! p = Some st ->
  wp (copy_map r)
     (fun _ h' => owned h0 cfg p l1 l2 l3 h' /\ structs h' !! p = Some st)
     X h.
Proof.
  intros Ho Hp. unfold copy_map.
  apply wp_bind, wp_make_map.
  set (lt := length (maps h)).
  set (h1 := Heap (structs h) (maps h ++ [∅]) (arrays h)).
  assert (Ho1 : owned h0 cfg p l1 l2 l3 h1) by (apply owned_new_map; exact Ho).
  assert (Hlt : (lt ∉ [l1; l2; l3]) /\ (length (maps h0) <= lt)%nat).
  { split.
    - intros Hin. apply (own_maps _ _ _ _ _ _ _ Ho) in Hin. unfold lt in Hin. lia.
    - pose proof (owned_l1 _ _ _ _ _ _ _ Ho). unfold lt. lia. }
  destruct Hlt as [Hnot Hge].
  apply wp_bind, wp_map_range.
  apply wp_bind.
  apply wp_mono with
    (Q' := fun _ h' => owned h0 cfg p l1 l2 l3 h' /\ structs h' !! p = Some st)
    (X' := X).
  - apply (wp_for_each _ _
             (fun h' => owned h0 cfg p l1 l2 l3 h' /\ structs h' !! p = Some st)).
    + intros e h' _ [Ho' Hp']. apply wp_map_set.
      split; [| exact Hp'].
      apply owned_set_other_map; assumption.
    + split; [exact Ho1 | exact Hp].
  - intros u h' Hinv. apply wp_ret. exact Hinv.
  - auto.
Qed.

(** Installing all entries of a map into the signers of the owned
    snapshot: one of the three loops of [copy]. *)
Lemma install_all_spec (p l1 l2 l3 : nat) (es : list (Z * slice)) h st X :
  owned h0 cfg p l1 l2 l3 h -> structs h !! p = Some st ->
  wp (for_each es (fun e => setRecentSigners p (fst e) (snd e)))
     (fun _ h' => owned h0 cfg p l1 l2 l3 h' /\ structs h' !! p = Some st)
     X h.
Proof.
  intros Ho Hp.
  apply (wp_for_each _ _
           (fun h' => owned h0 cfg p l1 l2 l3 h' /\ structs h' !! p = Some st)).
  - intros e h' _ [Ho' Hp'].
    pose proof (owned_struct_at _ _ _ _ _ _ _ _ Ho' Hp') as (Hr1 & _).
    eapply wp_setRecentSigners; [exact Hp' | exact Hr1 | |].
    + apply (owned_l1 _ _ _ _ _ _ _ Ho').
    + intros x _. split; [apply owned_installed; exact Ho' | exact Hp'].
  - split; assumption.
Qed.

(** [copy], started in [h0]: the copy is owned, and it has the number and
    the hash of the original.  The only panic is a nil original. *)
Lemma copy_spec (s : nat) :
  (forall st, structs h0 !! s = Some st -> config st = cfg) ->
  wp (Dpor.copy s)
     (fun cpy h' =>
        exists l1 l2 l3 st0 st,
          owned h0 cfg cpy l1 l2 l3 h' /\
          structs h0 !! s = Some st0 /\ structs h' !! cpy = Some st /\
          Number st = Number st0 /\ Hash st = Hash st0)
     (fun h' => extends h0 h' /\ structs h0 !! s = None) h0.
Proof.
  intros Hcfg. unfold Dpor.copy.
  set (X := fun h' : heap => extends h0 h' /\ structs h0 !! s = None).
  apply wp_bind, wp_load.
  2:{ intros Hnone. split; [apply extends_refl | exact Hnone]. }
  intros st0 Hs. specialize (Hcfg st0 Hs).
  apply wp_bind. eapply wp_run; [apply (run_number _ _ _ Hs) |].
  apply wp_bind. eapply wp_run; [apply (run_hash _ _ _ Hs) |].
  apply wp_bind, wp_make_slice.
  apply wp_bind, wp_make_map. apply wp_bind, wp_make_map.
  apply wp_bind, wp_make_map. apply wp_bind, wp_new.
  cbn [structs maps arrays].
  rewrite !length_app. cbn [length].
  set (l1 := length (maps h0)).
  set (l3 := (l1 + 1)%nat). set (l2 := (l3 + 1)%nat).
  set (cpy := length (structs h0)).
  set (cands := Slice (Some (length (arrays h0))) (s_len (Candidates st0))
                      (s_len (Candidates st0))).
  set (st := {| Number := Number st0; Hash := Hash st0; Candidates := cands;
                RecentSigners := Some l1; RecentProposers := Some l2;
                RecentValidators := Some l3; config := config st0;
                ContractCaller := None |}).
  set (h1 := Heap (structs h0 ++ [st]) (((maps h0 ++ [∅]) ++ [∅]) ++ [∅])
                  (arrays h0 ++ [replicate (s_len (Candidates st0)) 0])).
  assert (Hp1 : structs h1 !! cpy = Some st).
  { unfold h1, cpy. simpl. apply list_lookup_middle. reflexivity. }
  assert (Hmaps : maps h1 = maps h0 ++ [∅; ∅; ∅]).
  { unfold h1. simpl. rewrite <- !app_assoc. reflexivity. }
  assert (Hempty : forall i, (i < 3)%nat ->
                     map_contents h1 (Some (l1 + i)%nat) = ∅).
  { intros i Hi. unfold map_contents. rewrite Hmaps.
    rewrite lookup_app_r by (unfold l1; lia).
    replace (l1 + i - length (maps h0))%nat with i by (unfold l1; lia).
    destruct i as [| [| [| i]]]; [reflexivity | reflexivity | reflexivity | lia]. }
  assert (Ho1 : owned h0 cfg cpy l1 l2 l3 h1).
  { split.
    - unfold h1. repeat split; simpl.
      + apply prefix_app_r. reflexivity.
      + rewrite <- !app_assoc. apply prefix_app_r. reflexivity.
      + apply prefix_app_r. reflexivity.
    - unfold cpy. lia.
    - unfold l2, l3. lia.
    - intros l Hl. apply in_three in Hl. rewrite Hmaps, length_app. simpl.
      unfold l2, l3, l1 in *. lia.
    - exists st. split; [exact Hp1 |].
      unfold shape, fresh_slice. simpl. repeat split; auto.
    - replace l1 with (l1 + 0)%nat by lia. rewrite Hempty by lia.
      apply map_Forall_empty.
    - replace l2 with (l1 + 2)%nat by (unfold l2, l3; lia). apply Hempty. lia.
    - replace l3 with (l1 + 1)%nat by (unfold l3; lia). apply Hempty. lia. }
  assert (Hparent : forall h, owned h0 cfg cpy l1 l2 l3 h ->
                      structs h !! s = Some st0).
  { intros h Ho. apply (extends_structs h0 h s st0); [| exact Hs].
    apply (own_ext _ _ _ _ _ _ _ Ho). }
  (* the candidates *)
  apply wp_bind. eapply wp_run; [apply (run_candidates _ _ _ (Hparent _ Ho1)) |].
  apply wp_bind. eapply wp_copy; [reflexivity |]. intros y.
  set (h2 := Heap (structs h1) (maps h1) (<[length (arrays h0) := y]> (arrays h1))).
  assert (Ho2 : owned h0 cfg cpy l1 l2 l3 h2)
    by (apply owned_set_array; [exact Ho1 | lia]).
  assert (Hp2 : structs h2 !! cpy = Some st) by exact Hp1.
  clearbody h2. clear Ho1 Hp1 Hmaps Hempty h1.
  (* the three mappings, all into the signers of the copy *)
  apply wp_bind. unfold recentSigners.
  apply wp_bind. eapply wp_run; [apply (run_load _ _ _ (Hparent _ Ho2)) |].
  eapply wp_mono; [apply (copy_map_spec cpy l1 l2 l3 _ h2 st X); assumption | | auto].
  intros m1 h3 [Ho3 Hp3].
  apply wp_bind, wp_map_range. apply wp_bind.
  eapply wp_mono; [apply (install_all_spec cpy l1 l2 l3 _ h3 st X); assumption | | auto].
  intros u1 h4 [Ho4 Hp4].
  apply wp_bind. unfold recentProposers.
  apply wp_bind. eapply wp_run; [apply (run_load _ _ _ (Hparent _ Ho4)) |].
  eapply wp_mono; [apply (copy_map_spec cpy l1 l2 l3 _ h4 st X); assumption | | auto].
  intros m2 h5 [Ho5 Hp5].
  apply wp_bind, wp_map_range. apply wp_bind.
  eapply wp_mono; [apply (install_all_spec cpy l1 l2 l3 _ h5 st X); assumption | | auto].
  intros u2 h6 [Ho6 Hp6].
  apply wp_bind. unfold recentValidators.
  apply wp_bind. eapply wp_run; [apply (run_load _ _ _ (Hparent _ Ho6)) |].
  eapply wp_mono; [apply (copy_map_spec cpy l1 l2 l3 _ h6 st X); assumption | | auto].
  intros m3 h7 [Ho7 Hp7].
  apply wp_bind, wp_map_range. apply wp_bind.
  eapply wp_mono; [apply (install_all_spec cpy l1 l2 l3 _ h7 st X); assumption | | auto].
  intros u3 h8 [Ho8 Hp8].
  apply wp_ret.
  exists l1, l2, l3, st0, st.
  split; [exact Ho8 |]. split; [exact Hs |]. split; [exact Hp8 |].
  split; reflexivity.
Qed.

End CopySteps.

Section ApplySteps.
Import Go Dpor.
Context {keccak : types.Keccak} {env : Environment}.
Variables (h0 : heap) (cfg : DporConfig).
Implicit Types (h : heap) (st : DporSnapshot).

Lemma applied_put (p l1 l2 l3 : nat) (hd : types.Header) h st :
  applied h0 cfg p l1 l2 l3 hd h ->
  shape h0 cfg l1 l2 l3 st ->
  Number st = U64.of_big (types.Number hd) ->
  Hash st = types.Hash hd ->
  applied h0 cfg p l1 l2 l3 hd (put_struct p st h).
Proof.
  intros (Ho & (st' & Hp' & _) & Hel) Hsh Hn Hh.
  split; [apply owned_put; assumption |].
  split.
  - exists st. split; [apply put_struct_lookup; eauto | auto].
  - exact Hel.
Qed.

Local Abbreviation apply_result := (apply_result h0 cfg).
Local Abbreviation apply_panicked := (apply_panicked h0 cfg).

Lemma loop_over_last (p l1 l2 l3 : nat) (first : types.Header)
    (rest : list types.Header) h :
  owned h0 cfg p l1 l2 l3 h ->
  wp (applyHeaders_loop p (first :: rest))
     (fun r h' => r = None /\
                  applied h0 cfg p l1 l2 l3 (List.last (first :: rest) first) h')
     (crashed h0 cfg) h.
Proof.
  intros Ho.
  destruct (exists_last (l := first :: rest)) as (hs & hd & Heq); [discriminate |].
  rewrite Heq. rewrite last_last.
  apply applyHeaders_loop_spec. exact Ho.
Qed.

Lemma apply_spec (s : nat) (headers : list types.Header) (cc : option nat) :
  (forall st, structs h0 !! s = Some st -> config st = cfg) ->
  wp (apply s headers cc) (apply_result s headers) (apply_panicked s) h0.
Proof.
  intros Hcfg. unfold apply.
  destruct headers as [| first rest].
  { apply wp_ret. left. auto. }
  destruct (contiguous (first :: rest)) eqn:Hcont; cbn [negb].
  2:{ apply wp_ret. right. right. left.
      split; [discriminate |]. auto. }
  apply wp_bind, wp_load.
  2:{ intros Hnone. split; [apply extends_refl | left; exact Hnone]. }
  intros st0 Hs.
  destruct (U64.of_big (types.Number first) =? U64.add (Number st0) 1) eqn:Hfirst;
    cbn [negb].
  2:{ apply wp_ret. right. left. exists st0, first, rest.
      split; [exact Hs |]. split; [reflexivity |].
      split; [right; unfold fits; rewrite Hcont, Hfirst; reflexivity |]. auto. }
  assert (Hfits : fits st0 first rest = true)
    by (unfold fits; rewrite Hcont, Hfirst; reflexivity).
  apply wp_bind.
  eapply wp_mono; [apply (copy_spec h0 cfg s Hcfg) | |].
  2:{ intros h' (Hext & Hnone). split; [exact Hext | left; exact Hnone]. }
  intros cpy h1 (l1 & l2 & l3 & st0' & st1 & Ho1 & Hs' & Hp1 & _).
  pose proof (owned_struct_at _ _ _ _ _ _ _ _ Ho1 Hp1) as Hsh1.
  apply wp_bind.
  eapply wp_run; [apply (run_setContractCaller _ _ _ _ Hp1) |].
  set (h2 := put_struct cpy (with_ContractCaller cc st1) h1).
  assert (Ho2 : owned h0 cfg cpy l1 l2 l3 h2)
    by (apply owned_put; [exact Ho1 | exact Hsh1]).
  apply wp_bind.
  eapply wp_mono; [apply (loop_over_last cpy l1 l2 l3 first rest h2 Ho2) | |].
  2:{ intros h' (Hext & Hbad). split; [exact Hext | right; exact Hbad]. }
  intros r h3 (-> & Happ).
  set (hd := List.last (first :: rest) first) in *.
  destruct Happ as (Ho3 & (st3 & Hp3 & Hn3 & Hh3) & Hel3).
  pose proof (owned_struct_at _ _ _ _ _ _ _ _ Ho3 Hp3) as Hsh3.
  assert (Happ3 : applied h0 cfg cpy l1 l2 l3 hd h3).
  { split; [exact Ho3 |]. split; [| exact Hel3]. exists st3. auto. }
  apply wp_bind.
  eapply wp_run; [apply (run_setNumber _ _ _ _ Hp3) |].
  set (st4 := with_Number (U64.of_big (types.Number hd)) st3).
  set (h4 := put_struct cpy st4 h3).
  assert (Happ4 : applied h0 cfg cpy l1 l2 l3 hd h4)
    by (apply applied_put; [exact Happ3 | exact Hsh3 | reflexivity | exact Hh3]).
  assert (Hp4 : structs h4 !! cpy = Some st4) by (apply put_struct_lookup; eauto).
  apply wp_bind.
  eapply wp_run; [apply (run_setHash _ _ _ _ Hp4) |].
  apply wp_ret. right. right. right.
  exists st0, first, rest, cpy, l1, l2, l3.
  split; [exact Hs |]. split; [reflexivity |]. split; [exact Hfits |].
  split; [reflexivity |].
  apply applied_put; [exact Happ4 | exact Hsh3 | reflexivity | reflexivity].
Qed.

End ApplySteps.

(* ===================================================================== *)
(** * Rejected batches and the heap they leave *)
(* ===================================================================== *)

Section Batches.
Import Go Dpor.
Context {keccak : types.Keccak} {env : Environment}.
Implicit Types (h : heap) (st : DporSnapshot).


Lemma config_at_spec h s st :
  structs h !! s = Some st -> config st = config_at h s.
Proof. intros Hs. unfold config_at. rewrite Hs. reflexivity. Qed.

Lemma apply_outcome h s (headers : list types.Header) (cc : option nat) :
  (exists r h', apply s headers cc h = (Ret r, h') /\
                apply_result h (config_at h s) s headers r h') \/
  (exists w h', apply s headers cc h = (Panic w, h') /\
                apply_panicked h (config_at h s) s h').
Proof.
  apply wp_outcome. apply apply_spec. intros st. apply config_at_spec.
Qed.


End Batches.



(* ===================================================================== *)
(** * The election at a checkpoint *)
(* ===================================================================== *)

Section Checkpoint.
Import Go Dpor.
Context {keccak : types.Keccak} {env : Environment}.
Implicit Types (h : heap) (st : DporSnapshot).


Lemma future_term_small (cfg : DporConfig) (n : Z) :
  0 <= n -> n + 3 < 2 ^ 53 ->
  0 <= future_term cfg n < 2 ^ 53.
Proof.
  intros Hn Hfit. unfold future_term, U64.add, TermGapBetweenElectionAndMining.
  pose proof (term_of_bounds cfg n ltac:(lia)) as Ht.
  rewrite u64_wrap_small by lia. lia.
Qed.

End Checkpoint.


Lemma sample_well_configured : @well_configured Sample.env Sample.cfg.
Proof.
  unfold well_configured. simpl.
  split; [lia |]. split; [vm_compute; discriminate |].
  split; intros; eexists; reflexivity.
Qed.



(* ===================================================================== *)
(** * The copy *)
(* ===================================================================== *)

Section CopyFacts.
Import Go Dpor.
Context {env : Environment}.
Implicit Types (h : heap) (st : DporSnapshot).

(** What [copy] gets right: the copy of a snapshot is a new struct with
    new maps and new arrays, with the number and hash of the original, and
    nothing that existed before is written. *)
Lemma copy_is_deep h s st :
  structs h !! s = Some st ->
  exists cpy h' l1 l2 l3 st',
    Dpor.copy s h = (Ret cpy, h') /\
    owned h (config st) cpy l1 l2 l3 h' /\
    structs h' !! cpy = Some st' /\
    Number st' = Number st /\ Hash st' = Hash st /\
    extends h h'.
Proof.
  intros Hs.
  assert (Hcfg : forall st0, structs h !! s = Some st0 -> config st0 = config st).
  { intros st0 Hs0. rewrite Hs in Hs0. injection Hs0 as <-. reflexivity. }
  destruct (wp_outcome _ _ _ _ (copy_spec h (config st) s Hcfg))
    as [(cpy & h' & Hrun & (l1 & l2 & l3 & st0 & st' & Ho & Hs0 & Hp & Hn & Hh))
       | (w & h' & _ & _ & Hnone)].
  - rewrite Hs in Hs0. injection Hs0 as <-.
    exists cpy, h', l1, l2, l3, st'.
    repeat (split; [assumption |]). apply (own_ext _ _ _ _ _ _ _ Ho).
  - rewrite Hs in Hnone. discriminate.
Qed.

End CopyFacts.

(** C2, evaluated where it fails.  The original holds the signers 1 to 4,
    the proposers 5 to 8 and the validators 9 to 12 at term 0.  In its
    copy the proposers and the validators of block 0 are nil, and the
    signers of block 0 are the validators of the original: the three loops
    of [copy] all install into the signers mapping. *)
Lemma copy_misroutes_committees :
  fst (@Dpor.copy Sample.env 0 Sample.three_committees_heap) = Go.Ret 1%nat /\
  fst (Go.bind (Dpor.SignersOf 0 0) Go.elems Sample.three_committees_heap)
  = Go.Ret [1; 2; 3; 4] /\
  fst (Go.bind (Dpor.ProposersOf 0 0) Go.elems Sample.three_committees_heap)
  = Go.Ret [5; 6; 7; 8] /\
  fst (Go.bind (Dpor.ValidatorsOf 0 0) Go.elems Sample.three_committees_heap)
  = Go.Ret [9; 10; 11; 12] /\
  Dpor.ProposersOf 1 0 Sample.copied_heap
  = (Go.Ret Go.nil_slice, Sample.copied_heap) /\
  Dpor.ValidatorsOf 1 0 Sample.copied_heap
  = (Go.Ret Go.nil_slice, Sample.copied_heap) /\
  fst (Go.bind (Dpor.SignersOf 1 0) Go.elems Sample.copied_heap)
  = Go.Ret [9; 10; 11; 12].
Proof. repeat split; vm_compute; reflexivity. Qed.

(* ===================================================================== *)
(** * The unconfirmed blocks *)
(* ===================================================================== *)

Section RingFacts.
Context {A : Type}.
Implicit Types (l r : list A) (x : A).

Lemma ring_move_prev x l :
  l <> [] ->
  Ring.Move_prev (x :: l) = List.last l x :: x :: List.removelast l.
Proof.
  intros Hne. unfold Ring.Move_prev.
  destruct l as [| y l']; [contradiction |]. reflexivity.
Qed.

(** Dropping the first element of a ring of two or more, as [Shift] does
    it: step back, unlink the next element, step forward. *)
Lemma ring_drop_first x l :
  l <> [] ->
  Ring.Move_next (Ring.Unlink1 (Ring.Move_prev (x :: l))) = l.
Proof.
  intros Hne. rewrite ring_move_prev by exact Hne.
  cbn [Ring.Unlink1 Ring.Move_next].
  symmetry. apply app_removelast_last. exact Hne.
Qed.

(** Linking an item before the element the tracker holds, as [Insert]
    does it: seen from that element the item comes last. *)
Lemma ring_link_last x l y :
  Ring.Move_next (Ring.Move_next (Ring.Link (Ring.Move_prev (x :: l)) [y]))
  = (x :: l) ++ [y].
Proof.
  destruct l as [| z l'].
  - reflexivity.
  - rewrite ring_move_prev by discriminate.
    cbn [Ring.Link Ring.Move_next app].
    rewrite <- (app_removelast_last x (l := z :: l')) by discriminate.
    reflexivity.
Qed.

End RingFacts.

Section TrackerFacts.
Import Miner.
Context {C : Type} {retriever : headerRetriever C} {keccak : types.Keccak}.
Implicit Types (set : unconfirmedBlocks C) (e : nat * unconfirmedBlock).

Lemma ripe_split (d height : Z) (l : list (nat * unconfirmedBlock)) :
  l = ripe_front d height l ++ ripe_rest d height l /\
  Forall (fun e => U64.add (index (snd e)) d <= height) (ripe_front d height l) /\
  (forall e, head (ripe_rest d height l) = Some e ->
             height < U64.add (index (snd e)) d).
Proof.
  induction l as [| e l (IH1 & IH2 & IH3)]; simpl.
  - split; [reflexivity |]. split; [constructor | discriminate].
  - destruct (ripe d height e) eqn:Hr; unfold ripe in Hr.
    + split; [simpl; f_equal; exact IH1 |]. split; [| exact IH3].
      constructor; [| exact IH2].
      destruct (Z.ltb_spec height (U64.add (index (snd e)) d)); [discriminate | lia].
    + split; [reflexivity |]. split; [constructor |].
      intros e' He'. simpl in He'. injection He' as <-.
      destruct (Z.ltb_spec height (U64.add (index (snd e)) d)); [lia | discriminate].
Qed.

Lemma shift_loop_spec (fuel : nat) set (height : Z) (log : list log_record) :
  well_formed set -> (length (blocks set) <= fuel)%nat ->
  Shift_loop fuel set height log
  = Some (set_blocks set (ripe_rest (depth set) height (blocks set)),
          log ++ map (report set) (ripe_front (depth set) height (blocks set))).
Proof.
  revert set log. induction fuel as [| fuel IH]; intros set log Hwf Hlen.
  - destruct set as [ch d bl al]. simpl in *.
    destruct bl; [| simpl in Hlen; lia].
    simpl. rewrite app_nil_r. reflexivity.
  - destruct set as [ch d bl al]. destruct bl as [| [p blk] rest].
    + simpl. rewrite app_nil_r. reflexivity.
    + cbn [Shift_loop blocks depth chain ripe_rest ripe_front].
      unfold ripe. cbn [snd].
      destruct (Z.ltb_spec height (U64.add (index blk) d)) as [Hlt | Hge];
        cbn [negb].
      { simpl. rewrite app_nil_r. reflexivity. }
      destruct Hwf as [Hnd Hall]. cbn [blocks allocated map fst] in Hnd, Hall.
      apply NoDup_cons in Hnd as [Hnotin Hnd].
      apply Forall_cons in Hall as [_ Hall].
      destruct rest as [| [p2 blk2] rest'].
      * (* the ring has this one element *)
        unfold Ring.Next_Value. cbn.
        rewrite bool_decide_eq_true_2 by reflexivity.
        rewrite IH.
        -- cbn. rewrite <- app_assoc. reflexivity.
        -- split; cbn; constructor.
        -- cbn. lia.
      * (* the next element is another allocation *)
        unfold Ring.Next_Value. cbn [Ring.Move_next app head fmap option_fmap option_map fst].
        rewrite bool_decide_eq_false_2.
        2:{ intros Heq. injection Heq as ->. apply Hnotin. left. }
        rewrite ring_drop_first by discriminate.
        rewrite IH.
        -- cbn [set_blocks blocks depth chain allocated].
           rewrite <- app_assoc. reflexivity.
        -- split; assumption.
        -- cbn in *. lia.
Qed.

Lemma well_formed_new (ch : C) (d : Z) : well_formed (newUnconfirmedBlocks ch d).
Proof. split; constructor. Qed.

Lemma ripe_rest_suffix (d height : Z) (l : list (nat * unconfirmedBlock)) :
  ripe_rest d height l `suffix_of` l.
Proof.
  induction l as [| e l IH]; simpl; [reflexivity |].
  destruct (ripe d height e); [| reflexivity].
  apply suffix_cons_r. exact IH.
Qed.

Lemma well_formed_rest set (d height : Z) :
  well_formed set ->
  well_formed (set_blocks set (ripe_rest d height (blocks set))).
Proof.
  intros [Hnd Hall].
  destruct (ripe_rest_suffix d height (blocks set)) as [k Hk].
  split; cbn [blocks set_blocks allocated].
  - rewrite Hk, map_app in Hnd. apply NoDup_app in Hnd as (_ & _ & Hnd). exact Hnd.
  - rewrite Hk in Hall. apply Forall_app in Hall as [_ Hall]. exact Hall.
Qed.

End TrackerFacts.

Section TrackerOperations.
Import Miner.
Context {C : Type} {retriever : headerRetriever C} {keccak : types.Keccak}.
Implicit Types (set : unconfirmedBlocks C).

Lemma run_Shift set (height : Z) :
  well_formed set ->
  Shift set height
  = Some (set_blocks set (ripe_rest (depth set) height (blocks set)),
          map (report set) (ripe_front (depth set) height (blocks set))).
Proof.
  intros Hwf. unfold Shift.
  rewrite shift_loop_spec by (auto; lia). reflexivity.
Qed.

Lemma run_Insert set (i h : Z) :
  well_formed set ->
  Insert set i h
  = Some (inserted set i h,
          map (report set) (ripe_front (depth set) i (blocks set))
          ++ [MinedPotentialBlock i h]).
Proof.
  intros Hwf. unfold Insert. rewrite run_Shift by exact Hwf.
  cbn [blocks set_blocks allocated chain depth]. unfold inserted.
  destruct (ripe_rest (depth set) i (blocks set)) as [| x l] eqn:Hrest.
  - reflexivity.
  - unfold Ring.New1. rewrite ring_link_last. reflexivity.
Qed.

Lemma well_formed_inserted set (i h : Z) :
  well_formed set -> well_formed (inserted set i h).
Proof.
  intros Hwf.
  destruct (well_formed_rest set (depth set) i Hwf) as [Hnd Hall].
  cbn [blocks set_blocks allocated] in Hnd, Hall.
  split; cbn [blocks inserted allocated].
  - rewrite map_app. cbn [map fst]. apply NoDup_app.
    split; [exact Hnd |]. split; [| apply NoDup_singleton].
    intros p Hp Hin. apply list_elem_of_singleton in Hin as ->.
    apply list_elem_of_fmap in Hp as (e & He & Hin).
    rewrite Forall_forall in Hall. apply Hall in Hin. lia.
  - apply Forall_app. split.
    + eapply Forall_impl; [exact Hall |]. intros e He. simpl in *. lia.
    + constructor; [simpl; lia | constructor].
Qed.

End TrackerOperations.

(** C9.  For a tracker of depth [d] (whose ring holds one allocation per
    block, as every tracker built by [Insert] does): [Shift(height)]
    returns, having removed exactly the entries at the front whose index
    plus [d] is at most [height] and logged one line for each of them, in
    order -- unknown when the retriever has no header, canonical when the
    header's hash is the entry's, side fork otherwise.  [Insert(i, h)] is
    [Shift(i)] followed by appending [(i, h)].  On a new tracker,
    [Insert(i, h)] and then [Shift(i + d)], with a retriever whose header
    at [i] hashes to [h], log the canonical inclusion once and leave the
    tracker empty. *)
Theorem tracker_shift_insert
    (C : Type) (retriever : Miner.headerRetriever C) (keccak : types.Keccak)
    (set : Miner.unconfirmedBlocks C) (i h height : Z) :
  well_formed set ->
  let d := Miner.depth set in
  let front := ripe_front d height (Miner.blocks set) in
  let rest := ripe_rest d height (Miner.blocks set) in
  (Miner.Shift set height
   = Some (Miner.set_blocks set rest, map (report set) front) /\
   Miner.blocks set = front ++ rest /\
   Forall (fun e => U64.add (Miner.index (snd e)) d <= height) front /\
   (forall e, head rest = Some e -> height < U64.add (Miner.index (snd e)) d)) /\
  (forall e,
     (Miner.GetHeaderByNumber (Miner.chain set) (Miner.index (snd e)) = None ->
      report set e
      = Miner.FailedToRetrieveHeader (Miner.index (snd e)) (Miner.hash (snd e))) /\
     (forall hd,
        Miner.GetHeaderByNumber (Miner.chain set) (Miner.index (snd e)) = Some hd ->
        report set e
        = if types.Hash hd =? Miner.hash (snd e)
          then Miner.ReachedCanonicalChain (Miner.index (snd e)) (Miner.hash (snd e))
          else Miner.BecameSideFork (Miner.index (snd e)) (Miner.hash (snd e)))) /\
  (exists set1 log1 set2,
     Miner.Shift set i = Some (set1, log1) /\
     Miner.Insert set i h = Some (set2, log1 ++ [Miner.MinedPotentialBlock i h]) /\
     Miner.blocks set2
     = Miner.blocks set1
       ++ [(Miner.allocated set1, {| Miner.index := i; Miner.hash := h |})] /\
     well_formed set2) /\
  (forall (ch : C) (depth : Z) (hd : types.Header),
     Miner.GetHeaderByNumber ch i = Some hd -> types.Hash hd = h ->
     exists set1 set2,
       Miner.Insert (Miner.newUnconfirmedBlocks ch depth) i h
       = Some (set1, [Miner.MinedPotentialBlock i h]) /\
       Miner.Shift set1 (U64.add i depth)
       = Some (set2, [Miner.ReachedCanonicalChain i h]) /\
       Miner.blocks set2 = []).
Proof.
  intros Hwf d front rest.
  split; [| split; [| split]].
  - split; [apply run_Shift; exact Hwf |]. apply ripe_split.
  - intros e. unfold report. split.
    + intros ->. reflexivity.
    + intros hd ->. reflexivity.
  - exists (Miner.set_blocks set (ripe_rest d i (Miner.blocks set))),
           (map (report set) (ripe_front d i (Miner.blocks set))),
           (inserted set i h).
    split; [apply run_Shift; exact Hwf |].
    split; [apply run_Insert; exact Hwf |].
    split; [reflexivity | apply well_formed_inserted; exact Hwf].
  - intros ch depth hd Hget Hhash.
    pose proof (well_formed_new ch depth) as Hnew.
    exists (inserted (Miner.newUnconfirmedBlocks ch depth) i h).
    eexists.
    split; [rewrite run_Insert by exact Hnew; reflexivity |].
    rewrite run_Shift by (apply well_formed_inserted; exact Hnew).
    cbn [inserted Miner.blocks Miner.depth Miner.newUnconfirmedBlocks
         ripe_rest ripe_front app].
    unfold ripe. cbn [snd Miner.index].
    rewrite Z.ltb_irrefl. cbn [negb ripe_rest ripe_front map].
    unfold report, Miner.classify.
    cbn [Miner.chain inserted Miner.newUnconfirmedBlocks snd Miner.index Miner.hash].
    rewrite Hget, Hhash, Z.eqb_refl.
    split; reflexivity.
Qed.

Lemma tracker_shift_insert_witness :
  well_formed Sample.tracker /\
  @Miner.Shift unit Sample.full_chain Sample.keccak Sample.tracker 105
  = Some (Miner.set_blocks Sample.tracker
            [(1%nat, {| Miner.index := 101; Miner.hash := 5 |})],
          [Miner.ReachedCanonicalChain 100 100007]) /\
  @Miner.Shift unit Sample.full_chain Sample.keccak Sample.tracker 106
  = Some (Miner.set_blocks Sample.tracker [],
          [Miner.ReachedCanonicalChain 100 100007; Miner.BecameSideFork 101 5]).
Proof.
  assert (Hwf : well_formed Sample.tracker).
  { split; cbn.
    - apply NoDup_cons. split; [| apply NoDup_singleton].
      rewrite list_elem_of_singleton. lia.
    - repeat constructor. }
  split; [exact Hwf |]. split.
  - destruct (tracker_shift_insert unit Sample.full_chain Sample.keccak
                Sample.tracker 0 0 105 Hwf) as ((Hshift & _) & _).
    exact Hshift.
  - destruct (tracker_shift_insert unit Sample.full_chain Sample.keccak
                Sample.tracker 0 0 106 Hwf) as ((Hshift & _) & _).
    exact Hshift.
Defined.

(* ===================================================================== *)
(** * Persistence *)
(* ===================================================================== *)

Section Decoding.
Import Go Dpor.
Implicit Types (h : heap) (sl : slice) (v : option (list Z))
  (m : gmap Z (option (list Z))).













End Decoding.



(* ===================================================================== *)
(** * Further properties of the snapshot *)
(* ===================================================================== *)

(* ===================================================================== *)
(** * Membership and views *)
(* ===================================================================== *)

Section Membership.
Import Go Dpor.
Variables (h : heap) (s : nat) (st : DporSnapshot).
Hypothesis Hs : structs h !! s = Some st.

Lemma first_position_exists (l : list Z) (a : Z) :
  a ∈ l ->
  exists k : nat, l !! k = Some a /\ forall j, (j < k)%nat -> l !! j <> Some a.
Proof.
  induction l as [| x l IH]; intros Hin.
  - apply elem_of_nil in Hin. contradiction.
  - destruct (Z.eq_dec x a) as [-> | Hne].
    + exists 0%nat. split; [reflexivity |]. intros j Hj. lia.
    + apply elem_of_cons in Hin. destruct Hin as [-> | Hin]; [contradiction |].
      destruct (IH Hin) as (k & Hk & Hfirst).
      exists (Datatypes.S k). split; [exact Hk |].
      intros [| j] Hj; simpl.
      * intros Heq. injection Heq as ->. contradiction.
      * apply Hfirst. lia.
Qed.

Lemma view_from_error (l : list Z) (a : Z) (err : error) :
  bool_decide (snd (view_from 0 l a err) = None) = bool_decide (a ∈ l).
Proof.
  destruct (decide (a ∈ l)) as [Hin | Hout].
  - destruct (first_position_exists l a Hin) as (k & Hk & Hfirst).
    rewrite (view_from_first 0 l a err k Hk Hfirst).
    rewrite (bool_decide_eq_true_2 _ Hin).
    apply bool_decide_eq_true_2. reflexivity.
  - rewrite (view_from_absent 0 l a err Hout).
    rewrite (bool_decide_eq_false_2 _ Hout).
    apply bool_decide_eq_false_2. discriminate.
Qed.

Lemma run_ValidatorsOf (n : Z) :
  (n <> 0 -> U64.mul (TermLen (config st)) (ViewLen (config st)) <> 0) ->
  ValidatorsOf s n h
  = (Ret (default nil_slice
            (map_contents h (RecentValidators st) !! term_of (config st) n)), h).
Proof.
  intros Hdiv. unfold ValidatorsOf.
  rewrite (run_bind _ _ _ _ _ (run_TermOf s h st n Hs Hdiv)).
  apply (run_getRecentValidators h s st Hs).
Qed.

Lemma run_SignersOf (n : Z) :
  (n <> 0 -> U64.mul (TermLen (config st)) (ViewLen (config st)) <> 0) ->
  SignersOf s n h
  = (Ret (default nil_slice
            (map_contents h (RecentSigners st) !! term_of (config st) n)), h).
Proof.
  intros Hdiv. unfold SignersOf.
  rewrite (run_bind _ _ _ _ _ (run_TermOf s h st n Hs Hdiv)).
  apply (run_getRecentSigners h s st Hs).
Qed.

Lemma run_ProposersOf (n : Z) :
  (n <> 0 -> U64.mul (TermLen (config st)) (ViewLen (config st)) <> 0) ->
  ProposersOf s n h
  = (Ret (default nil_slice
            (map_contents h (RecentProposers st) !! term_of (config st) n)), h).
Proof.
  intros Hdiv. unfold ProposersOf.
  rewrite (run_bind _ _ _ _ _ (run_TermOf s h st n Hs Hdiv)).
  apply (run_getRecentProposers h s st Hs).
Qed.

End Membership.

Section FutureViews.
Import Go Dpor.
Variables (h : heap) (s : nat) (st : DporSnapshot).
Hypothesis Hs : structs h !! s = Some st.

Lemma run_FutureSignersOf (n : Z) :
  (n <> 0 -> U64.mul (TermLen (config st)) (ViewLen (config st)) <> 0) ->
  FutureSignersOf s n h
  = (Ret (default nil_slice
            (map_contents h (RecentSigners st) !! future_term (config st) n)), h).
Proof.
  intros Hdiv. unfold FutureSignersOf.
  rewrite (run_bind _ _ _ _ _ (run_FutureTermOf s h st n Hs Hdiv)).
  apply (run_getRecentSigners h s st Hs).
Qed.

Lemma run_FutureProposersOf (n : Z) :
  (n <> 0 -> U64.mul (TermLen (config st)) (ViewLen (config st)) <> 0) ->
  FutureProposersOf s n h
  = (Ret (default nil_slice
            (map_contents h (RecentProposers st) !! future_term (config st) n)), h).
Proof.
  intros Hdiv. unfold FutureProposersOf.
  rewrite (run_bind _ _ _ _ _ (run_FutureTermOf s h st n Hs Hdiv)).
  apply (run_getRecentProposers h s st Hs).
Qed.

Lemma term_of_three_later (n : Z) :
  0 < TermLen (config st) -> 0 < ViewLen (config st) ->
  0 < n -> n + 3 * (TermLen (config st) * ViewLen (config st)) < 2 ^ 64 ->
  term_of (config st) (n + 3 * (TermLen (config st) * ViewLen (config st)))
  = future_term (config st) n.
Proof.
  intros HT HV Hn Hfit.
  set (L := TermLen (config st) * ViewLen (config st)) in *.
  assert (HL : 0 < L) by (unfold L; nia).
  unfold future_term, term_of, TermGapBetweenElectionAndMining.
  destruct (Z.eqb_spec (n + 3 * L) 0); [lia |].
  destruct (Z.eqb_spec n 0); [lia |].
  rewrite !u64_sub_small by lia.
  rewrite u64_mul_small by (fold L; lia). fold L.
  replace (n + 3 * L - 1) with (n - 1 + 3 * L) by ring.
  rewrite Z.div_add by lia.
  unfold U64.add. rewrite u64_wrap_small; [reflexivity |].
  assert (0 <= (n - 1) / L <= n - 1).
  { split; [apply Z.div_pos; lia |].
    apply Z.div_le_upper_bound; [lia | nia]. }
  lia.
Qed.

End FutureViews.

(** X1.  [ValidatorViewOf] and [SignerViewOf] return the first position
    of the address in the committee of the block's term and no error, or
    -1 and the error of their role when it is not there; [IsValidatorOf]
    and [IsSignerOf] answer whether it is there.  Block 0 is no special
    case for them: it reads the committee of term 0. *)
Theorem member_views
    (h : Dpor.heap) (s : nat) (st : Dpor.DporSnapshot) (a n : Z) :
  Go.structs h !! s = Some st ->
  (n <> 0 ->
   U64.mul (Dpor.TermLen (Dpor.config st)) (Dpor.ViewLen (Dpor.config st)) <> 0) ->
  exists cv cs,
    Dpor.ValidatorsOf s n h = (Go.Ret cv, h) /\
    Dpor.SignersOf s n h = (Go.Ret cs, h) /\
    (a ∉ Go.slice_elems h cv ->
     Dpor.ValidatorViewOf s a n h
     = (Go.Ret (-1, Some Dpor.errValidatorNotInCommittee), h)) /\
    (forall view : nat,
       Go.slice_elems h cv !! view = Some a ->
       (forall j, (j < view)%nat -> Go.slice_elems h cv !! j <> Some a) ->
       Dpor.ValidatorViewOf s a n h = (Go.Ret (Z.of_nat view, None), h)) /\
    Dpor.IsValidatorOf s a n h
    = (Go.Ret (bool_decide (a ∈ Go.slice_elems h cv)), h) /\
    (a ∉ Go.slice_elems h cs ->
     Dpor.SignerViewOf s a n h
     = (Go.Ret (-1, Some Dpor.errSignerNotInCommittee), h)) /\
    (forall view : nat,
       Go.slice_elems h cs !! view = Some a ->
       (forall j, (j < view)%nat -> Go.slice_elems h cs !! j <> Some a) ->
       Dpor.SignerViewOf s a n h = (Go.Ret (Z.of_nat view, None), h)) /\
    Dpor.IsSignerOf s a n h
    = (Go.Ret (bool_decide (a ∈ Go.slice_elems h cs)), h).
Proof.
  intros Hs Hdiv.
  pose proof (run_ValidatorsOf h s st Hs n Hdiv) as Hv.
  pose proof (run_SignersOf h s st Hs n Hdiv) as Hg.
  set (cv := default Go.nil_slice _) in Hv.
  set (cs := default Go.nil_slice _) in Hg.
  exists cv, cs. split; [exact Hv |]. split; [exact Hg |].
  assert (Hvv : Dpor.ValidatorViewOf s a n h
                = (Go.Ret (Dpor.view_from 0 (Go.slice_elems h cv) a
                             Dpor.errValidatorNotInCommittee), h)).
  { unfold Dpor.ValidatorViewOf. rewrite (run_bind _ _ _ _ _ Hv). reflexivity. }
  assert (Hsv : Dpor.SignerViewOf s a n h
                = (Go.Ret (Dpor.view_from 0 (Go.slice_elems h cs) a
                             Dpor.errSignerNotInCommittee), h)).
  { unfold Dpor.SignerViewOf. rewrite (run_bind _ _ _ _ _ Hg). reflexivity. }
  split; [intros Habs; rewrite Hvv, (view_from_absent 0 _ a _ Habs); reflexivity |].
  split.
  { intros view Hk Hfirst.
    rewrite Hvv, (view_from_first 0 _ a _ view Hk Hfirst). reflexivity. }
  split.
  { unfold Dpor.IsValidatorOf. rewrite (run_bind _ _ _ _ _ Hvv).
    unfold Go.ret. rewrite view_from_error. reflexivity. }
  split; [intros Habs; rewrite Hsv, (view_from_absent 0 _ a _ Habs); reflexivity |].
  split.
  { intros view Hk Hfirst.
    rewrite Hsv, (view_from_first 0 _ a _ view Hk Hfirst). reflexivity. }
  unfold Dpor.IsSignerOf. rewrite (run_bind _ _ _ _ _ Hsv).
  unfold Go.ret. rewrite view_from_error. reflexivity.
Qed.

Lemma member_views_witness :
  Go.structs Sample.genesis_heap !! 0%nat = Some Sample.genesis /\
  Dpor.IsSignerOf 0 3 7 Sample.genesis_heap = (Go.Ret true, Sample.genesis_heap) /\
  Dpor.IsValidatorOf 0 3 7 Sample.genesis_heap = (Go.Ret false, Sample.genesis_heap).
Proof.
  assert (Hs : Go.structs Sample.genesis_heap !! 0%nat = Some Sample.genesis)
    by (vm_compute; reflexivity).
  split; [exact Hs |].
  destruct (member_views Sample.genesis_heap 0 Sample.genesis 3 7 Hs)
    as (cv & cs & Hcv & Hcs & _ & _ & Hv & _ & _ & Hg).
  - intros _. vm_compute. discriminate.
  - assert (Hcv' : Dpor.ValidatorsOf 0 7 Sample.genesis_heap
                   = (Go.Ret Go.nil_slice, Sample.genesis_heap))
      by (vm_compute; reflexivity).
    assert (Hcs' : Dpor.SignersOf 0 7 Sample.genesis_heap
                   = (Go.Ret (Go.Slice (Some 1%nat) 4 4), Sample.genesis_heap))
      by (vm_compute; reflexivity).
    rewrite Hcv' in Hcv. injection Hcv as <-.
    rewrite Hcs' in Hcs. injection Hcs as <-.
    split; [rewrite Hg | rewrite Hv]; reflexivity.
Defined.

Section InTurn.
Import Go Dpor.
Variables (h : heap) (s : nat) (st : DporSnapshot).
Hypothesis Hs : structs h !! s = Some st.
Hypothesis HT : 0 < TermLen (config st).
Hypothesis HV : 0 < ViewLen (config st).
Hypothesis HTV : TermLen (config st) * ViewLen (config st) < 2 ^ 64.
Hypothesis Hshort : Forall (fun arr => Z.of_nat (length arr) < 2 ^ 63) (arrays h).

(** The view that is in turn at block [n]. *)
Lemma slot_range (n : Z) :
  0 <= ((n - 1) mod (TermLen (config st) * ViewLen (config st)))
       / ViewLen (config st) < TermLen (config st).
Proof.
  set (L := TermLen (config st) * ViewLen (config st)).
  assert (HL : 0 < L) by (unfold L; nia).
  pose proof (Z.mod_pos_bound (n - 1) L HL) as Hm.
  split; [apply Z.div_pos; lia |].
  apply Z.div_lt_upper_bound; [lia |].
  rewrite (Z.mul_comm (ViewLen (config st))). apply Hm.
Qed.

Lemma run_ProposerViewOf (a n : Z) :
  (n <> 0 -> U64.mul (TermLen (config st)) (ViewLen (config st)) <> 0) ->
  ProposerViewOf s a n h
  = (Ret (view_from 0
            (slice_elems h
               (default nil_slice
                  (map_contents h (RecentProposers st) !! term_of (config st) n)))
            a errProposerNotInCommittee), h).
Proof.
  intros Hdiv. unfold ProposerViewOf.
  rewrite (run_bind _ _ _ _ _ (run_ProposersOf h s st Hs n Hdiv)). reflexivity.
Qed.

Lemma run_IsProposerOf_absent (a n : Z) :
  0 < n < 2 ^ 64 ->
  a ∉ slice_elems h
        (default nil_slice
           (map_contents h (RecentProposers st) !! term_of (config st) n)) ->
  IsProposerOf s a n h = (Ret (false, Some errProposerNotInCommittee), h).
Proof.
  intros Hn Habs. unfold IsProposerOf.
  destruct (Z.eqb_spec n 0); [lia |].
  assert (Hdiv : n <> 0 ->
                 U64.mul (TermLen (config st)) (ViewLen (config st)) <> 0).
  { intros _. rewrite u64_mul_small by lia. nia. }
  rewrite (run_bind _ _ _ _ _ (run_ProposerViewOf a n Hdiv)).
  rewrite (view_from_absent 0 _ a _ Habs). reflexivity.
Qed.

Lemma run_IsProposerOf_member (a n : Z) (view : nat) :
  0 < n < 2 ^ 64 ->
  let c := slice_elems h
             (default nil_slice
                (map_contents h (RecentProposers st) !! term_of (config st) n)) in
  c !! view = Some a ->
  (forall j, (j < view)%nat -> c !! j <> Some a) ->
  IsProposerOf s a n h
  = (Ret (bool_decide
            (Z.of_nat view
             = ((n - 1) mod (TermLen (config st) * ViewLen (config st)))
               / ViewLen (config st)), None), h).
Proof.
  intros Hn c Hk Hfirst. unfold IsProposerOf.
  destruct (Z.eqb_spec n 0); [lia |].
  assert (Hmul : U64.mul (TermLen (config st)) (ViewLen (config st))
                 = TermLen (config st) * ViewLen (config st))
    by (apply u64_mul_small; lia).
  assert (Hdiv : n <> 0 ->
                 U64.mul (TermLen (config st)) (ViewLen (config st)) <> 0).
  { intros _. rewrite Hmul. nia. }
  rewrite (run_bind _ _ _ _ _ (run_ProposerViewOf a n Hdiv)). fold c.
  rewrite (view_from_first 0 c a _ view Hk Hfirst).
  cbn [snd fst].
  rewrite (run_bind _ _ _ _ _ (run_load _ _ _ Hs)).
  rewrite Hmul. rewrite u64_sub_small by lia.
  erewrite run_bind by (apply run_urem; nia).
  erewrite run_bind by (apply run_udiv; lia).
  unfold ret. do 3 f_equal.
  pose proof (slot_range n) as Hslot.
  set (slot := ((n - 1) mod (TermLen (config st) * ViewLen (config st)))
               / ViewLen (config st)) in *.
  assert (Hlen : Z.of_nat view < 2 ^ 63).
  { pose proof (slice_elems_length h
                  (default nil_slice
                     (map_contents h (RecentProposers st)
                      !! term_of (config st) n)) Hshort) as Hl.
    pose proof (lookup_lt_Some _ _ _ Hk) as Hlt. unfold c in Hlt. lia. }
  assert (Hs64 : slot < 2 ^ 64) by nia.
  unfold U64.to_int, U64.modulus.
  destruct (Z.ltb_spec slot (2 ^ 63)).
  - destruct (Z.eqb_spec (0 + Z.of_nat view) slot) as [He | He].
    + symmetry. apply bool_decide_eq_true. lia.
    + symmetry. apply bool_decide_eq_false. lia.
  - destruct (Z.eqb_spec (0 + Z.of_nat view) (slot - 2 ^ 64)) as [He | He].
    + lia.
    + symmetry. apply bool_decide_eq_false. lia.
Qed.

End InTurn.

(** X2.  [InturnOf] never fails: it is false for block 0 and for an
    address that is not a proposer of the block's term.  When the
    proposers of the term are pairwise distinct, the address in turn at
    block [n > 0] is the one at position
    [((n - 1) mod (TermLen * ViewLen)) / ViewLen], a position below
    [TermLen], and no other. *)
Theorem InturnOf_one_proposer
    (h : Dpor.heap) (s : nat) (st : Dpor.DporSnapshot) (a n : Z) :
  Go.structs h !! s = Some st ->
  0 < Dpor.TermLen (Dpor.config st) ->
  0 < Dpor.ViewLen (Dpor.config st) ->
  Dpor.TermLen (Dpor.config st) * Dpor.ViewLen (Dpor.config st) < 2 ^ 64 ->
  Forall (fun arr => Z.of_nat (length arr) < 2 ^ 63) (Go.arrays h) ->
  0 <= n < 2 ^ 64 ->
  let slot := ((n - 1) mod (Dpor.TermLen (Dpor.config st)
                            * Dpor.ViewLen (Dpor.config st)))
              / Dpor.ViewLen (Dpor.config st) in
  Dpor.InturnOf s 0 a h = (Go.Ret false, h) /\
  0 <= slot < Dpor.TermLen (Dpor.config st) /\
  (0 < n ->
   exists c, Dpor.ProposersOf s n h = (Go.Ret c, h) /\
     (a ∉ Go.slice_elems h c -> Dpor.InturnOf s n a h = (Go.Ret false, h)) /\
     (NoDup (Go.slice_elems h c) ->
      Dpor.InturnOf s n a h
      = (Go.Ret (bool_decide (Go.slice_elems h c !! Z.to_nat slot = Some a)), h))).
Proof.
  intros Hs HT HV HTV Hshort Hn slot.
  split; [reflexivity |].
  split; [apply (slot_range st HT HV n) |].
  intros Hpos.
  assert (Hdiv : n <> 0 ->
                 U64.mul (Dpor.TermLen (Dpor.config st))
                         (Dpor.ViewLen (Dpor.config st)) <> 0).
  { intros _. rewrite u64_mul_small by lia. nia. }
  pose proof (run_ProposersOf h s st Hs n Hdiv) as Hc.
  set (c := default Go.nil_slice _) in Hc.
  exists c. split; [exact Hc |].
  assert (Habsent : a ∉ Go.slice_elems h c ->
                    Dpor.InturnOf s n a h = (Go.Ret false, h)).
  { intros Habs. unfold Dpor.InturnOf.
    rewrite (run_bind _ _ _ _ _
               (run_IsProposerOf_absent h s st Hs HT HV HTV a n ltac:(lia) Habs)).
    reflexivity. }
  split; [exact Habsent |].
  intros Hnd.
  pose proof (slot_range st HT HV n) as Hslot. fold slot in Hslot.
  destruct (decide (a ∈ Go.slice_elems h c)) as [Hin | Hout].
  - destruct (first_position_exists _ a Hin) as (k & Hk & Hfirst).
    unfold Dpor.InturnOf.
    rewrite (run_bind _ _ _ _ _
               (run_IsProposerOf_member h s st Hs HT HV HTV Hshort a n k
                  ltac:(lia) Hk Hfirst)).
    cbn [snd fst]. unfold Go.ret. do 2 f_equal. fold slot.
    apply bool_decide_ext. split.
    + intros He. rewrite <- He, Nat2Z.id. exact Hk.
    + intros Hslot'.
      pose proof (NoDup_lookup _ _ _ _ Hnd Hk Hslot') as He. lia.
  - rewrite (Habsent Hout). do 2 f_equal. symmetry.
    apply bool_decide_eq_false. intros Hl. apply Hout.
    apply list_elem_of_lookup. eauto.
Qed.

Lemma InturnOf_one_proposer_witness :
  Go.structs Sample.proposers_heap !! 0%nat = Some Sample.genesis /\
  Dpor.InturnOf 0 4 2 Sample.proposers_heap = (Go.Ret true, Sample.proposers_heap) /\
  Dpor.InturnOf 0 4 3 Sample.proposers_heap = (Go.Ret false, Sample.proposers_heap).
Proof.
  assert (Hs : Go.structs Sample.proposers_heap !! 0%nat = Some Sample.genesis)
    by (vm_compute; reflexivity).
  assert (Ha : Go.arrays Sample.proposers_heap
               = [[1; 2; 3; 4]; [1; 2; 3; 4]; [1; 2; 3; 4]])
    by (vm_compute; reflexivity).
  assert (Hc' : Dpor.ProposersOf 0 4 Sample.proposers_heap
                = (Go.Ret (Go.Slice (Some 2%nat) 4 4), Sample.proposers_heap))
    by (vm_compute; reflexivity).
  assert (Hshort : Forall (fun arr => Z.of_nat (length arr) < 2 ^ 63)
                     (Go.arrays Sample.proposers_heap))
    by (rewrite Ha; repeat constructor).
  assert (Hnd : NoDup (Go.slice_elems Sample.proposers_heap
                         (Go.Slice (Some 2%nat) 4 4))).
  { unfold Go.slice_elems. cbn [Go.s_array Go.s_len]. rewrite Ha. cbn.
    repeat (apply NoDup_cons; split;
            [rewrite ?elem_of_cons, elem_of_nil; lia |]).
    apply NoDup_nil_2. }
  split; [exact Hs |].
  split.
  - destruct (InturnOf_one_proposer Sample.proposers_heap 0 Sample.genesis 2 4 Hs)
      as (_ & _ & Hrule); [simpl; lia | simpl; lia | simpl; lia | exact Hshort | lia |].
    destruct Hrule as (c & Hc & _ & Hin); [lia |].
    rewrite Hc' in Hc. injection Hc as <-.
    rewrite (Hin Hnd). reflexivity.
  - destruct (InturnOf_one_proposer Sample.proposers_heap 0 Sample.genesis 3 4 Hs)
      as (_ & _ & Hrule); [simpl; lia | simpl; lia | simpl; lia | exact Hshort | lia |].
    destruct Hrule as (c & Hc & _ & Hin); [lia |].
    rewrite Hc' in Hc. injection Hc as <-.
    rewrite (Hin Hnd). reflexivity.
Defined.

(** X3.  The queries on the future term: [FutureSignerViewOf] and
    [FutureProposerViewOf] return the first position of the address in
    the committee stored three terms after the block's, or -1 with an
    error -- the signers' error for the first, the validators' error for
    the second; [IsFutureSignerOf] and [IsFutureProposerOf] answer
    whether the address is in that committee. *)
Theorem future_member_views
    (h : Dpor.heap) (s : nat) (st : Dpor.DporSnapshot) (a n : Z) :
  Go.structs h !! s = Some st ->
  (n <> 0 ->
   U64.mul (Dpor.TermLen (Dpor.config st)) (Dpor.ViewLen (Dpor.config st)) <> 0) ->
  exists cs cp,
    Dpor.getRecentSigners s (future_term (Dpor.config st) n) h = (Go.Ret cs, h) /\
    Dpor.getRecentProposers s (future_term (Dpor.config st) n) h = (Go.Ret cp, h) /\
    Dpor.FutureSignersOf s n h = (Go.Ret cs, h) /\
    Dpor.FutureProposersOf s n h = (Go.Ret cp, h) /\
    (a ∉ Go.slice_elems h cs ->
     Dpor.FutureSignerViewOf s a n h
     = (Go.Ret (-1, Some Dpor.errSignerNotInCommittee), h)) /\
    (forall view : nat,
       Go.slice_elems h cs !! view = Some a ->
       (forall j, (j < view)%nat -> Go.slice_elems h cs !! j <> Some a) ->
       Dpor.FutureSignerViewOf s a n h = (Go.Ret (Z.of_nat view, None), h)) /\
    Dpor.IsFutureSignerOf s a n h
    = (Go.Ret (bool_decide (a ∈ Go.slice_elems h cs)), h) /\
    (a ∉ Go.slice_elems h cp ->
     Dpor.FutureProposerViewOf s a n h
     = (Go.Ret (-1, Some Dpor.errValidatorNotInCommittee), h)) /\
    (forall view : nat,
       Go.slice_elems h cp !! view = Some a ->
       (forall j, (j < view)%nat -> Go.slice_elems h cp !! j <> Some a) ->
       Dpor.FutureProposerViewOf s a n h = (Go.Ret (Z.of_nat view, None), h)) /\
    Dpor.IsFutureProposerOf s a n h
    = (Go.Ret (bool_decide (a ∈ Go.slice_elems h cp)), h).
Proof.
  intros Hs Hdiv.
  pose proof (run_FutureSignersOf h s st Hs n Hdiv) as Hg.
  pose proof (run_FutureProposersOf h s st Hs n Hdiv) as Hp.
  set (cs := default Go.nil_slice _) in Hg.
  set (cp := default Go.nil_slice _) in Hp.
  exists cs, cp.
  split; [apply (run_getRecentSigners h s st Hs) |].
  split; [apply (run_getRecentProposers h s st Hs) |].
  split; [exact Hg |]. split; [exact Hp |].
  assert (Hsv : Dpor.FutureSignerViewOf s a n h
                = (Go.Ret (Dpor.view_from 0 (Go.slice_elems h cs) a
                             Dpor.errSignerNotInCommittee), h)).
  { unfold Dpor.FutureSignerViewOf. rewrite (run_bind _ _ _ _ _ Hg). reflexivity. }
  assert (Hpv : Dpor.FutureProposerViewOf s a n h
                = (Go.Ret (Dpor.view_from 0 (Go.slice_elems h cp) a
                             Dpor.errValidatorNotInCommittee), h)).
  { unfold Dpor.FutureProposerViewOf. rewrite (run_bind _ _ _ _ _ Hp). reflexivity. }
  split; [intros Habs; rewrite Hsv, (view_from_absent 0 _ a _ Habs); reflexivity |].
  split.
  { intros view Hk Hfirst.
    rewrite Hsv, (view_from_first 0 _ a _ view Hk Hfirst). reflexivity. }
  split.
  { unfold Dpor.IsFutureSignerOf. rewrite (run_bind _ _ _ _ _ Hsv).
    unfold Go.ret. rewrite view_from_error. reflexivity. }
  split; [intros Habs; rewrite Hpv, (view_from_absent 0 _ a _ Habs); reflexivity |].
  split.
  { intros view Hk Hfirst.
    rewrite Hpv, (view_from_first 0 _ a _ view Hk Hfirst). reflexivity. }
  unfold Dpor.IsFutureProposerOf. rewrite (run_bind _ _ _ _ _ Hpv).
  unfold Go.ret. rewrite view_from_error. reflexivity.
Qed.

Lemma future_member_views_witness :
  Go.structs Sample.future_heap !! 0%nat = Some Sample.genesis /\
  Dpor.IsFutureProposerOf 0 2 5 Sample.future_heap
  = (Go.Ret true, Sample.future_heap) /\
  Dpor.FutureProposerViewOf 0 9 5 Sample.future_heap
  = (Go.Ret (-1, Some Dpor.errValidatorNotInCommittee), Sample.future_heap).
Proof.
  assert (Hs : Go.structs Sample.future_heap !! 0%nat = Some Sample.genesis)
    by (vm_compute; reflexivity).
  split; [exact Hs |].
  destruct (future_member_views Sample.future_heap 0 Sample.genesis 2 5 Hs)
    as (cs & cp & _ & _ & _ & Hcp & _ & _ & _ & _ & _ & Hin).
  { intros _. vm_compute. discriminate. }
  destruct (future_member_views Sample.future_heap 0 Sample.genesis 9 5 Hs)
    as (cs' & cp' & _ & _ & _ & Hcp' & _ & _ & _ & Habs & _).
  { intros _. vm_compute. discriminate. }
  assert (Hc : Dpor.FutureProposersOf 0 5 Sample.future_heap
               = (Go.Ret (Go.Slice (Some 3%nat) 4 4), Sample.future_heap))
    by (vm_compute; reflexivity).
  rewrite Hc in Hcp. injection Hcp as <-.
  rewrite Hc in Hcp'. injection Hcp' as <-.
  assert (He : Go.slice_elems Sample.future_heap (Go.Slice (Some 3%nat) 4 4)
               = [1; 2; 3; 4]) by (vm_compute; reflexivity).
  rewrite He in Hin, Habs.
  split.
  - rewrite Hin. rewrite bool_decide_eq_true_2; [reflexivity |].
    rewrite !elem_of_cons. lia.
  - apply Habs. rewrite !elem_of_cons, elem_of_nil. lia.
Defined.

(** X4.  The committee of the future term of block [n] is the committee
    of the block [3 * TermLen * ViewLen] later: what an election at [n]
    stores is what the queries of that later block read. *)
Theorem future_committee_three_terms_later
    (h : Dpor.heap) (s : nat) (st : Dpor.DporSnapshot) (n : Z) :
  Go.structs h !! s = Some st ->
  0 < Dpor.TermLen (Dpor.config st) ->
  0 < Dpor.ViewLen (Dpor.config st) ->
  0 < n ->
  n + 3 * (Dpor.TermLen (Dpor.config st) * Dpor.ViewLen (Dpor.config st)) < 2 ^ 64 ->
  let later := n + 3 * (Dpor.TermLen (Dpor.config st)
                        * Dpor.ViewLen (Dpor.config st)) in
  Dpor.FutureTermOf s n h = Dpor.TermOf s later h /\
  Dpor.FutureSignersOf s n h = Dpor.SignersOf s later h /\
  Dpor.FutureProposersOf s n h = Dpor.ProposersOf s later h.
Proof.
  intros Hs HT HV Hn Hfit later.
  assert (Hdiv : forall m : Z, m <> 0 ->
                 U64.mul (Dpor.TermLen (Dpor.config st))
                         (Dpor.ViewLen (Dpor.config st)) <> 0).
  { intros m _. rewrite u64_mul_small by nia. nia. }
  pose proof (term_of_three_later st n HT HV Hn Hfit) as Hterm. fold later in Hterm.
  split.
  { rewrite (run_FutureTermOf s h st n Hs (Hdiv n)).
    rewrite (run_TermOf s h st later Hs (Hdiv later)).
    rewrite Hterm. reflexivity. }
  split.
  - rewrite (run_FutureSignersOf h s st Hs n (Hdiv n)).
    rewrite (run_SignersOf h s st Hs later (Hdiv later)).
    rewrite Hterm. reflexivity.
  - rewrite (run_FutureProposersOf h s st Hs n (Hdiv n)).
    rewrite (run_ProposersOf h s st Hs later (Hdiv later)).
    rewrite Hterm. reflexivity.
Qed.

Lemma future_committee_three_terms_later_witness :
  Go.structs Sample.future_heap !! 0%nat = Some Sample.genesis /\
  Dpor.FutureProposersOf 0 1 Sample.future_heap
  = Dpor.ProposersOf 0 37 Sample.future_heap /\
  Dpor.ProposersOf 0 37 Sample.future_heap
  = (Go.Ret (Go.Slice (Some 3%nat) 4 4), Sample.future_heap).
Proof.
  assert (Hs : Go.structs Sample.future_heap !! 0%nat = Some Sample.genesis)
    by (vm_compute; reflexivity).
  split; [exact Hs |].
  split.
  - apply (future_committee_three_terms_later Sample.future_heap 0
             Sample.genesis 1 Hs); simpl; lia.
  - vm_compute. reflexivity.
Defined.

Section CommitteeMaps.
Import Go Dpor.
Context {env : Environment}.
Implicit Types (h : heap) (st : DporSnapshot) (m : gmap Z slice).

Lemma evicts_at_most_one_delete_insert m (b term : Z) (c : slice) :
  evicts_at_most_one m (delete b (<[term := c]> m)) term.
Proof.
  split; [| split].
  - intros k Hk Hin. apply elem_of_dom in Hin as [v Hv].
    destruct (decide (k = b)) as [-> | Hb].
    + rewrite lookup_delete_eq in Hv. discriminate.
    + rewrite lookup_delete_ne by auto. apply lookup_insert_ne. auto.
  - assert (Hgone : forall k, k ∈ dom m ->
                      k ∉ dom (delete b (<[term := c]> m)) -> k = b).
    { intros k Hin Hout. destruct (decide (k = b)) as [-> | Hb]; [reflexivity |].
      exfalso. apply Hout. apply elem_of_dom.
      rewrite lookup_delete_ne by auto.
      destruct (decide (k = term)) as [-> | Ht].
      - rewrite lookup_insert_eq. eauto.
      - rewrite lookup_insert_ne by auto. apply elem_of_dom. exact Hin. }
    intros k1 k2 H1 H2 H1' H2'.
    rewrite (Hgone k1 H1 H1'), (Hgone k2 H2 H2'). reflexivity.
  - rewrite map_size_delete, map_size_insert.
    destruct (<[term := c]> m !! b), (m !! term); simpl; lia.
Qed.

Lemma installed_stored_at h l term (src : slice) :
  (l < length (maps h))%nat ->
  stored_at h (installed l 5 term (s_len src) (slice_elems h src) h) l term src.
Proof.
  intros Hl. unfold stored_at. cbv zeta.
  rewrite installed_map_eq by exact Hl.
  split; [apply evicts_at_most_one_delete_insert |].
  split.
  { intros c Hc.
    destruct (decide (beforeTerm term 5 = term)) as [He | Hne].
    - rewrite He, lookup_delete_eq in Hc. discriminate.
    - rewrite lookup_delete_ne, lookup_insert_eq in Hc by auto.
      injection Hc as <-. split; [reflexivity |].
      rewrite installed_elems_new. apply slice_elems_take. }
  split; [intros l' Hl'; apply installed_map_ne; auto |].
  split; reflexivity.
Qed.

End CommitteeMaps.

(** X5.  Each of the three setters, at any term, stores a private copy
    of the committee at the term and removes at most one entry of its
    mapping: every other entry stays as it was, the size grows by one at
    most, and the other two mappings, the struct and the arrays that
    existed are not touched. *)
Theorem setRecent_evicts_at_most_one
    (env : Dpor.Environment) (h : Dpor.heap) (p : nat) (st : Dpor.DporSnapshot)
    (ls lp lv : nat) (term : Z) (src : Go.slice) :
  Go.structs h !! p = Some st ->
  Dpor.RecentSigners st = Some ls -> (ls < length (Go.maps h))%nat ->
  Dpor.RecentProposers st = Some lp -> (lp < length (Go.maps h))%nat ->
  Dpor.RecentValidators st = Some lv -> (lv < length (Go.maps h))%nat ->
  allocated h src ->
  (exists h', Dpor.setRecentSigners p term src h = (Go.Ret tt, h') /\
              stored_at h h' ls term src) /\
  (exists h', Dpor.setRecentProposers p term src h = (Go.Ret tt, h') /\
              stored_at h h' lp term src) /\
  (exists h', Dpor.setRecentValidators p term src h = (Go.Ret tt, h') /\
              stored_at h h' lv term src).
Proof.
  intros Hp Hs Hls Hpr Hlp Hv Hlv Ha.
  split; [| split]; eexists; split.
  - apply (run_setRecentSigners p ls term src h st Hp Hs Hls Ha).
  - apply installed_stored_at. exact Hls.
  - apply (run_setRecentProposers p lp term src h st Hp Hpr Hlp Ha).
  - apply installed_stored_at. exact Hlp.
  - apply (run_setRecentValidators p lv term src h st Hp Hv Hlv Ha).
  - apply installed_stored_at. exact Hlv.
Qed.

Lemma setRecent_evicts_at_most_one_witness :
  Go.structs Sample.genesis_heap !! 0%nat = Some Sample.genesis /\
  allocated Sample.genesis_heap Sample.seed_slice /\
  exists h', @Dpor.setRecentSigners Sample.env 0 2 Sample.seed_slice Sample.genesis_heap
             = (Go.Ret tt, h') /\
             stored_at Sample.genesis_heap h' 0 2 Sample.seed_slice.
Proof.
  assert (Hs : Go.structs Sample.genesis_heap !! 0%nat = Some Sample.genesis)
    by (vm_compute; reflexivity).
  assert (Ha : allocated Sample.genesis_heap Sample.seed_slice)
    by (vm_compute; lia).
  split; [exact Hs |]. split; [exact Ha |].
  destruct (setRecent_evicts_at_most_one Sample.env Sample.genesis_heap 0
              Sample.genesis 0 1 2 2 Sample.seed_slice Hs) as (H1 & _);
    try reflexivity; try (vm_compute; lia).
  exact H1.
Defined.

Section PrivateCopies.
Import Go Dpor.
Context {env : Environment}.
Implicit Types (h : heap) (st : DporSnapshot).

Lemma run_setCandidates p (src : slice) h st :
  structs h !! p = Some st -> allocated h src ->
  setCandidates p src h
  = (Ret tt,
     put_struct p
       (with_Candidates (Slice (Some (length (arrays h))) (s_len src) (s_len src)) st)
       (Heap (structs h) (maps h) (arrays h ++ [slice_elems h src]))).
Proof.
  intros Hp Ha. apply wp_of_run.
  eapply wp_setCandidates; [exact Hp |].
  intros x Hx. rewrite (Hx Ha). reflexivity.
Qed.

(** Writing through a slice of the old heap does not reach an array
    allocated later. *)
Lemma copy_keeps_later_array (dst d : slice) h (a : nat) (n : nat) :
  allocated h dst -> (length (arrays h) <= a)%nat ->
  forall h1, arrays h `prefix_of` arrays h1 ->
  slice_elems (snd (Go.copy dst d h1)) (Slice (Some a) n n)
  = slice_elems h1 (Slice (Some a) n n).
Proof.
  intros Ha Hge h1 Hpre. unfold Go.copy.
  destruct (s_array dst) as [b |] eqn:Hb; [| reflexivity].
  unfold allocated in Ha. rewrite Hb in Ha.
  unfold slice_elems. cbn [snd s_array s_len arrays].
  rewrite list_lookup_insert_ne by lia. reflexivity.
Qed.

End PrivateCopies.

(** X6.  [setCandidates] stores a private copy of the roster: the
    struct changes in its candidates only, which afterwards read as the
    elements the caller's slice had, from an array of their own; what the
    caller later writes into its slice does not change them. *)
Theorem setCandidates_private_copy
    (h : Dpor.heap) (p : nat) (st : Dpor.DporSnapshot) (src d : Go.slice) :
  Go.structs h !! p = Some st ->
  allocated h src ->
  exists h' c,
    Dpor.setCandidates p src h = (Go.Ret tt, h') /\
    Go.structs h' !! p = Some (with_Candidates c st) /\
    Dpor.candidates p h' = (Go.Ret c, h') /\
    Go.s_array c = Some (length (Go.arrays h)) /\
    Go.s_len c = Go.s_len src /\
    Go.slice_elems h' c = Go.slice_elems h src /\
    Go.maps h' = Go.maps h /\
    Go.arrays h' = Go.arrays h ++ [Go.slice_elems h src] /\
    (let h'' := snd (Go.copy src d h') in
     Dpor.candidates p h'' = (Go.Ret c, h'') /\
     Go.slice_elems h'' c = Go.slice_elems h src).
Proof.
  intros Hp Ha.
  set (c := Go.Slice (Some (length (Go.arrays h))) (Go.s_len src) (Go.s_len src)).
  set (h' := put_struct p (with_Candidates c st)
               (Go.Heap (Go.structs h) (Go.maps h)
                        (Go.arrays h ++ [Go.slice_elems h src]))).
  assert (Hp' : Go.structs h' !! p = Some (with_Candidates c st)).
  { unfold h'. apply put_struct_lookup. simpl. eauto. }
  assert (Hel : Go.slice_elems h' c = Go.slice_elems h src).
  { unfold Go.slice_elems at 1, c, h', put_struct. cbn [Go.s_array Go.s_len Go.arrays].
    rewrite list_lookup_middle by reflexivity. cbn [default].
    apply slice_elems_take. }
  exists h', c.
  split; [apply run_setCandidates; assumption |].
  split; [exact Hp' |].
  split; [apply (run_candidates p h' (with_Candidates c st) Hp') |].
  split; [reflexivity |]. split; [reflexivity |].
  split; [exact Hel |].
  split; [reflexivity |]. split; [reflexivity |].
  cbv zeta.
  assert (Hst : Go.structs (snd (Go.copy src d h')) = Go.structs h').
  { unfold Go.copy. destruct (Go.s_array src); reflexivity. }
  split.
  - apply (run_candidates p _ (with_Candidates c st)). rewrite Hst. exact Hp'.
  - rewrite <- Hel. unfold c.
    apply (copy_keeps_later_array src d h); [exact Ha | lia |].
    unfold h', put_struct. cbn [Go.arrays]. apply prefix_app_r. reflexivity.
Qed.

Lemma setCandidates_private_copy_witness :
  Go.structs Sample.genesis_heap !! 0%nat = Some Sample.genesis /\
  allocated Sample.genesis_heap Sample.seed_slice /\
  exists h' c,
    Dpor.candidates 0 (snd (Go.copy Sample.seed_slice (Go.Slice (Some 1%nat) 2 2) h'))
    = (Go.Ret c, snd (Go.copy Sample.seed_slice (Go.Slice (Some 1%nat) 2 2) h')) /\
    Go.slice_elems (snd (Go.copy Sample.seed_slice (Go.Slice (Some 1%nat) 2 2) h')) c
    = [1; 2; 3; 4].
Proof.
  assert (Hs : Go.structs Sample.genesis_heap !! 0%nat = Some Sample.genesis)
    by (vm_compute; reflexivity).
  assert (Ha : allocated Sample.genesis_heap Sample.seed_slice)
    by (vm_compute; lia).
  split; [exact Hs |]. split; [exact Ha |].
  destruct (setCandidates_private_copy Sample.genesis_heap 0 Sample.genesis
              Sample.seed_slice (Go.Slice (Some 1%nat) 2 2) Hs Ha)
    as (h' & c & _ & _ & _ & _ & _ & _ & _ & _ & H1 & H2).
  exists h', c. split; [exact H1 |]. rewrite H2. vm_compute. reflexivity.
Defined.

Section FreshMaps.
Import Go Dpor.
Context {env : Environment}.
Implicit Types (h : heap) (st : DporSnapshot).

Lemma foldl_insert_slices (es : list (Z * slice)) (m : gmap Z slice) :
  NoDup (es.*1) ->
  foldl (fun acc e => <[fst e := snd e]> acc) m es = list_to_map es ∪ m.
Proof.
  revert m. induction es as [| [k x] es IH]; intros m Hnd; simpl.
  - rewrite (left_id_L ∅ (∪)). reflexivity.
  - simpl in Hnd. apply NoDup_cons in Hnd as [Hk Hnd].
    rewrite IH by exact Hnd.
    rewrite <- insert_union_l.
    symmetry. apply insert_union_r. apply not_elem_of_list_to_map_1. exact Hk.
Qed.

Lemma run_fill_map (l : nat) (es : list (Z * slice)) h :
  (l < length (maps h))%nat ->
  for_each es (fun e => map_set (Some l) (fst e) (snd e)) h
  = (Ret tt,
     Heap (structs h)
          (<[l := foldl (fun acc e => <[fst e := snd e]> acc)
                        (map_contents h (Some l)) es]> (maps h))
          (arrays h)).
Proof.
  revert h. induction es as [| e es IH]; intros h Hl.
  - simpl. unfold ret. f_equal. destruct h as [ss ms ars]. simpl in *.
    f_equal. symmetry. apply list_insert_id.
    destruct (lookup_lt_is_Some_2 _ _ Hl) as [mm Hmm]. rewrite Hmm. reflexivity.
  - cbn [for_each]. unfold bind at 1, map_set at 1.
    rewrite IH by (cbn [maps]; rewrite length_insert; exact Hl).
    cbn [structs maps arrays]. rewrite list_insert_insert_eq.
    unfold map_contents at 1. cbn [maps].
    rewrite list_lookup_insert_eq by exact Hl. reflexivity.
Qed.

(** The body of the three getters. *)
Lemma run_copy_map (r : mapref) h :
  (forall l : list (Z * slice), range_order l ≡ₚ l) ->
  copy_map r h
  = (Ret (Some (length (maps h))),
     Heap (structs h) (maps h ++ [map_contents h r]) (arrays h)).
Proof.
  intros Hperm. unfold copy_map.
  unfold bind at 1, make_map at 1.
  unfold bind at 1, map_range at 1.
  set (h1 := Heap (structs h) (maps h ++ [∅]) (arrays h)).
  assert (Hc : map_contents h1 r = map_contents h r).
  { unfold map_contents, h1. destruct r as [l |]; [| reflexivity]. simpl.
    destruct (decide (l < length (maps h))%nat) as [Hl | Hl].
    - rewrite lookup_app_l by exact Hl. reflexivity.
    - destruct (decide (l = length (maps h))) as [-> | Hne].
      + rewrite list_lookup_middle by reflexivity.
        rewrite lookup_ge_None_2 by lia. reflexivity.
      + rewrite !lookup_ge_None_2; [reflexivity | lia |].
        rewrite length_app. simpl. lia. }
  rewrite Hc.
  unfold bind. rewrite run_fill_map by (unfold h1; simpl; rewrite length_app; simpl; lia).
  unfold ret. f_equal. unfold h1. cbn [structs maps arrays]. f_equal.
  assert (He : map_contents h1 (Some (length (maps h))) = ∅).
  { unfold map_contents, h1. simpl.
    rewrite list_lookup_middle by reflexivity. reflexivity. }
  fold h1. rewrite He.
  replace (length (maps h)) with (length (maps h) + 0)%nat at 1 by lia.
  rewrite insert_app_r. simpl. f_equal. f_equal.
  rewrite foldl_insert_slices.
  - rewrite (right_id_L ∅ (∪)).
    rewrite <- (list_to_map_to_list (map_contents h r)) at 2.
    apply list_to_map_proper; [| apply Hperm].
    rewrite (Hperm _). apply NoDup_fst_map_to_list.
  - rewrite (Hperm _). apply NoDup_fst_map_to_list.
Qed.

End FreshMaps.

(** X7.  [recentSigners()], [recentProposers()] and [recentValidators()]
    hand out a new map with the entries of the snapshot's mapping (given
    that a [range] over a map visits every entry once): the heap gains
    that one map and nothing else changes, so the committee slices in it
    are the snapshot's own, while an assignment to the returned map does
    not reach the snapshot's mapping. *)
Theorem recent_getters_copy_the_map
    (env : Dpor.Environment) (h : Dpor.heap) (p : nat) (st : Dpor.DporSnapshot) :
  Go.structs h !! p = Some st ->
  (forall l : list (Z * Go.slice), Dpor.range_order l ≡ₚ l) ->
  Dpor.recentSigners p h
  = (Go.Ret (Some (length (Go.maps h))),
     Go.Heap (Go.structs h)
             (Go.maps h ++ [Go.map_contents h (Dpor.RecentSigners st)])
             (Go.arrays h)) /\
  Dpor.recentProposers p h
  = (Go.Ret (Some (length (Go.maps h))),
     Go.Heap (Go.structs h)
             (Go.maps h ++ [Go.map_contents h (Dpor.RecentProposers st)])
             (Go.arrays h)) /\
  Dpor.recentValidators p h
  = (Go.Ret (Some (length (Go.maps h))),
     Go.Heap (Go.structs h)
             (Go.maps h ++ [Go.map_contents h (Dpor.RecentValidators st)])
             (Go.arrays h)) /\
  (forall (r : Go.mapref) (k : Z) (v : Go.slice) (t : Z) h1 h2,
     (forall l, Dpor.RecentProposers st = Some l -> (l < length (Go.maps h))%nat) ->
     Dpor.recentProposers p h = (Go.Ret r, h1) ->
     Go.map_set r k v h1 = (Go.Ret tt, h2) ->
     Dpor.getRecentProposers p t h2
     = (Go.Ret (default Go.nil_slice
                  (Go.map_contents h (Dpor.RecentProposers st) !! t)), h2)).
Proof.
  intros Hp Hperm.
  assert (H1 : Dpor.recentSigners p h = _) by
    (unfold Dpor.recentSigners;
     rewrite (run_bind _ _ _ _ _ (run_load _ _ _ Hp));
     apply (run_copy_map _ h Hperm)).
  assert (H2 : Dpor.recentProposers p h = _) by
    (unfold Dpor.recentProposers;
     rewrite (run_bind _ _ _ _ _ (run_load _ _ _ Hp));
     apply (run_copy_map _ h Hperm)).
  assert (H3 : Dpor.recentValidators p h = _) by
    (unfold Dpor.recentValidators;
     rewrite (run_bind _ _ _ _ _ (run_load _ _ _ Hp));
     apply (run_copy_map _ h Hperm)).
  split; [exact H1 |]. split; [exact H2 |]. split; [exact H3 |].
  intros r k v t h1 h2 Hal Hr Hset. rewrite H2 in Hr. injection Hr as <- <-.
  unfold Go.map_set in Hset. injection Hset as <-.
  cbn [Go.structs Go.maps Go.arrays].
  set (h2 := Go.Heap _ _ _).
  assert (Hp2 : Go.structs h2 !! p = Some st) by exact Hp.
  rewrite (run_getRecentProposers h2 p st Hp2 t). do 3 f_equal.
  unfold Go.map_contents. destruct (Dpor.RecentProposers st) as [l |]; [| reflexivity].
  unfold h2. cbn [Go.maps].
  pose proof (Hal l eq_refl) as Hl.
  rewrite list_lookup_insert_ne by lia.
  rewrite lookup_app_l by exact Hl. reflexivity.
Qed.

Lemma recent_getters_copy_the_map_witness :
  Go.structs Sample.proposers_heap !! 0%nat = Some Sample.genesis /\
  fst (@Dpor.recentProposers Sample.env 0 Sample.proposers_heap)
  = Go.Ret (Some 3%nat) /\
  Go.map_contents (snd (@Dpor.recentProposers Sample.env 0 Sample.proposers_heap))
    (Some 3%nat)
  = Go.map_contents Sample.proposers_heap (Some 1%nat).
Proof.
  assert (Hs : Go.structs Sample.proposers_heap !! 0%nat = Some Sample.genesis)
    by (vm_compute; reflexivity).
  split; [exact Hs |].
  destruct (recent_getters_copy_the_map Sample.env Sample.proposers_heap 0
              Sample.genesis Hs) as (_ & H2 & _).
  { intros l. reflexivity. }
  rewrite H2. split; [reflexivity |].
  unfold Go.map_contents at 1. cbn [snd Go.maps].
  replace 3%nat with (length (Go.maps Sample.proposers_heap)) by reflexivity.
  rewrite list_lookup_middle by reflexivity. reflexivity.
Defined.

Section Accepted.
Import Go Dpor.
Context {keccak : types.Keccak} {env : Environment}.
Implicit Types (h : heap) (st : DporSnapshot).

(** An accepted batch under a sound configuration: [apply] returns, and
    the snapshot it returns is owned. *)
Lemma apply_accepted h s st (first : types.Header) (rest : list types.Header)
    (cc : option nat) :
  structs h !! s = Some st ->
  well_configured (config st) ->
  fits st first rest = true ->
  exists snap h' l1 l2 l3,
    apply s (first :: rest) cc h = (Ret (Some snap, None), h') /\
    applied h (config st) snap l1 l2 l3 (List.last (first :: rest) first) h'.
Proof.
  intros Hs Hwc Hfits.
  pose proof (config_at_spec h s st Hs) as Hcfg.
  destruct (apply_outcome h s (first :: rest) cc)
    as [(r & h' & Hrun & Hres) | (w & h' & Hrun & _ & [Hnone | Hbad])].
  2:{ rewrite Hs in Hnone. discriminate. }
  2:{ rewrite <- Hcfg in Hbad. contradiction. }
  rewrite <- Hcfg in Hres.
  destruct Hres as [(Hnil & _) | [(st' & f & rs & Hs' & Heq & Hbad & _) |
        [(_ & Hbad & _) | (st' & f & rs & snap & l1 & l2 & l3 & Hs' & Heq & _ & -> & Happ)]]].
  - discriminate.
  - rewrite Hs in Hs'. injection Hs' as <-. injection Heq as <- <-.
    unfold fits in Hfits. apply andb_true_iff in Hfits as [Hc Hf].
    destruct Hbad as [Hbad | Hbad]; [congruence |].
    unfold fits in Hbad. rewrite Hc, Hf in Hbad. discriminate.
  - unfold fits in Hfits. apply andb_true_iff in Hfits as [Hc _]. congruence.
  - injection Heq as <- <-. exists snap, h', l1, l2, l3. auto.
Qed.

End Accepted.

(** X8.  On an accepted batch -- contiguous, starting right after the
    snapshot's block -- and under a sound configuration, [apply] returns
    a new snapshot and no error.  The new snapshot is at a pointer that
    did not exist before; its number and hash are those of the last
    header, its configuration is the original's, and its three mappings
    and its candidates are allocations of its own.  The original struct
    is as it was.  On the empty batch [apply] returns the snapshot
    itself. *)
Theorem apply_returns_new_snapshot
    (keccak : types.Keccak) (env : Dpor.Environment)
    (h : Dpor.heap) (s : nat) (st : Dpor.DporSnapshot)
    (first : types.Header) (rest : list types.Header) (cc : option nat) :
  Go.structs h !! s = Some st ->
  well_configured (Dpor.config st) ->
  fits st first rest = true ->
  let hd := List.last (first :: rest) first in
  (exists snap h' st' l1 l2 l3,
     Dpor.apply s (first :: rest) cc h = (Go.Ret (Some snap, None), h') /\
     (length (Go.structs h) <= snap)%nat /\ snap <> s /\
     Go.structs h' !! snap = Some st' /\
     Dpor.Number st' = U64.of_big (types.Number hd) /\
     Dpor.Hash st' = types.Hash hd /\
     Dpor.config st' = Dpor.config st /\
     Dpor.RecentSigners st' = Some l1 /\
     Dpor.RecentProposers st' = Some l2 /\
     Dpor.RecentValidators st' = Some l3 /\
     (length (Go.maps h) <= l1)%nat /\ (length (Go.maps h) <= l2)%nat /\
     (length (Go.maps h) <= l3)%nat /\
     l1 <> l2 /\ l1 <> l3 /\ l2 <> l3 /\
     fresh_slice h (Dpor.Candidates st') /\
     Go.structs h' !! s = Some st) /\
  Dpor.apply s [] cc h = (Go.Ret (Some s, None), h).
Proof.
  intros Hs Hwc Hfits hd. split; [| reflexivity].
  destruct (apply_accepted h s st first rest cc Hs Hwc Hfits)
    as (snap & h' & l1 & l2 & l3 & Hrun & Ho & (st1 & Hp1 & Hn1 & Hh1) & _).
  pose proof (owned_struct_at _ _ _ _ _ _ _ _ Ho Hp1) as (Hr1 & Hr2 & Hr3 & Hc1 & Hfr).
  pose proof (own_ptr _ _ _ _ _ _ _ Ho) as Hptr.
  pose proof (own_distinct _ _ _ _ _ _ _ Ho) as (Hd1 & Hd2 & Hd3).
  pose proof (own_maps _ _ _ _ _ _ _ Ho) as Hmaps.
  exists snap, h', st1, l1, l2, l3.
  split; [exact Hrun |]. split; [exact Hptr |].
  split. { pose proof (lookup_lt_Some _ _ _ Hs). lia. }
  split; [exact Hp1 |]. split; [exact Hn1 |]. split; [exact Hh1 |].
  split; [exact Hc1 |].
  split; [exact Hr1 |]. split; [exact Hr2 |]. split; [exact Hr3 |].
  split. { apply (Hmaps l1), in_three. auto. }
  split. { apply (Hmaps l2), in_three. auto. }
  split. { apply (Hmaps l3), in_three. auto. }
  split; [exact Hd1 |]. split; [exact Hd2 |]. split; [exact Hd3 |].
  split; [exact Hfr |].
  apply (extends_structs h h' s st); [apply (own_ext _ _ _ _ _ _ _ Ho) | exact Hs].
Qed.

Lemma apply_returns_new_snapshot_witness :
  Go.structs Sample.genesis_heap !! 0%nat = Some Sample.genesis /\
  @well_configured Sample.env Sample.cfg /\
  exists h',
    @Dpor.apply Sample.keccak Sample.env 0 Sample.batch None Sample.genesis_heap
    = (Go.Ret (Some 1%nat, None), h') /\
    Dpor.number 1 h' = (Go.Ret 13, h').
Proof.
  assert (Hs : Go.structs Sample.genesis_heap !! 0%nat = Some Sample.genesis)
    by (vm_compute; reflexivity).
  split; [exact Hs |]. split; [exact sample_well_configured |].
  destruct (apply_returns_new_snapshot Sample.keccak Sample.env
              Sample.genesis_heap 0 Sample.genesis (Sample.header 1)
              Sample.batch_rest None Hs sample_well_configured)
    as ((snap & h' & st' & l1 & l2 & l3 & Hrun & _ & _ & Hp & Hn & _) & _).
  - vm_compute. reflexivity.
  - assert (Hfst : fst (@Dpor.apply Sample.keccak Sample.env 0 Sample.batch None
                          Sample.genesis_heap) = Go.Ret (Some 1%nat, None))
      by (vm_compute; reflexivity).
    change (Sample.header 1 :: Sample.batch_rest) with Sample.batch in Hrun.
    rewrite Hrun in Hfst. injection Hfst as ->.
    exists h'. split; [exact Hrun |].
    rewrite (run_number 1 h' st' Hp). rewrite Hn. reflexivity.
Defined.

Section Thresholds.
Import Go Dpor.
Implicit Types (h : heap) (st : DporSnapshot).

Lemma term_gap_product (cfg : DporConfig) :
  0 <= TermLen cfg -> 0 <= ViewLen cfg ->
  2 * (TermLen cfg * ViewLen cfg) < 2 ^ 64 ->
  U64.mul (U64.mul (TermLen cfg) (TermGapBetweenElectionAndMining - 1))
          (ViewLen cfg)
  = 2 * (TermLen cfg * ViewLen cfg).
Proof.
  intros HT HV Hfit. unfold U64.mul, U64.wrap, U64.modulus.
  rewrite Z.mul_mod_idemp_l by lia.
  unfold TermGapBetweenElectionAndMining.
  replace (TermLen cfg * (3 - 1) * ViewLen cfg)
    with (2 * (TermLen cfg * ViewLen cfg)) by ring.
  apply Z.mod_small. nia.
Qed.

Lemma start_election_late (cfg : DporConfig) (n : Z) :
  0 <= TermLen cfg -> 0 <= ViewLen cfg ->
  2 * (TermLen cfg * ViewLen cfg) <= MaxInitBlockNumber cfg < 2 ^ 64 ->
  start_election cfg n
  = (MaxInitBlockNumber cfg - 2 * (TermLen cfg * ViewLen cfg) <=? n).
Proof.
  intros HT HV HM. unfold start_election.
  rewrite term_gap_product by lia.
  rewrite u64_sub_small by nia. reflexivity.
Qed.

Lemma start_election_wrapped (cfg : DporConfig) (n : Z) :
  0 <= TermLen cfg -> 0 <= ViewLen cfg ->
  0 <= MaxInitBlockNumber cfg < 2 * (TermLen cfg * ViewLen cfg) ->
  2 * (TermLen cfg * ViewLen cfg) < 2 ^ 64 ->
  start_election cfg n
  = (2 ^ 64 - (2 * (TermLen cfg * ViewLen cfg) - MaxInitBlockNumber cfg) <=? n).
Proof.
  intros HT HV HM Hfit. unfold start_election.
  rewrite term_gap_product by lia.
  unfold U64.sub, U64.wrap, U64.modulus.
  replace (MaxInitBlockNumber cfg - 2 * (TermLen cfg * ViewLen cfg))
    with (2 ^ 64 - (2 * (TermLen cfg * ViewLen cfg) - MaxInitBlockNumber cfg)
          + (-1) * 2 ^ 64) by ring.
  rewrite Z.mod_add by lia. rewrite Z.mod_small by nia. reflexivity.
Qed.

Lemma run_ifUseDefaultProposers p h st :
  structs h !! p = Some st ->
  ifUseDefaultProposers p h
  = (Ret (Number st <? MaxInitBlockNumber (config st)), h).
Proof.
  intros Hp. unfold ifUseDefaultProposers.
  rewrite (run_bind _ _ _ _ _ (run_load _ _ _ Hp)). reflexivity.
Qed.

Lemma run_reslice (sl : slice) (n : Z) h :
  n <= Z.of_nat (s_cap sl) ->
  reslice sl n h = (Ret (Slice (s_array sl) (Z.to_nat n) (s_cap sl)), h).
Proof.
  intros Hn. unfold reslice.
  destruct (Z.leb_spec n (Z.of_nat (s_cap sl))); [reflexivity | lia].
Qed.

Context {env : Environment}.

(** Neither branch taken: [updateSigners] only takes the slice of the
    candidates. *)
Lemma run_updateSigners_idle p rpts seed h st :
  structs h !! p = Some st ->
  TermLen (config st) <= Z.of_nat (s_cap (Candidates st)) ->
  (Number st <? MaxInitBlockNumber (config st)) = false ->
  start_election (config st) (Number st) = false ->
  updateSigners p rpts seed h = (Ret None, h).
Proof.
  intros Hp Hcap Hdef Hel. unfold updateSigners.
  rewrite (run_bind _ _ _ _ _ (run_candidates _ _ _ Hp)).
  rewrite (run_bind _ _ _ _ _ (run_load _ _ _ Hp)).
  rewrite (run_bind _ _ _ _ _ (run_reslice _ _ _ Hcap)).
  rewrite (run_bind _ _ _ _ _ (run_ifUseDefaultSigners _ _ _ Hp)).
  rewrite Hdef. rewrite (run_bind _ _ _ _ _ (run_ret tt h)).
  rewrite (run_bind _ _ _ _ _ (run_ifStartElection _ _ _ Hp)).
  rewrite Hel. reflexivity.
Qed.

End Thresholds.

(** X9.  The two thresholds of [updateSigners] on [uint64]: the default
    committee is used below [MaxInitBlockNumber]; the election starts at
    [MaxInitBlockNumber - 2 * TermLen * ViewLen] when that difference is
    not negative, and otherwise -- the subtraction wraps -- only at
    [2^64 - (2 * TermLen * ViewLen - MaxInitBlockNumber)].  In that second
    case, from [MaxInitBlockNumber] up to there, [updateSigners] stores
    no committee at all. *)
Theorem election_thresholds
    (env : Dpor.Environment) (h : Dpor.heap) (p : nat) (st : Dpor.DporSnapshot)
    (rpts : list Dpor.Rpt) (seed : Z) :
  Go.structs h !! p = Some st ->
  0 <= Dpor.TermLen (Dpor.config st) ->
  0 <= Dpor.ViewLen (Dpor.config st) ->
  2 * (Dpor.TermLen (Dpor.config st) * Dpor.ViewLen (Dpor.config st)) < 2 ^ 64 ->
  0 <= Dpor.MaxInitBlockNumber (Dpor.config st) < 2 ^ 64 ->
  let L2 := 2 * (Dpor.TermLen (Dpor.config st) * Dpor.ViewLen (Dpor.config st)) in
  let M := Dpor.MaxInitBlockNumber (Dpor.config st) in
  let n := Dpor.Number st in
  Dpor.ifUseDefaultSigners p h = (Go.Ret (n <? M), h) /\
  Dpor.ifUseDefaultProposers p h = (Go.Ret (n <? M), h) /\
  (L2 <= M -> Dpor.ifStartElection p h = (Go.Ret (M - L2 <=? n), h)) /\
  (M < L2 -> Dpor.ifStartElection p h = (Go.Ret (2 ^ 64 - (L2 - M) <=? n), h)) /\
  (M < L2 -> M <= n < 2 ^ 64 - (L2 - M) ->
   Dpor.TermLen (Dpor.config st) <= Z.of_nat (Go.s_cap (Dpor.Candidates st)) ->
   Dpor.updateSigners p rpts seed h = (Go.Ret None, h)).
Proof.
  intros Hp HT HV Hfit HM L2 M n.
  split; [apply (run_ifUseDefaultSigners p h st Hp) |].
  split; [apply (run_ifUseDefaultProposers p h st Hp) |].
  split.
  { intros Hle. rewrite (run_ifStartElection p h st Hp).
    rewrite start_election_late by (fold L2 M; lia). reflexivity. }
  split.
  { intros Hlt. rewrite (run_ifStartElection p h st Hp).
    rewrite start_election_wrapped by (fold L2 M; lia). reflexivity. }
  intros Hlt Hn Hcap.
  apply (run_updateSigners_idle p rpts seed h st Hp Hcap).
  - apply Z.ltb_ge. fold M n. lia.
  - rewrite start_election_wrapped by (fold L2 M; lia).
    apply Z.leb_gt. fold L2 M n. lia.
Qed.

Lemma election_thresholds_witness :
  Go.structs Sample.genesis_heap !! 0%nat = Some Sample.genesis /\
  Dpor.ifStartElection 0 Sample.genesis_heap = (Go.Ret true, Sample.genesis_heap).
Proof.
  assert (Hs : Go.structs Sample.genesis_heap !! 0%nat = Some Sample.genesis)
    by (vm_compute; reflexivity).
  split; [exact Hs |].
  destruct (election_thresholds Sample.env Sample.genesis_heap 0 Sample.genesis
              [] 0 Hs) as (_ & _ & Hlate & _); try (simpl; lia).
  apply Hlate. simpl. lia.
Defined.


Section CheckpointRuns.
Import Go Dpor.
Context {env : Environment}.
Variables (h : heap) (p : nat) (st : DporSnapshot)
          (rpts : list Rpt) (seed : Z) (c : list Z).
Hypothesis Hp : structs h !! p = Some st.
Hypothesis Hcap : TermLen (config st) <= Z.of_nat (s_cap (Candidates st)).
Hypothesis Hcand : allocated h (Candidates st).
Hypothesis Hdiv : U64.mul (TermLen (config st)) (ViewLen (config st)) <> 0.
Hypothesis Helect :
  start_election (config st) (Number st) = true ->
  Elect rpts seed (U64.to_int (TermLen (config st))) = Ret c.

Lemma installed_maps_length l size term len x (h1 : heap) :
  length (maps (installed l size term len x h1)) = length (maps h1).
Proof. unfold installed. simpl. apply length_insert. Qed.

Lemma run_lift_bind {A B} (o : outcome A) (a : A) (f : A -> M B) (h1 : heap) :
  o = Ret a -> Go.bind (lift o) f h1 = f a h1.
Proof. intros ->. reflexivity. Qed.

Lemma run_updateProposers (lp : nat) :
  RecentProposers st = Some lp -> (lp < length (maps h))%nat ->
  updateProposers p rpts seed h = (Ret None, checkpoint_installed lp st c h).
Proof.
  intros Hr Hl. unfold updateProposers, checkpoint_installed. cbv zeta.
  rewrite (run_bind _ _ _ _ _ (run_candidates _ _ _ Hp)).
  rewrite (run_bind _ _ _ _ _ (run_load _ _ _ Hp)).
  rewrite (run_bind _ _ _ _ _ (run_reslice _ _ _ Hcap)).
  rewrite (run_bind _ _ _ _ _ (run_ifUseDefaultProposers _ _ _ Hp)).
  fold (use_default (config st) (Number st)).
  set (h1 := if use_default (config st) (Number st)
             then default_installed lp st h else h).
  assert (Hstep1 :
    (if use_default (config st) (Number st)
     then Go.bind (Term p) (fun t =>
            setRecentProposers p (U64.add t 1)
              (Slice (s_array (Candidates st)) (Z.to_nat (TermLen (config st)))
                     (s_cap (Candidates st))))
     else ret tt) h = (Ret tt, h1)).
  { unfold h1. destruct (use_default (config st) (Number st)); [| reflexivity].
    rewrite (run_bind _ _ _ _ _ (run_Term p h st Hp (fun _ => Hdiv))).
    rewrite (run_setRecentProposers p lp _ _ h st Hp Hr Hl); [reflexivity |].
    exact Hcand. }
  rewrite (run_bind _ _ _ _ _ Hstep1).
  assert (Hp1 : structs h1 !! p = Some st).
  { unfold h1. destruct (use_default _ _); exact Hp. }
  assert (Hl1 : (lp < length (maps h1))%nat).
  { unfold h1. destruct (use_default _ _); [| exact Hl].
    unfold default_installed. rewrite installed_maps_length. exact Hl. }
  rewrite (run_bind _ _ _ _ _ (run_ifStartElection _ _ _ Hp1)).
  destruct (start_election (config st) (Number st)) eqn:He; [| reflexivity].
  erewrite run_bind; [reflexivity |].
  rewrite (run_bind _ _ _ _ _ (run_load _ _ _ Hp1)).
  rewrite (run_lift_bind _ c _ _ (Helect eq_refl)).
  unfold Go.bind at 1, slice_lit at 1.
  set (h2 := Heap (structs h1) (maps h1) (arrays h1 ++ [c])).
  assert (Hp2 : structs h2 !! p = Some st) by exact Hp1.
  rewrite (run_bind _ _ _ _ _ (run_number _ _ _ Hp2)).
  rewrite (run_bind _ _ _ _ _
             (run_FutureTermOf p h2 st (Number st) Hp2 (fun _ => Hdiv))).
  fold (future_term (config st) (Number st)).
  erewrite run_bind;
    [| apply (run_setRecentProposers p lp _ _ h2 st Hp2 Hr Hl1);
       unfold allocated, h2; cbn; rewrite length_app; cbn; lia].
  set (h3 := installed _ _ _ _ _ h2).
  assert (Hp3 : structs h3 !! p = Some st) by exact Hp2.
  rewrite (run_bind _ _ _ _ _ (run_getRecentProposers h3 p st Hp3 _)).
  unfold ret. f_equal. unfold h3, elected_installed. fold h2.
  cbn [s_len]. f_equal.
  unfold slice_elems, h2. cbn [s_array s_len arrays].
  rewrite list_lookup_middle by reflexivity. cbn. apply firstn_all.
Qed.

Lemma run_updateSigners (ls : nat) :
  RecentSigners st = Some ls -> (ls < length (maps h))%nat ->
  updateSigners p rpts seed h = (Ret None, checkpoint_installed ls st c h).
Proof.
  intros Hr Hl. unfold updateSigners, checkpoint_installed. cbv zeta.
  rewrite (run_bind _ _ _ _ _ (run_candidates _ _ _ Hp)).
  rewrite (run_bind _ _ _ _ _ (run_load _ _ _ Hp)).
  rewrite (run_bind _ _ _ _ _ (run_reslice _ _ _ Hcap)).
  rewrite (run_bind _ _ _ _ _ (run_ifUseDefaultSigners _ _ _ Hp)).
  fold (use_default (config st) (Number st)).
  set (h1 := if use_default (config st) (Number st)
             then default_installed ls st h else h).
  assert (Hstep1 :
    (if use_default (config st) (Number st)
     then Go.bind (Term p) (fun t =>
            setRecentSigners p (U64.add t 1)
              (Slice (s_array (Candidates st)) (Z.to_nat (TermLen (config st)))
                     (s_cap (Candidates st))))
     else ret tt) h = (Ret tt, h1)).
  { unfold h1. destruct (use_default (config st) (Number st)); [| reflexivity].
    rewrite (run_bind _ _ _ _ _ (run_Term p h st Hp (fun _ => Hdiv))).
    rewrite (run_setRecentSigners p ls _ _ h st Hp Hr Hl); [reflexivity |].
    exact Hcand. }
  rewrite (run_bind _ _ _ _ _ Hstep1).
  assert (Hp1 : structs h1 !! p = Some st).
  { unfold h1. destruct (use_default _ _); exact Hp. }
  assert (Hl1 : (ls < length (maps h1))%nat).
  { unfold h1. destruct (use_default _ _); [| exact Hl].
    unfold default_installed. rewrite installed_maps_length. exact Hl. }
  rewrite (run_bind _ _ _ _ _ (run_ifStartElection _ _ _ Hp1)).
  destruct (start_election (config st) (Number st)) eqn:He; [| reflexivity].
  erewrite run_bind; [reflexivity |].
  rewrite (run_bind _ _ _ _ _ (run_load _ _ _ Hp1)).
  rewrite (run_lift_bind _ c _ _ (Helect eq_refl)).
  unfold Go.bind at 1, slice_lit at 1.
  set (h2 := Heap (structs h1) (maps h1) (arrays h1 ++ [c])).
  assert (Hp2 : structs h2 !! p = Some st) by exact Hp1.
  rewrite (run_bind _ _ _ _ _ (run_number _ _ _ Hp2)).
  rewrite (run_bind _ _ _ _ _
             (run_FutureTermOf p h2 st (Number st) Hp2 (fun _ => Hdiv))).
  fold (future_term (config st) (Number st)).
  erewrite run_bind;
    [| apply (run_setRecentSigners p ls _ _ h2 st Hp2 Hr Hl1);
       unfold allocated, h2; cbn; rewrite length_app; cbn; lia].
  set (h3 := installed _ _ _ _ _ h2).
  assert (Hp3 : structs h3 !! p = Some st) by exact Hp2.
  rewrite (run_bind _ _ _ _ _ (run_getRecentSigners h3 p st Hp3 _)).
  unfold ret. f_equal. unfold h3, elected_installed. fold h2.
  cbn [s_len]. f_equal.
  unfold slice_elems, h2. cbn [s_array s_len arrays].
  rewrite list_lookup_middle by reflexivity. cbn. apply firstn_all.
Qed.

End CheckpointRuns.

Section CheckpointFacts.
Import Go Dpor.
Context {env : Environment}.
Variables (h : heap) (st : DporSnapshot) (c : list Z) (l : nat).
Hypothesis Hl : (l < length (maps h))%nat.
Hypothesis Hn : 0 <= Number st.
Hypothesis Hfit : Number st + 3 < 2 ^ 53.
Hypothesis Hov : 5 <= float_overflow.

Let t := term_of (config st) (Number st).

Lemma next_term_exact : U64.add t 1 = t + 1 /\ future_term (config st) (Number st) = t + 3 /\ 0 <= t <= Number st.
Proof.
  pose proof (term_of_bounds (config st) (Number st) ltac:(lia)) as Ht. fold t in Ht.
  unfold future_term, U64.add, TermGapBetweenElectionAndMining. fold t.
  rewrite !u64_wrap_small by lia. auto.
Qed.

Lemma checkpoint_installed_structs :
  structs (checkpoint_installed l st c h) = structs h.
Proof.
  unfold checkpoint_installed, default_installed, elected_installed.
  destruct (use_default _ _), (start_election _ _); reflexivity.
Qed.

Lemma checkpoint_installed_other l' :
  l' <> l ->
  map_contents (checkpoint_installed l st c h) (Some l') = map_contents h (Some l').
Proof.
  intros Hne.
  assert (Hnew : forall h1 : heap,
            map_contents (Heap (structs h1) (maps h1) (arrays h1 ++ [c])) (Some l')
            = map_contents h1 (Some l')) by reflexivity.
  unfold checkpoint_installed, default_installed, elected_installed.
  destruct (use_default _ _), (start_election _ _);
    rewrite ?installed_map_ne, ?Hnew, ?installed_map_ne by auto; reflexivity.
Qed.

Lemma checkpoint_installed_elected :
  start_election (config st) (Number st) = true ->
  exists sl,
    map_contents (checkpoint_installed l st c h) (Some l)
      !! future_term (config st) (Number st) = Some sl /\
    slice_elems (checkpoint_installed l st c h) sl = c.
Proof.
  intros He. unfold checkpoint_installed. rewrite He. cbv zeta.
  set (h1 := if use_default (config st) (Number st)
             then default_installed l st h else h).
  assert (Hl1 : (l < length (maps h1))%nat).
  { unfold h1. destruct (use_default _ _); [| exact Hl].
    unfold default_installed. rewrite installed_maps_length. exact Hl. }
  unfold elected_installed.
  set (h2 := Heap (structs h1) (maps h1) (arrays h1 ++ [c])).
  exists (Slice (Some (length (arrays h2))) (length c) (length c)). split.
  - apply installed_lookup; [exact Hl1 |].
    apply beforeTerm_other; [| exact Hov].
    apply future_term_small; assumption.
  - rewrite installed_elems_new. apply firstn_all.
Qed.

Lemma checkpoint_installed_default :
  use_default (config st) (Number st) = true ->
  allocated h (Candidates st) ->
  exists sl,
    map_contents (checkpoint_installed l st c h) (Some l) !! (t + 1) = Some sl /\
    slice_elems (checkpoint_installed l st c h) sl
    = slice_elems h (Slice (s_array (Candidates st))
                           (Z.to_nat (TermLen (config st)))
                           (s_cap (Candidates st))).
Proof.
  intros Hd Hcand. unfold checkpoint_installed. rewrite Hd. cbv zeta.
  destruct next_term_exact as (Ht1 & Ht3 & Ht).
  set (src := Slice (s_array (Candidates st)) (Z.to_nat (TermLen (config st)))
                    (s_cap (Candidates st))).
  set (sl := Slice (Some (length (arrays h))) (Z.to_nat (TermLen (config st)))
                   (Z.to_nat (TermLen (config st)))).
  set (h1 := default_installed l st h).
  assert (Hm1 : map_contents h1 (Some l) !! (t + 1) = Some sl).
  { unfold h1, default_installed. fold t. rewrite Ht1.
    apply installed_lookup; [exact Hl |].
    apply beforeTerm_other; [lia | exact Hov]. }
  assert (He1 : slice_elems h1 sl = slice_elems h src).
  { unfold h1, default_installed, sl. fold src.
    rewrite installed_elems_new.
    change (Z.to_nat (TermLen (config st))) with (s_len src) at 1.
    apply slice_elems_take. }
  assert (Hl1 : (l < length (maps h1))%nat).
  { unfold h1, default_installed. rewrite installed_maps_length. exact Hl. }
  assert (Ha1 : allocated h1 sl).
  { unfold allocated, sl, h1, default_installed, installed. cbn.
    rewrite length_app. cbn. lia. }
  exists sl. destruct (start_election (config st) (Number st)).
  2:{ split; assumption. }
  unfold elected_installed. split.
  - rewrite installed_map_eq by exact Hl1.
    rewrite Ht3.
    assert (Hb : beforeTerm (t + 3) 5 <> t + 1).
    { destruct (Z.lt_ge_cases (t + 3) 5).
      - rewrite beforeTerm_wrapped by lia. lia.
      - rewrite beforeTerm_exact by lia. lia. }
    rewrite lookup_delete_ne by exact Hb.
    rewrite lookup_insert_ne by lia. exact Hm1.
  - rewrite installed_elems_old.
    + rewrite slice_elems_alloc by exact Ha1. exact He1.
    + clear - Ha1. unfold allocated, sl in *. cbn [s_array arrays] in *.
      rewrite length_app. lia.
Qed.

End CheckpointFacts.

(** X10.  What [updateSigners] stores at a checkpoint, and where: below
    [MaxInitBlockNumber] the first [TermLen] candidates become the signers
    of the term after the snapshot's; once the election has started the
    elected committee becomes the signers of the term three later, so
    that [FutureSignersOf(number)] returns it.  Only the signers mapping
    is written: the struct, the proposers and the validators are as
    before, and no error is returned. *)
Theorem updateSigners_installs
    (env : Dpor.Environment) (h : Dpor.heap) (p : nat) (st : Dpor.DporSnapshot)
    (ls lp lv : nat) (rpts : list Dpor.Rpt) (seed : Z) (c : list Z) :
  Go.structs h !! p = Some st ->
  Dpor.RecentSigners st = Some ls -> (ls < length (Go.maps h))%nat ->
  Dpor.RecentProposers st = Some lp -> lp <> ls ->
  Dpor.RecentValidators st = Some lv -> lv <> ls ->
  Dpor.TermLen (Dpor.config st) <= Z.of_nat (Go.s_cap (Dpor.Candidates st)) ->
  allocated h (Dpor.Candidates st) ->
  U64.mul (Dpor.TermLen (Dpor.config st)) (Dpor.ViewLen (Dpor.config st)) <> 0 ->
  (start_election (Dpor.config st) (Dpor.Number st) = true ->
   Dpor.Elect rpts seed (U64.to_int (Dpor.TermLen (Dpor.config st))) = Go.Ret c) ->
  0 <= Dpor.Number st -> Dpor.Number st + 3 < 2 ^ 53 ->
  5 <= Dpor.float_overflow ->
  exists h',
    Dpor.updateSigners p rpts seed h = (Go.Ret None, h') /\
    Go.structs h' = Go.structs h /\
    Go.map_contents h' (Some lp) = Go.map_contents h (Some lp) /\
    Go.map_contents h' (Some lv) = Go.map_contents h (Some lv) /\
    (start_election (Dpor.config st) (Dpor.Number st) = true ->
     exists sl, Dpor.FutureSignersOf p (Dpor.Number st) h' = (Go.Ret sl, h') /\
                Go.slice_elems h' sl = c) /\
    (use_default (Dpor.config st) (Dpor.Number st) = true ->
     exists sl,
       Dpor.getRecentSigners p (term_of (Dpor.config st) (Dpor.Number st) + 1) h'
       = (Go.Ret sl, h') /\
       Go.slice_elems h' sl
       = Go.slice_elems h
           (Go.Slice (Go.s_array (Dpor.Candidates st))
                     (Z.to_nat (Dpor.TermLen (Dpor.config st)))
                     (Go.s_cap (Dpor.Candidates st)))) /\
    (use_default (Dpor.config st) (Dpor.Number st) = false ->
     start_election (Dpor.config st) (Dpor.Number st) = false -> h' = h).
Proof.
  intros Hp Hs Hls Hpr Hlp Hv Hlv Hcap Hcand Hdiv Hel Hn Hfit Hov.
  exists (checkpoint_installed ls st c h).
  assert (Hp' : Go.structs (checkpoint_installed ls st c h) !! p = Some st)
    by (rewrite checkpoint_installed_structs; exact Hp).
  split; [apply (run_updateSigners h p st rpts seed c Hp Hcap Hcand Hdiv Hel ls Hs Hls) |].
  split; [apply checkpoint_installed_structs |].
  split; [apply checkpoint_installed_other; exact Hlp |].
  split; [apply checkpoint_installed_other; exact Hlv |].
  split.
  { intros He.
    destruct (checkpoint_installed_elected h st c ls Hls Hn Hfit Hov He)
      as (sl & Hm & Hsl).
    exists sl. split; [| exact Hsl].
    unfold Dpor.FutureSignersOf.
    rewrite (run_bind _ _ _ _ _
               (run_FutureTermOf p _ st (Dpor.Number st) Hp' (fun _ => Hdiv))).
    fold (future_term (Dpor.config st) (Dpor.Number st)).
    rewrite (run_getRecentSigners _ p st Hp'). rewrite Hs, Hm. reflexivity. }
  split.
  { intros Hd.
    destruct (checkpoint_installed_default h st c ls Hls Hn Hfit Hov Hd Hcand)
      as (sl & Hm & Hsl).
    exists sl. split; [| exact Hsl].
    rewrite (run_getRecentSigners _ p st Hp'). rewrite Hs, Hm. reflexivity. }
  intros Hd He. unfold checkpoint_installed. rewrite Hd, He. reflexivity.
Qed.

(** X11.  [updateProposers] does the same on the proposers mapping: the
    first [TermLen] candidates become the proposers of the next term
    below [MaxInitBlockNumber], the elected committee those of the term
    three later once the election has started, so that
    [FutureProposersOf(number)] returns it; the signers and the
    validators are not written. *)
Theorem updateProposers_installs
    (env : Dpor.Environment) (h : Dpor.heap) (p : nat) (st : Dpor.DporSnapshot)
    (ls lp lv : nat) (rpts : list Dpor.Rpt) (seed : Z) (c : list Z) :
  Go.structs h !! p = Some st ->
  Dpor.RecentProposers st = Some lp -> (lp < length (Go.maps h))%nat ->
  Dpor.RecentSigners st = Some ls -> ls <> lp ->
  Dpor.RecentValidators st = Some lv -> lv <> lp ->
  Dpor.TermLen (Dpor.config st) <= Z.of_nat (Go.s_cap (Dpor.Candidates st)) ->
  allocated h (Dpor.Candidates st) ->
  U64.mul (Dpor.TermLen (Dpor.config st)) (Dpor.ViewLen (Dpor.config st)) <> 0 ->
  (start_election (Dpor.config st) (Dpor.Number st) = true ->
   Dpor.Elect rpts seed (U64.to_int (Dpor.TermLen (Dpor.config st))) = Go.Ret c) ->
  0 <= Dpor.Number st -> Dpor.Number st + 3 < 2 ^ 53 ->
  5 <= Dpor.float_overflow ->
  exists h',
    Dpor.updateProposers p rpts seed h = (Go.Ret None, h') /\
    Go.structs h' = Go.structs h /\
    Go.map_contents h' (Some ls) = Go.map_contents h (Some ls) /\
    Go.map_contents h' (Some lv) = Go.map_contents h (Some lv) /\
    (start_election (Dpor.config st) (Dpor.Number st) = true ->
     exists sl, Dpor.FutureProposersOf p (Dpor.Number st) h' = (Go.Ret sl, h') /\
                Go.slice_elems h' sl = c) /\
    (use_default (Dpor.config st) (Dpor.Number st) = true ->
     exists sl,
       Dpor.getRecentProposers p (term_of (Dpor.config st) (Dpor.Number st) + 1) h'
       = (Go.Ret sl, h') /\
       Go.slice_elems h' sl
       = Go.slice_elems h
           (Go.Slice (Go.s_array (Dpor.Candidates st))
                     (Z.to_nat (Dpor.TermLen (Dpor.config st)))
                     (Go.s_cap (Dpor.Candidates st)))) /\
    (use_default (Dpor.config st) (Dpor.Number st) = false ->
     start_election (Dpor.config st) (Dpor.Number st) = false -> h' = h).
Proof.
  intros Hp Hpr Hlp Hs Hls Hv Hlv Hcap Hcand Hdiv Hel Hn Hfit Hov.
  exists (checkpoint_installed lp st c h).
  assert (Hp' : Go.structs (checkpoint_installed lp st c h) !! p = Some st)
    by (rewrite checkpoint_installed_structs; exact Hp).
  split; [apply (run_updateProposers h p st rpts seed c Hp Hcap Hcand Hdiv Hel lp Hpr Hlp) |].
  split; [apply checkpoint_installed_structs |].
  split; [apply checkpoint_installed_other; exact Hls |].
  split; [apply checkpoint_installed_other; exact Hlv |].
  split.
  { intros He.
    destruct (checkpoint_installed_elected h st c lp Hlp Hn Hfit Hov He)
      as (sl & Hm & Hsl).
    exists sl. split; [| exact Hsl].
    unfold Dpor.FutureProposersOf.
    rewrite (run_bind _ _ _ _ _
               (run_FutureTermOf p _ st (Dpor.Number st) Hp' (fun _ => Hdiv))).
    fold (future_term (Dpor.config st) (Dpor.Number st)).
    rewrite (run_getRecentProposers _ p st Hp'). rewrite Hpr, Hm. reflexivity. }
  split.
  { intros Hd.
    destruct (checkpoint_installed_default h st c lp Hlp Hn Hfit Hov Hd Hcand)
      as (sl & Hm & Hsl).
    exists sl. split; [| exact Hsl].
    rewrite (run_getRecentProposers _ p st Hp'). rewrite Hpr, Hm. reflexivity. }
  intros Hd He. unfold checkpoint_installed. rewrite Hd, He. reflexivity.
Qed.

Lemma updateProposers_installs_witness :
  Go.structs Sample.roster_heap !! 0%nat = Some Sample.roster /\
  exists h' sl,
    @Dpor.updateProposers Sample.env 0 (Dpor.index_rpts Dpor.default_candidates) 7
      Sample.roster_heap = (Go.Ret None, h') /\
    Dpor.FutureProposersOf 0 0 h' = (Go.Ret sl, h') /\
    Go.slice_elems h' sl = Sample.elected_committee.
Proof.
  assert (Hs : Go.structs Sample.roster_heap !! 0%nat = Some Sample.roster)
    by (vm_compute; reflexivity).
  split; [exact Hs |].
  destruct (updateProposers_installs Sample.env Sample.roster_heap 0 Sample.roster
              0 1 2 (Dpor.index_rpts Dpor.default_candidates) 7
              Sample.elected_committee Hs)
    as (h' & Hrun & _ & _ & _ & Hel & _);
    try reflexivity; try lia; try (vm_compute; lia); try (vm_compute; discriminate).
  destruct Hel as (sl & H1 & H2); [reflexivity |].
  exists h', sl. auto.
Defined.

Lemma updateSigners_installs_witness :
  Go.structs Sample.roster_heap !! 0%nat = Some Sample.roster /\
  exists h' sl,
    @Dpor.updateSigners Sample.env 0 (Dpor.index_rpts Dpor.default_candidates) 7
      Sample.roster_heap = (Go.Ret None, h') /\
    Dpor.getRecentSigners 0 1 h' = (Go.Ret sl, h') /\
    Go.slice_elems h' sl = take 4 Dpor.default_candidates.
Proof.
  assert (Hs : Go.structs Sample.roster_heap !! 0%nat = Some Sample.roster)
    by (vm_compute; reflexivity).
  split; [exact Hs |].
  destruct (updateSigners_installs Sample.env Sample.roster_heap 0 Sample.roster
              0 1 2 (Dpor.index_rpts Dpor.default_candidates) 7
              Sample.elected_committee Hs)
    as (h' & Hrun & _ & _ & _ & _ & Hdef & _);
    try reflexivity; try lia; try (vm_compute; lia); try (vm_compute; discriminate).
  destruct Hdef as (sl & H1 & H2); [reflexivity |].
  exists h', sl. split; [exact Hrun |]. split; [exact H1 |].
  rewrite H2. vm_compute. reflexivity.
Defined.

(* ===================================================================== *)
(** * Keys of the database *)
(* ===================================================================== *)

Section Keys.
Import Go Dpor.

Lemma be_value_snoc (l : list Z) (b : Z) :
  be_value (l ++ [b]) = be_value l * 256 + b.
Proof. unfold be_value. rewrite fold_left_app. reflexivity. Qed.

Lemma digits_of_succ (k : nat) (x : Z) :
  digits_of (Datatypes.S k) x = digits_of k (x / 256) ++ [x mod 256].
Proof.
  unfold digits_of. rewrite seq_S, map_app. cbn [map Nat.add]. f_equal.
  - apply map_ext_in. intros i Hi. apply in_seq in Hi.
    rewrite Z.div_div by (try lia; apply Z.pow_pos_nonneg; lia).
    f_equal. f_equal.
    replace (8 * (Z.of_nat (Datatypes.S k) - 1 - Z.of_nat i))
      with (8 + 8 * (Z.of_nat k - 1 - Z.of_nat i)) by lia.
    rewrite Z.pow_add_r by lia. reflexivity.
  - replace (8 * (Z.of_nat (Datatypes.S k) - 1 - Z.of_nat k)) with 0 by lia.
    rewrite Z.pow_0_r, Z.div_1_r. reflexivity.
Qed.

Lemma be_value_digits (k : nat) (x : Z) :
  be_value (digits_of k x) = x mod 256 ^ Z.of_nat k.
Proof.
  revert x. induction k as [| k IH]; intros x.
  - simpl. rewrite Z.mod_1_r. reflexivity.
  - rewrite digits_of_succ, be_value_snoc, IH.
    rewrite Nat2Z.inj_succ, Z.pow_succ_r by lia.
    rewrite Z.rem_mul_r by (try lia; apply Z.pow_nonzero; lia). ring.
Qed.

Lemma hash_bytes_digits (x : Z) : hash_bytes x = digits_of 32 x.
Proof. reflexivity. Qed.

Lemma be_value_hash_bytes (x : Z) :
  0 <= x < 2 ^ 256 -> be_value (hash_bytes x) = x.
Proof.
  intros Hx. rewrite hash_bytes_digits, be_value_digits.
  apply Z.mod_small. exact Hx.
Qed.

Lemma db_key_injective (x y : Z) :
  0 <= x < 2 ^ 256 -> 0 <= y < 2 ^ 256 -> db_key x = db_key y -> x = y.
Proof.
  intros Hx Hy Heq. unfold db_key in Heq. apply app_inv_head in Heq.
  rewrite <- (be_value_hash_bytes x Hx), <- (be_value_hash_bytes y Hy), Heq.
  reflexivity.
Qed.

End Keys.

(** X12.  The database key determines the hash: two hashes (of 32 bytes)
    with the same key are equal.  So storing a second snapshot with
    another hash keeps the first: both blobs are under their keys, and
    loading the first reads what it read before.  A snapshot that
    [encoding/json] refuses is not stored, and loading a hash that has no
    entry returns an error and leaves the heap alone. *)
Theorem store_keeps_other_snapshots
    (json : Dpor.Json) (h : Dpor.heap) (s1 s2 : nat)
    (st1 st2 : Dpor.DporSnapshot) (db : gmap (list Z) Dpor.blob)
    (b1 b2 : Dpor.blob) (cfg : Dpor.DporConfig) :
  Go.structs h !! s1 = Some st1 ->
  Go.structs h !! s2 = Some st2 ->
  0 <= Dpor.Hash st1 < 2 ^ 256 ->
  0 <= Dpor.Hash st2 < 2 ^ 256 ->
  Dpor.Hash st1 <> Dpor.Hash st2 ->
  Dpor.json_Marshal (Dpor.document_of h st1) = Some b1 ->
  Dpor.json_Marshal (Dpor.document_of h st2) = Some b2 ->
  Dpor.db_key (Dpor.Hash st1) <> Dpor.db_key (Dpor.Hash st2) /\
  (exists db1 db2,
     Dpor.store s1 db h = (Go.Ret (None, db1), h) /\
     Dpor.store s2 db1 h = (Go.Ret (None, db2), h) /\
     db2 !! Dpor.db_key (Dpor.Hash st1) = Some b1 /\
     db2 !! Dpor.db_key (Dpor.Hash st2) = Some b2 /\
     Dpor.loadSnapshot cfg db2 (Dpor.Hash st1) h
     = Dpor.loadSnapshot cfg db1 (Dpor.Hash st1) h) /\
  (forall x, db !! Dpor.db_key x = None ->
     Dpor.loadSnapshot cfg db x h = (Go.Ret (None, Some Dpor.errNotFound), h)) /\
  (forall s st, Go.structs h !! s = Some st ->
     Dpor.json_Marshal (Dpor.document_of h st) = None ->
     Dpor.store s db h = (Go.Ret (Some Dpor.errJSON, db), h)).
Proof.
  intros Hs1 Hs2 Hh1 Hh2 Hne Hm1 Hm2.
  assert (Hk : Dpor.db_key (Dpor.Hash st1) <> Dpor.db_key (Dpor.Hash st2)).
  { intros Heq. apply Hne. apply db_key_injective; assumption. }
  assert (Hstore : forall s st d b,
            Go.structs h !! s = Some st ->
            Dpor.json_Marshal (Dpor.document_of h st) = Some b ->
            Dpor.store s d h
            = (Go.Ret (None, <[Dpor.db_key (Dpor.Hash st) := b]> d), h)).
  { intros s st d b Hs Hm. unfold Dpor.store.
    rewrite (run_bind _ _ _ _ _ (run_load _ _ _ Hs)).
    unfold Go.bind. rewrite Hm. reflexivity. }
  split; [exact Hk |].
  split.
  { exists (<[Dpor.db_key (Dpor.Hash st1) := b1]> db),
           (<[Dpor.db_key (Dpor.Hash st2) := b2]>
              (<[Dpor.db_key (Dpor.Hash st1) := b1]> db)).
    split; [apply Hstore; assumption |].
    split; [apply Hstore; assumption |].
    split. { rewrite lookup_insert_ne by auto. apply lookup_insert_eq. }
    split; [apply lookup_insert_eq |].
    unfold Dpor.loadSnapshot.
    rewrite lookup_insert_ne by auto. reflexivity. }
  split.
  { intros x Hx. unfold Dpor.loadSnapshot. rewrite Hx. reflexivity. }
  intros s st Hs Hm. unfold Dpor.store.
  rewrite (run_bind _ _ _ _ _ (run_load _ _ _ Hs)).
  unfold Go.bind. rewrite Hm. reflexivity.
Qed.

Lemma store_keeps_other_snapshots_witness :
  Go.structs Sample.applied_heap !! 0%nat = Some Sample.genesis /\
  exists st2,
    Go.structs Sample.applied_heap !! 1%nat = Some st2 /\
    Dpor.Hash st2 = 13007 /\
    Dpor.db_key (Dpor.Hash Sample.genesis) <> Dpor.db_key (Dpor.Hash st2).
Proof.
  assert (Hs1 : Go.structs Sample.applied_heap !! 0%nat = Some Sample.genesis)
    by (vm_compute; reflexivity).
  split; [exact Hs1 |].
  destruct (Go.structs Sample.applied_heap !! 1%nat) as [st2 |] eqn:Hs2;
    [| vm_compute in Hs2; discriminate].
  assert (Hh : Dpor.Hash st2 = 13007).
  { vm_compute in Hs2. injection Hs2 as <-. reflexivity. }
  exists st2. split; [reflexivity |]. split; [exact Hh |].
  apply (store_keeps_other_snapshots Sample.plain_json Sample.applied_heap 0 1
           Sample.genesis st2 ∅
           (Dpor.document_of Sample.applied_heap Sample.genesis)
           (Dpor.document_of Sample.applied_heap st2) Sample.cfg Hs1 Hs2);
    try reflexivity.
  - simpl. lia.
  - rewrite Hh. lia.
  - rewrite Hh. simpl. lia.
Defined.

(* ===================================================================== *)
(** * Further properties of the tracker of unconfirmed blocks *)
(* ===================================================================== *)

Section ShiftFacts.
Import Miner.
Context {C : Type} {retriever : headerRetriever C} {keccak : types.Keccak}.
Implicit Types (set : unconfirmedBlocks C) (e : nat * unconfirmedBlock)
  (l : list (nat * unconfirmedBlock)).

Lemma ripe_mono (d h1 h2 : Z) e :
  h1 <= h2 -> ripe d h1 e = true -> ripe d h2 e = true.
Proof.
  unfold ripe. intros Hle.
  destruct (Z.ltb_spec h1 (U64.add (index (snd e)) d)); [discriminate |].
  destruct (Z.ltb_spec h2 (U64.add (index (snd e)) d)); [lia | reflexivity].
Qed.

Lemma ripe_front_twice (d h1 h2 : Z) l :
  h1 <= h2 ->
  ripe_front d h2 l = ripe_front d h1 l ++ ripe_front d h2 (ripe_rest d h1 l) /\
  ripe_rest d h2 l = ripe_rest d h2 (ripe_rest d h1 l).
Proof.
  intros Hle. induction l as [| e l [IH1 IH2]]; [split; reflexivity |].
  cbn [ripe_front ripe_rest].
  destruct (ripe d h1 e) eqn:H1.
  - rewrite (ripe_mono d h1 h2 e Hle H1). simpl. rewrite IH1. auto.
  - split; reflexivity.
Qed.

Lemma ripe_front_rest_nil (d height : Z) l :
  ripe_front d height (ripe_rest d height l) = [] /\
  ripe_rest d height (ripe_rest d height l) = ripe_rest d height l.
Proof.
  induction l as [| e l IH]; [split; reflexivity |].
  cbn [ripe_rest]. destruct (ripe d height e) eqn:H1; [exact IH |].
  cbn [ripe_front ripe_rest]. rewrite H1. split; reflexivity.
Qed.

Lemma report_set_blocks set l e : report (set_blocks set l) e = report set e.
Proof. reflexivity. Qed.

End ShiftFacts.

(** X13.  Shifting composes: on a well-formed tracker, [Shift(h1)]
    followed by [Shift(h2)] for [h1 <= h2] leaves the tracker and writes
    the log lines that [Shift(h2)] alone does, and a second [Shift] to
    the same height drops nothing and logs nothing. *)
Theorem Shift_composes
    (C : Type) (retriever : Miner.headerRetriever C) (keccak : types.Keccak)
    (set : Miner.unconfirmedBlocks C) (h1 h2 : Z) :
  well_formed set ->
  h1 <= h2 ->
  exists s1 log1 s2 log2,
    Miner.Shift set h1 = Some (s1, log1) /\
    Miner.Shift s1 h2 = Some (s2, log2) /\
    Miner.Shift set h2 = Some (s2, log1 ++ log2) /\
    Miner.Shift s1 h1 = Some (s1, []) /\
    well_formed s1 /\ well_formed s2.
Proof.
  intros Hwf Hle.
  set (d := Miner.depth set).
  set (s1 := Miner.set_blocks set (ripe_rest d h1 (Miner.blocks set))).
  assert (Hwf1 : well_formed s1) by (apply well_formed_rest; exact Hwf).
  set (s2 := Miner.set_blocks s1 (ripe_rest d h2 (Miner.blocks s1))).
  assert (Hwf2 : well_formed s2) by (apply well_formed_rest; exact Hwf1).
  destruct (ripe_front_twice d h1 h2 (Miner.blocks set) Hle) as [Hf Hr].
  destruct (ripe_front_rest_nil d h1 (Miner.blocks set)) as [Hf0 Hr0].
  exists s1, (map (report set) (ripe_front d h1 (Miner.blocks set))),
         s2, (map (report set) (ripe_front d h2 (Miner.blocks s1))).
  split; [apply (run_Shift set h1 Hwf) |].
  split; [apply (run_Shift s1 h2 Hwf1) |].
  split.
  { rewrite (run_Shift set h2 Hwf). fold d. rewrite Hf, Hr, map_app. reflexivity. }
  split.
  { rewrite (run_Shift s1 h1 Hwf1).
    cbn [Miner.depth Miner.blocks s1 Miner.set_blocks]. fold d.
    rewrite Hf0, Hr0. reflexivity. }
  split; assumption.
Qed.

Lemma Shift_composes_witness :
  well_formed Sample.tracker /\
  exists s2,
    @Miner.Shift unit Sample.full_chain Sample.keccak Sample.tracker 106
    = Some (s2, [Miner.ReachedCanonicalChain 100 100007;
                 Miner.BecameSideFork 101 5]) /\
    Miner.blocks s2 = [].
Proof.
  assert (Hwf : well_formed Sample.tracker).
  { split.
    - simpl. repeat (apply NoDup_cons; split;
                     [rewrite ?elem_of_cons, elem_of_nil; lia |]).
      apply NoDup_nil_2.
    - simpl. repeat constructor. }
  split; [exact Hwf |].
  destruct (Shift_composes unit Sample.full_chain Sample.keccak Sample.tracker
              105 106 Hwf ltac:(lia))
    as (s1 & log1 & s2 & log2 & H1 & H2 & H3 & _).
  assert (E1 : @Miner.Shift unit Sample.full_chain Sample.keccak Sample.tracker 105
               = Some (Miner.set_blocks Sample.tracker
                         [(1%nat, {| Miner.index := 101; Miner.hash := 5 |})],
                       [Miner.ReachedCanonicalChain 100 100007]))
    by (vm_compute; reflexivity).
  rewrite E1 in H1. injection H1 as <- <-.
  assert (E2 : @Miner.Shift unit Sample.full_chain Sample.keccak
                 (Miner.set_blocks Sample.tracker
                    [(1%nat, {| Miner.index := 101; Miner.hash := 5 |})]) 106
               = Some (Miner.set_blocks Sample.tracker [],
                       [Miner.BecameSideFork 101 5]))
    by (vm_compute; reflexivity).
  rewrite E2 in H2. injection H2 as <- <-.
  eexists. split; [exact H3 | reflexivity].
Defined.

Section AscendingFacts.
Import Miner.
Context {C : Type} {retriever : headerRetriever C} {keccak : types.Keccak}.
Implicit Types (set : unconfirmedBlocks C) (e : nat * unconfirmedBlock)
  (l : list (nat * unconfirmedBlock)).

Lemma ascending_cons d e l :
  ascending d (e :: l) ->
  ascending d l /\ Forall (fun b => index (snd e) < index (snd b)) l /\
  0 <= index (snd e) /\ index (snd e) + d < 2 ^ 64.
Proof.
  intros [Hs Hr]. apply StronglySorted_inv in Hs as [Hs Hlt].
  apply Forall_cons in Hr as [[H0 H1] Hr]. repeat split; assumption.
Qed.

Lemma ascending_suffix d l k : ascending d (k ++ l) -> ascending d l.
Proof.
  intros [Hs Hr]. split.
  - apply (StronglySorted_app_1_r _ k l Hs).
  - apply Forall_app in Hr as [_ Hr]. exact Hr.
Qed.

(** On an ascending ring what [Shift] leaves has no ripe entry at all. *)
Lemma ascending_rest_fresh d height l :
  0 <= d -> ascending d l ->
  Forall (fun e => height < index (snd e) + d) (ripe_rest d height l).
Proof.
  intros Hd. induction l as [| e l IH]; intros Ha; [constructor |].
  destruct (ascending_cons d e l Ha) as (Hl & Hlt & H0 & H1).
  cbn [ripe_rest]. destruct (ripe d height e) eqn:Hr; [apply IH; exact Hl |].
  unfold ripe in Hr. unfold U64.add in Hr. rewrite u64_wrap_small in Hr by lia.
  destruct (Z.ltb_spec height (index (snd e) + d)); [| discriminate].
  constructor; [assumption |].
  eapply Forall_impl; [exact Hlt |]. simpl. intros b Hb. lia.
Qed.

(** Strictly growing integers between two bounds are few. *)
Lemma ascending_length d l (a b : Z) :
  ascending d l ->
  Forall (fun e => a < index (snd e) < b) l ->
  Z.of_nat (length l) <= Z.max 0 (b - a - 1).
Proof.
  revert a. induction l as [| e l IH]; intros a Ha Hin; [simpl; lia |].
  destruct (ascending_cons d e l Ha) as (Hl & Hlt & _ & _).
  apply Forall_cons in Hin as [He Hin].
  assert (Hin' : Forall (fun x => index (snd e) < index (snd x) < b) l).
  { apply Forall_and. split; [exact Hlt |].
    eapply Forall_impl; [exact Hin |]. simpl. intros x Hx. lia. }
  specialize (IH (index (snd e)) Hl Hin').
  cbn [length]. lia.
Qed.

Lemma ascending_snoc d l (p : nat) (i h : Z) :
  ascending d l -> Forall (fun e => index (snd e) < i) l ->
  0 <= i -> i + d < 2 ^ 64 ->
  ascending d (l ++ [(p, {| index := i; hash := h |})]).
Proof.
  intros [Hs Hr] Hlt H0 H1. split.
  - apply StronglySorted_app_2; [| exact Hs | repeat constructor].
    intros x1 x2 Hx1 Hx2. apply list_elem_of_singleton in Hx2 as ->. simpl.
    rewrite Forall_forall in Hlt. apply Hlt. exact Hx1.
  - apply Forall_app. split; [exact Hr |]. repeat constructor; simpl; lia.
Qed.

End AscendingFacts.

(** X14.  A tracker fed with ascending heights holds the recent blocks
    only.  When the indices grow strictly along the ring and no index
    plus the depth leaves [uint64], [Insert(i, h)] with [i] above all of
    them leaves a ring that again is ascending, in which no entry is
    longer ago than the depth (all indices are above [i - depth], or are
    [i] for a depth of zero), and which holds at most [depth] entries
    (one, for a depth of zero); and what [Shift(height)] leaves has no
    entry that is ripe at [height]. *)
Theorem ascending_inserts_bounded
    (C : Type) (retriever : Miner.headerRetriever C) (keccak : types.Keccak)
    (set : Miner.unconfirmedBlocks C) (i h height : Z) :
  well_formed set ->
  0 <= Miner.depth set ->
  ascending (Miner.depth set) (Miner.blocks set) ->
  Forall (fun e => Miner.index (snd e) < i) (Miner.blocks set) ->
  0 <= i -> i + Miner.depth set < 2 ^ 64 ->
  (exists set' log,
     Miner.Insert set i h = Some (set', log) /\
     well_formed set' /\
     Miner.depth set' = Miner.depth set /\
     ascending (Miner.depth set') (Miner.blocks set') /\
     Forall (fun e => i - Z.max 1 (Miner.depth set) < Miner.index (snd e) <= i)
            (Miner.blocks set') /\
     Z.of_nat (length (Miner.blocks set')) <= Z.max 1 (Miner.depth set)) /\
  (exists set' log,
     Miner.Shift set height = Some (set', log) /\
     Forall (fun e => height < Miner.index (snd e) + Miner.depth set)
            (Miner.blocks set')).
Proof.
  intros Hwf Hd Ha Hlt H0 H1.
  set (d := Miner.depth set) in *.
  destruct (ripe_rest_suffix d i (Miner.blocks set)) as [k Hk].
  assert (Har : ascending d (ripe_rest d i (Miner.blocks set))).
  { apply (ascending_suffix d _ k). rewrite <- Hk. exact Ha. }
  assert (Hltr : Forall (fun e => Miner.index (snd e) < i)
                        (ripe_rest d i (Miner.blocks set))).
  { rewrite Hk in Hlt. apply Forall_app in Hlt as [_ Hlt]. exact Hlt. }
  pose proof (ascending_rest_fresh d i (Miner.blocks set) Hd Ha) as Hfresh.
  split.
  - exists (inserted set i h). eexists.
    split; [apply (run_Insert set i h Hwf) |].
    split; [apply well_formed_inserted; exact Hwf |].
    split; [reflexivity |].
    cbn [inserted Miner.blocks Miner.depth]. fold d.
    split; [apply ascending_snoc; assumption |].
    split.
    { apply Forall_app. split.
      - assert (Hboth : Forall (fun e => i < Miner.index (snd e) + d
                                         /\ Miner.index (snd e) < i)
                               (ripe_rest d i (Miner.blocks set)))
          by (apply Forall_and; split; assumption).
        eapply Forall_impl; [exact Hboth |]. simpl. intros e He. lia.
      - repeat constructor; simpl; lia. }
    rewrite length_app. cbn [length].
    assert (Hlen : Z.of_nat (length (ripe_rest d i (Miner.blocks set)))
                   <= Z.max 0 (i - (i - d) - 1)).
    { apply (ascending_length d); [exact Har |].
      apply Forall_and. split; [| exact Hltr].
      eapply Forall_impl; [exact Hfresh |]. simpl. intros e He. lia. }
    lia.
  - eexists. eexists. split; [apply (run_Shift set height Hwf) |].
    cbn [Miner.blocks Miner.set_blocks]. fold d.
    apply ascending_rest_fresh; assumption.
Qed.

Lemma ascending_inserts_bounded_witness :
  well_formed Sample.tracker /\
  ascending (Miner.depth Sample.tracker) (Miner.blocks Sample.tracker) /\
  exists set' log,
    @Miner.Insert unit Sample.full_chain Sample.keccak Sample.tracker 106 9
    = Some (set', log) /\
    Z.of_nat (length (Miner.blocks set')) <= 5.
Proof.
  assert (Hwf : well_formed Sample.tracker).
  { split.
    - simpl. repeat (apply NoDup_cons; split;
                     [rewrite ?elem_of_cons, elem_of_nil; lia |]).
      apply NoDup_nil_2.
    - simpl. repeat constructor. }
  assert (Ha : ascending (Miner.depth Sample.tracker) (Miner.blocks Sample.tracker)).
  { split; simpl.
    - repeat constructor; simpl; lia.
    - repeat constructor; simpl; lia. }
  split; [exact Hwf |]. split; [exact Ha |].
  destruct (ascending_inserts_bounded unit Sample.full_chain Sample.keccak
              Sample.tracker 106 9 0 Hwf)
    as ((set' & log & Hrun & _ & _ & _ & _ & Hlen) & _).
  - simpl. lia.
  - exact Ha.
  - simpl. repeat constructor; simpl; lia.
  - lia.
  - simpl. lia.
  - exists set', log. split; [exact Hrun |]. simpl in Hlen. lia.
Defined.

(* ===================================================================== *)
(** * Nonces and the second extra field of a header *)
(* ===================================================================== *)

Section BigEndian.

Lemma testbit_255 (m : Z) : 0 <= m -> Z.testbit 255 m = (m <? 8).
Proof.
  intros Hm. change 255 with (Z.ones 8).
  destruct (Z.ltb_spec m 8).
  - apply Z.ones_spec_low. lia.
  - apply Z.ones_spec_high. lia.
Qed.

(** The byte of [v] at bit [k], put back in its place. *)
Lemma testbit_byte_at (v k n : Z) :
  0 <= k -> 0 <= n ->
  Z.testbit (Z.shiftl (Z.land (Z.shiftr v k) 255) k) n
  = Z.testbit v n && (k <=? n) && (n <? k + 8).
Proof.
  intros Hk Hn. rewrite Z.shiftl_spec by exact Hn.
  destruct (Z.leb_spec k n).
  - rewrite Z.land_spec, Z.shiftr_spec, testbit_255 by lia.
    replace (n - k + k) with n by ring.
    rewrite andb_true_r. f_equal.
    destruct (Z.ltb_spec (n - k) 8), (Z.ltb_spec n (k + 8)); lia || reflexivity.
  - rewrite Z.testbit_neg_r by lia.
    rewrite andb_false_r. reflexivity.
Qed.

Lemma testbit_above (v n : Z) :
  0 <= v < 2 ^ 64 -> 64 <= n -> Z.testbit v n = false.
Proof.
  intros Hv Hn. destruct (Z.eq_dec v 0) as [-> | Hne]; [apply Z.testbit_0_l |].
  apply Z.bits_above_log2; [lia |].
  assert (Z.log2 v < 64); [| lia].
  apply Z.log2_lt_pow2; lia.
Qed.

Lemma testbit_low_byte (v n : Z) :
  0 <= n -> Z.testbit (Z.land v 255) n = Z.testbit v n && (n <? 8).
Proof. intros Hn. rewrite Z.land_spec, testbit_255 by exact Hn. reflexivity. Qed.

Ltac split_ranges :=
  repeat match goal with
         | |- context [?a <=? ?b] =>
             destruct (Z.leb_spec a b); try lia; cbn [andb orb]
         | |- context [?a <? ?b] =>
             destruct (Z.ltb_spec a b); try lia; cbn [andb orb]
         end.

Lemma Uint64_PutUint64 (v : Z) :
  0 <= v < 2 ^ 64 -> binary.Uint64 (binary.PutUint64 v) = v.
Proof.
  intros Hv. apply Z.bits_inj'. intros n Hn.
  unfold binary.Uint64, binary.PutUint64. cbn [nth].
  rewrite !Z.lor_spec, testbit_low_byte, !testbit_byte_at by lia.
  destruct (Z.testbit v n) eqn:Hb; [| reflexivity].
  assert (n < 64).
  { destruct (Z.lt_ge_cases n 64) as [Hlt | Hge]; [exact Hlt |].
    rewrite (testbit_above v n Hv Hge) in Hb. discriminate. }
  cbn [andb]. split_ranges; reflexivity.
Qed.

Lemma byte_out (b i : Z) :
  0 <= b < 256 -> ~ 0 <= i < 8 -> Z.testbit b i = false.
Proof.
  intros Hb Hi. destruct (Z.lt_ge_cases i 0); [apply Z.testbit_neg_r; lia |].
  destruct (Z.eq_dec b 0) as [-> | Hne]; [apply Z.testbit_0_l |].
  apply Z.bits_above_log2; [lia |].
  assert (Z.log2 b < 8); [| lia].
  apply Z.log2_lt_pow2; lia.
Qed.

Ltac solve_byte :=
  let m := fresh "m" in
  let Hm := fresh "Hm" in
  apply Z.bits_inj'; intros m Hm;
  rewrite Z.land_spec, testbit_255, ?Z.shiftr_spec, !Z.lor_spec,
    !Z.shiftl_spec by lia;
  destruct (Z.ltb_spec m 8);
  [ repeat match goal with
           | |- context [Z.testbit ?b ?i] => rewrite (byte_out b i) by lia
           end;
    rewrite ?orb_false_r, ?orb_false_l, andb_true_r; f_equal; lia
  | rewrite andb_false_r; symmetry; apply byte_out; lia ].

Lemma PutUint64_Uint64 (n : list Z) :
  length n = 8%nat -> Block.is_bytes n ->
  binary.PutUint64 (binary.Uint64 n) = n.
Proof.
  intros Hlen Hb.
  destruct n as [| b0 [| b1 [| b2 [| b3 [| b4 [| b5 [| b6 [| b7 [| ? ?]]]]]]]]];
    try discriminate.
  unfold Block.is_bytes in Hb.
  repeat match goal with
         | H : Forall _ (_ :: _) |- _ => apply Forall_cons in H as [? H]
         end.
  unfold binary.PutUint64, binary.Uint64. cbn [nth].
  repeat (f_equal; [solve_byte |]).
  f_equal. solve_byte.
Qed.

Lemma PutUint64_bytes (v : Z) :
  length (binary.PutUint64 v) = 8%nat /\ Block.is_bytes (binary.PutUint64 v).
Proof.
  split; [reflexivity |]. unfold Block.is_bytes, binary.PutUint64.
  repeat constructor;
    change 255 with (Z.ones 8); rewrite Z.land_ones by lia;
    apply Z.mod_pos_bound; lia.
Qed.

Lemma lor_fits (a b : Z) :
  0 <= a < 2 ^ 64 -> 0 <= b < 2 ^ 64 -> 0 <= Z.lor a b < 2 ^ 64.
Proof.
  intros Ha Hb.
  assert (H0 : 0 <= Z.lor a b) by (apply Z.lor_nonneg; lia).
  split; [exact H0 |].
  destruct (Z.eq_dec (Z.lor a b) 0) as [-> | Hne]; [lia |].
  apply Z.log2_lt_pow2; [lia |].
  rewrite Z.log2_lor by lia.
  assert (La : Z.log2 a < 64).
  { destruct (Z.eq_dec a 0) as [-> | ?]; [simpl; lia |].
    apply Z.log2_lt_pow2; lia. }
  assert (Lb : Z.log2 b < 64).
  { destruct (Z.eq_dec b 0) as [-> | ?]; [simpl; lia |].
    apply Z.log2_lt_pow2; lia. }
  lia.
Qed.

Lemma shifted_byte_fits (b k : Z) :
  0 <= b < 256 -> 0 <= k <= 56 -> 0 <= Z.shiftl b k < 2 ^ 64.
Proof.
  intros Hb Hk. rewrite Z.shiftl_mul_pow2 by lia.
  assert (0 < 2 ^ k) by (apply Z.pow_pos_nonneg; lia).
  assert (2 ^ k <= 2 ^ 56) by (apply Z.pow_le_mono_r; lia).
  split; [nia |].
  replace (2 ^ 64) with (256 * 2 ^ 56) by reflexivity. nia.
Qed.

Lemma Uint64_fits (n : list Z) :
  length n = 8%nat -> Block.is_bytes n -> 0 <= binary.Uint64 n < 2 ^ 64.
Proof.
  intros Hlen Hb.
  destruct n as [| b0 [| b1 [| b2 [| b3 [| b4 [| b5 [| b6 [| b7 [| ? ?]]]]]]]]];
    try discriminate.
  unfold Block.is_bytes in Hb.
  repeat match goal with
         | H : Forall _ (_ :: _) |- _ => apply Forall_cons in H as [? H]
         end.
  unfold binary.Uint64. cbn [nth].
  repeat apply lor_fits; try (apply shifted_byte_fits; lia). lia.
Qed.

End BigEndian.

(** X15.  A nonce and its number are one another's encoding:
    [EncodeNonce] gives eight bytes, [EncodeNonce(i).Uint64()] is [i] for
    every [uint64], and [EncodeNonce(n.Uint64())] is [n] for every
    nonce. *)
Theorem nonce_round_trip (i : Z) (n : list Z) :
  (length (Block.EncodeNonce i) = 8%nat /\ Block.is_bytes (Block.EncodeNonce i)) /\
  (0 <= i < 2 ^ 64 -> Block.BlockNonce_Uint64 (Block.EncodeNonce i) = i) /\
  (length n = 8%nat -> Block.is_bytes n ->
   0 <= Block.BlockNonce_Uint64 n < 2 ^ 64 /\
   Block.EncodeNonce (Block.BlockNonce_Uint64 n) = n).
Proof.
  split; [apply PutUint64_bytes |].
  split; [apply Uint64_PutUint64 |].
  intros Hlen Hb.
  split; [apply Uint64_fits | apply PutUint64_Uint64]; assumption.
Qed.

Lemma nonce_round_trip_witness :
  Block.BlockNonce_Uint64 (Block.EncodeNonce 258) = 258 /\
  Block.EncodeNonce (Block.BlockNonce_Uint64 [0; 0; 0; 0; 0; 0; 1; 2])
  = [0; 0; 0; 0; 0; 0; 1; 2].
Proof.
  destruct (nonce_round_trip 258 [0; 0; 0; 0; 0; 0; 1; 2]) as (_ & H1 & H2).
  split.
  - apply H1. lia.
  - apply H2; [reflexivity |].
    unfold Block.is_bytes. repeat constructor; lia.
Defined.

Section Extra2Facts.
Import Block.

Lemma registry_lookup (k : Z) :
  Extra2RegisterMapping !! k
  = if decide (k = 0)
    then Some {| Encoder := TypeExtra2SignaturesEncoder;
                 Decoder := TypeExtra2SignaturesDecoder |}
    else None.
Proof.
  unfold Extra2RegisterMapping, TypeExtra2Signatures.
  destruct (decide (k = 0)) as [-> | Hne].
  - apply lookup_singleton_eq.
  - apply lookup_singleton_ne. auto.
Qed.

End Extra2Facts.

(** X16.  [DecodedExtra2] on a header: with an empty second extra field
    it panics on the index, so the too-short error never comes out of
    it; with a first byte other than 0 it returns the unknown-type
    error; with the first byte 0 it returns the rest as signatures.  The
    decoder passed to it plays no part. *)
Theorem DecodedExtra2_cases
    (Extra2 : list Z)
    (decoder decoder' : list Z -> Block.Extra2Struct * option Block.error) :
  Block.DecodedExtra2 [] decoder = Block.PanicsIndexOutOfRange /\
  (forall b rest, b <> 0 ->
     Block.DecodedExtra2 (b :: rest) decoder
     = Block.Returns (Block.no_Extra2Struct, Some Block.errUnknownExtra2Type)) /\
  (forall rest,
     Block.DecodedExtra2 (0 :: rest) decoder
     = Block.Returns ({| Block.Type_ := 0; Block.Data := rest |}, None)) /\
  (forall r, Block.DecodedExtra2 Extra2 decoder = Block.Returns r ->
             snd r <> Some Block.errTooShortExtra2) /\
  Block.DecodedExtra2 Extra2 decoder = Block.DecodedExtra2 Extra2 decoder'.
Proof.
  split; [reflexivity |].
  split.
  { intros b rest Hb. unfold Block.DecodedExtra2. rewrite registry_lookup.
    destruct (decide (b = 0)); [contradiction | reflexivity]. }
  split.
  { intros rest. unfold Block.DecodedExtra2. rewrite registry_lookup.
    reflexivity. }
  split; [| reflexivity].
  intros r. unfold Block.DecodedExtra2. destruct Extra2 as [| b rest]; [discriminate |].
  rewrite registry_lookup. destruct (decide (b = 0)).
  - intros Hr. injection Hr as <-. discriminate.
  - intros Hr. injection Hr as <-. discriminate.
Qed.

Lemma DecodedExtra2_cases_witness :
  Block.DecodedExtra2 [7; 1; 2] Block.TypeExtra2SignaturesDecoder
  = Block.Returns (Block.no_Extra2Struct, Some Block.errUnknownExtra2Type).
Proof.
  destruct (DecodedExtra2_cases [7; 1; 2] Block.TypeExtra2SignaturesDecoder
              Block.TypeExtra2SignaturesDecoder) as (_ & H & _).
  apply H. lia.
Defined.

(** X17.  [EncodeToExtra2] and [DecodedExtra2] round-trip: a structure
    of type 0 is written as the byte 0 followed by its data, and decoding
    the field afterwards returns the structure; a structure of any other
    type is refused with the unknown-type error and the field is left as
    it was.  The other way round, writing back what was decoded from a
    field restores the field. *)
Theorem EncodeToExtra2_round_trip
    (Extra2 Extra2' : list Z) (data : Block.Extra2Struct)
    (decoder : list Z -> Block.Extra2Struct * option Block.error) :
  (Block.Type_ data = 0 ->
   Block.EncodeToExtra2 Extra2 data = (0 :: Block.Data data, None) /\
   Block.DecodedExtra2 (fst (Block.EncodeToExtra2 Extra2 data)) decoder
   = Block.Returns (data, None)) /\
  (Block.Type_ data <> 0 ->
   Block.EncodeToExtra2 Extra2 data = (Extra2, Some Block.errUnknownExtra2Type)) /\
  (Block.DecodedExtra2 Extra2 decoder = Block.Returns (data, None) ->
   Block.EncodeToExtra2 Extra2' data = (Extra2, None)).
Proof.
  split.
  { intros Ht. destruct data as [t d]. simpl in Ht. subst t.
    assert (He : Block.EncodeToExtra2 Extra2 {| Block.Type_ := 0; Block.Data := d |}
                 = (0 :: d, None)).
    { unfold Block.EncodeToExtra2. cbn [Block.Type_].
      rewrite registry_lookup. reflexivity. }
    rewrite He. split; [reflexivity |]. cbn [fst].
    unfold Block.DecodedExtra2. rewrite registry_lookup. reflexivity. }
  split.
  { intros Ht. unfold Block.EncodeToExtra2. rewrite registry_lookup.
    destruct (decide (Block.Type_ data = 0)); [contradiction | reflexivity]. }
  unfold Block.DecodedExtra2. destruct Extra2 as [| b rest]; [discriminate |].
  rewrite registry_lookup. destruct (decide (b = 0)) as [-> | Hb].
  - intros Hr. injection Hr as <-.
    unfold Block.EncodeToExtra2. cbn [Block.Type_ Block.TypeExtra2Signatures].
    rewrite registry_lookup. reflexivity.
  - intros Hr. discriminate.
Qed.

Lemma EncodeToExtra2_round_trip_witness :
  Block.DecodedExtra2
    (fst (Block.EncodeToExtra2 [] {| Block.Type_ := 0; Block.Data := [1; 2] |}))
    Block.TypeExtra2SignaturesDecoder
  = Block.Returns ({| Block.Type_ := 0; Block.Data := [1; 2] |}, None) /\
  Block.EncodeToExtra2 [9] {| Block.Type_ := 0; Block.Data := [1; 2] |}
  = ([0; 1; 2], None).
Proof.
  split.
  - destruct (EncodeToExtra2_round_trip [] []
                {| Block.Type_ := 0; Block.Data := [1; 2] |}
                Block.TypeExtra2SignaturesDecoder) as (H & _).
    apply H. reflexivity.
  - destruct (EncodeToExtra2_round_trip [0; 1; 2] [9]
                {| Block.Type_ := 0; Block.Data := [1; 2] |}
                Block.TypeExtra2SignaturesDecoder) as (_ & _ & H).
    apply H. reflexivity.
Defined.

(* ===================================================================== *)
(** * Copies of a header *)
(* ===================================================================== *)

Section HeaderRuns.
Import Go Block.
Local Open Scope go_scope.
Implicit Types (h : heap) (hd : Header).

Lemma int_at_lookup h (a : nat) (v : Z) :
  int_at h (Some a) = Some v -> structs h !! a = Some (IntObject v).
Proof.
  unfold int_at. destruct (structs h !! a) as [[| | v'] |]; try discriminate.
  intros H. injection H as ->. reflexivity.
Qed.

Lemma run_load_int h (a : nat) (v : Z) :
  structs h !! a = Some (IntObject v) -> load_int (Some a) h = (Ret v, h).
Proof.
  intros Ha. unfold load_int. rewrite (run_bind _ _ _ _ _ (run_load _ _ _ Ha)).
  reflexivity.
Qed.

Lemma run_load_header h (p : nat) hd :
  structs h !! p = Some (HeaderObject hd) -> load_header (Some p) h = (Ret hd, h).
Proof.
  intros Hp. unfold load_header. rewrite (run_bind _ _ _ _ _ (run_load _ _ _ Hp)).
  reflexivity.
Qed.

Lemma run_load_block h (p : nat) b :
  structs h !! p = Some (BlockObject b) -> load_block (Some p) h = (Ret b, h).
Proof.
  intros Hp. unfold load_block. rewrite (run_bind _ _ _ _ _ (run_load _ _ _ Hp)).
  reflexivity.
Qed.

(** [z.Set(x)] on two numbers of the heap. *)
Lemma run_Int_Set h (z x : nat) (v0 v : Z) :
  structs h !! z = Some (IntObject v0) ->
  structs h !! x = Some (IntObject v) ->
  Int_Set (Some z) (Some x) h
  = (Ret (Some z), Heap (<[z := IntObject v]> (structs h)) (maps h) (arrays h)).
Proof.
  intros Hz Hx. unfold Int_Set.
  destruct (decide (Some z = Some x)) as [He | Hne].
  - injection He as ->. rewrite Hz in Hx. injection Hx as ->.
    rewrite list_insert_id by exact Hz. destruct h. reflexivity.
  - rewrite (run_bind _ _ _ _ _ (run_load_int _ _ _ Hx)).
    unfold bind, store. rewrite Hz. reflexivity.
Qed.

(** A new number set to a field of the original, when that is not nil. *)
Lemma run_fresh_int {B} (src : option nat) (k : option nat -> M B) h :
  int_ok h src ->
  (t <- new_Int ;;
   (if src is Some _ then Int_Set t src ;;; ret tt else ret tt) ;;;
   k t) h
  = k (Some (length (structs h)))
      (Heap (structs h ++ [IntObject (value_of h src)]) (maps h) (arrays h)).
Proof.
  intros Hok. unfold new_Int at 1, new at 1, bind at 1 2. cbn [structs maps arrays].
  destruct src as [a |]; [| reflexivity].
  destruct Hok as [Hn | [v Hv]]; [discriminate |].
  pose proof (int_at_lookup _ _ _ Hv) as Ha.
  unfold value_of. rewrite Hv. cbn [default id].
  set (h1 := Heap (structs h ++ [IntObject 0]) (maps h) (arrays h)).
  assert (Hz : structs h1 !! length (structs h) = Some (IntObject 0)).
  { unfold h1. cbn [structs]. apply list_lookup_middle. reflexivity. }
  assert (Hx : structs h1 !! a = Some (IntObject v)).
  { unfold h1. cbn [structs]. rewrite lookup_app_l; [exact Ha |].
    apply (lookup_lt_Some _ _ _ Ha). }
  fold h1. unfold ret at 1. cbv beta iota.
  rewrite (run_bind _ _ _ _ _
             (run_bind _ _ _ _ _ (run_Int_Set h1 _ _ _ _ Hz Hx))).
  unfold h1. cbn [structs maps arrays].
  rewrite insert_last_app. reflexivity.
Qed.

(** [make] and [copy] of a slice of the heap. *)
Lemma run_make_copy {B} (src : slice) (k : slice -> M B) h :
  allocated h src ->
  (e <- make_slice 0 (s_len src) ;; copy e src ;;; k e) h
  = k (Slice (Some (length (arrays h))) (s_len src) (s_len src))
      (Heap (structs h) (maps h) (arrays h ++ [slice_elems h src])).
Proof.
  intros Ha. unfold bind at 1 2, make_slice, copy. simpl.
  rewrite Nat.min_id.
  rewrite list_lookup_middle by reflexivity. simpl.
  rewrite drop_replicate, Nat.sub_diag. simpl. rewrite app_nil_r.
  rewrite insert_last_app.
  rewrite (slice_elems_alloc h (replicate (s_len src) 0) src Ha).
  rewrite slice_elems_take. reflexivity.
Qed.

Lemma int_at_grow h (l : list object) m a (p : option nat) :
  int_ok h p -> int_at (Heap (structs h ++ l) m a) p = int_at h p.
Proof.
  intros [-> | [v Hv]]; [reflexivity |].
  destruct p as [x |]; [| discriminate].
  pose proof (int_at_lookup _ _ _ Hv) as Hx.
  unfold int_at. cbn [structs].
  rewrite lookup_app_l by apply (lookup_lt_Some _ _ _ Hx). reflexivity.
Qed.

Lemma int_ok_grow h (l : list object) m a (p : option nat) :
  int_ok h p -> int_ok (Heap (structs h ++ l) m a) p.
Proof.
  intros Hok. unfold int_ok. rewrite (int_at_grow h l m a p Hok). exact Hok.
Qed.

Lemma value_of_grow h (l : list object) m a (p : option nat) :
  int_ok h p -> value_of (Heap (structs h ++ l) m a) p = value_of h p.
Proof. intros Hok. unfold value_of. rewrite (int_at_grow h l m a p Hok). reflexivity. Qed.

Lemma slice_elems_grow h (s : list object) m (l : list (list Z)) (src : slice) :
  allocated h src ->
  slice_elems (Heap s m (arrays h ++ l)) src = slice_elems h src.
Proof.
  unfold allocated, slice_elems. cbn [arrays].
  destruct (s_array src) as [a |]; [| reflexivity].
  intros Ha. rewrite lookup_app_l by exact Ha. reflexivity.
Qed.

(** The copy of an extra field, when the field is not empty. *)
Lemma run_copy_extra {B} (src : slice) (cpy : Header)
    (set : slice -> Header -> Header) (k : Header -> M B) h :
  allocated h src ->
  set src cpy = cpy ->
  (c <- (if (0 <? s_len src)%nat
         then e <- make_slice 0 (s_len src) ;; copy e src ;;; ret (set e cpy)
         else ret cpy) ;;
   k c) h
  = k (set (fst (copied_extra h (length (arrays h)) src)) cpy)
      (Heap (structs h) (maps h)
            (arrays h ++ snd (copied_extra h (length (arrays h)) src))).
Proof.
  intros Ha Hset. unfold copied_extra.
  destruct (0 <? s_len src)%nat.
  - cbn [fst snd].
    rewrite (run_bind _ _ _ _ _
               (run_make_copy src (fun e => ret (set e cpy)) h Ha)).
    reflexivity.
  - cbn [fst snd]. rewrite Hset, app_nil_r. destruct h. reflexivity.
Qed.

Lemma run_CopyHeader h (p : nat) hd :
  structs h !! p = Some (HeaderObject hd) ->
  valid_header h hd ->
  CopyHeader (Some p) h
  = (Ret (Some (length (structs h) + 3)%nat), copied_heap h hd).
Proof.
  intros Hp (Ht & Hd & Hn & He & He2). unfold CopyHeader.
  rewrite (run_bind _ _ _ _ _ (run_load_header _ _ _ Hp)). cbv zeta.
  cbn [Time Difficulty Number Extra Extra2
       set_Time set_Difficulty set_Number set_Extra set_Extra2].
  etransitivity; [apply (run_fresh_int (Time hd)); exact Ht |].
  etransitivity;
    [apply (run_fresh_int (Difficulty hd)); apply int_ok_grow; exact Hd |].
  rewrite (value_of_grow h _ _ _ _ Hd). cbn [structs maps arrays].
  etransitivity.
  { apply (run_fresh_int (Number hd)).
    rewrite <- app_assoc. apply int_ok_grow. exact Hn. }
  cbn [structs maps arrays].
  rewrite <- !app_assoc. rewrite (value_of_grow h _ _ _ _ Hn).
  rewrite !length_app. cbn [length app].
  etransitivity.
  { apply (run_copy_extra (Extra hd) _ set_Extra); [exact He | reflexivity]. }
  cbn [structs maps arrays].
  etransitivity.
  { apply (run_copy_extra (Extra2 hd) _ set_Extra2); [| reflexivity].
    unfold allocated in *. cbn [arrays].
    destruct (s_array (Extra2 hd)); [| exact I]. rewrite length_app. lia. }
  cbn [structs maps arrays].
  unfold bind, new, ret. cbn [structs maps arrays].
  unfold copied_heap, copied_header. cbv zeta.
  rewrite !length_app. cbn [length].
  assert (He2' : forall a,
            copied_extra
              (Heap (structs h ++ [IntObject (value_of h (Time hd));
                                   IntObject (value_of h (Difficulty hd));
                                   IntObject (value_of h (Number hd))])
                    (maps h)
                    (arrays h ++ snd (copied_extra h (length (arrays h)) (Extra hd))))
              a (Extra2 hd)
            = copied_extra h a (Extra2 hd)).
  { intros a. unfold copied_extra at 1 3.
    rewrite (slice_elems_grow h _ _ _ _ He2). reflexivity. }
  rewrite !He2'.
  replace (1 + 1)%nat with 2%nat by reflexivity.
  rewrite <- !app_assoc. cbn [app].
  reflexivity.
Qed.

End HeaderRuns.

Section HeaderFacts.
Import Go Block.
Implicit Types (h : heap) (hd : Header).

Lemma copied_extra_elems h (s : list object) m (a : nat) (src : slice)
    (pre post : list (list Z)) :
  allocated h src ->
  a = length (arrays h ++ pre) ->
  slice_elems (Heap s m (arrays h ++ pre ++ snd (copied_extra h a src) ++ post))
              (fst (copied_extra h a src))
  = slice_elems h src.
Proof.
  intros Ha ->. unfold copied_extra.
  destruct (0 <? s_len src)%nat; cbn [fst snd].
  - unfold slice_elems at 1. cbn [s_array s_len arrays].
    rewrite app_assoc. cbn [app].
    rewrite list_lookup_middle by reflexivity. cbn [default].
    apply slice_elems_take.
  - cbn [app]. apply slice_elems_grow. exact Ha.
Qed.

Lemma copied_extra_fresh h (a : nat) (src : slice) :
  (0 < s_len src)%nat ->
  fst (copied_extra h a src) = Slice (Some a) (s_len src) (s_len src) /\
  length (snd (copied_extra h a src)) = 1%nat.
Proof.
  intros Hlen. unfold copied_extra.
  destruct (Nat.ltb_spec 0 (s_len src)); [split; reflexivity | lia].
Qed.

Lemma copied_extra_empty h (a : nat) (src : slice) :
  s_len src = 0%nat -> copied_extra h a src = (src, []).
Proof. intros Hlen. unfold copied_extra. rewrite Hlen. reflexivity. Qed.

Lemma copied_heap_lookup h hd (k : nat) (o : object) :
  [IntObject (value_of h (Time hd)); IntObject (value_of h (Difficulty hd));
   IntObject (value_of h (Number hd)); HeaderObject (copied_header h hd)] !! k
  = Some o ->
  structs (copied_heap h hd) !! (length (structs h) + k)%nat = Some o.
Proof.
  intros Hk. unfold copied_heap. cbv zeta. cbn [structs].
  rewrite lookup_app_r by lia.
  replace (length (structs h) + k - length (structs h))%nat with k by lia.
  exact Hk.
Qed.

End HeaderFacts.

(** X18.  [CopyHeader] is a deep copy.  On a header of the heap it
    returns a new header whose value fields are the original's, whose
    [Time], [Difficulty] and [Number] are three new numbers holding the
    original's values -- zero where the original's pointer is nil, so
    they are never nil -- and whose extra fields hold the original's
    bytes, in arrays of their own when they are not empty.  Nothing that
    existed is written.  An empty extra field is not copied: the slice,
    with its array and capacity, is the original's.  On the nil pointer
    [CopyHeader] panics. *)
Theorem CopyHeader_is_deep
    (h : Block.heap) (p : nat) (hd : Block.Header) :
  Go.structs h !! p = Some (Block.HeaderObject hd) ->
  valid_header h hd ->
  (exists (q t d n : nat) (h' : Block.heap) (hd' : Block.Header),
     Block.CopyHeader (Some p) h = (Go.Ret (Some q), h') /\
     Go.structs h' !! q = Some (Block.HeaderObject hd') /\
     Go.structs h `prefix_of` Go.structs h' /\
     Go.arrays h `prefix_of` Go.arrays h' /\
     Go.maps h' = Go.maps h /\
     Block.set_Extra2 (Block.Extra2 hd)
       (Block.set_Extra (Block.Extra hd)
          (Block.set_Number (Block.Number hd)
             (Block.set_Difficulty (Block.Difficulty hd)
                (Block.set_Time (Block.Time hd) hd')))) = hd /\
     Block.Time hd' = Some t /\ Block.Difficulty hd' = Some d /\
     Block.Number hd' = Some n /\
     (length (Go.structs h) <= t)%nat /\ (length (Go.structs h) <= d)%nat /\
     (length (Go.structs h) <= n)%nat /\ (length (Go.structs h) <= q)%nat /\
     NoDup [t; d; n; q] /\
     int_at h' (Some t) = Some (value_of h (Block.Time hd)) /\
     int_at h' (Some d) = Some (value_of h (Block.Difficulty hd)) /\
     int_at h' (Some n) = Some (value_of h (Block.Number hd)) /\
     Go.slice_elems h' (Block.Extra hd') = Go.slice_elems h (Block.Extra hd) /\
     Go.slice_elems h' (Block.Extra2 hd') = Go.slice_elems h (Block.Extra2 hd) /\
     ((0 < Go.s_len (Block.Extra hd))%nat ->
      exists a, Go.s_array (Block.Extra hd') = Some a /\
                (length (Go.arrays h) <= a)%nat /\
                Go.s_array (Block.Extra2 hd') <> Some a) /\
     ((0 < Go.s_len (Block.Extra2 hd))%nat ->
      exists a, Go.s_array (Block.Extra2 hd') = Some a /\
                (length (Go.arrays h) <= a)%nat) /\
     (Go.s_len (Block.Extra hd) = 0%nat -> Block.Extra hd' = Block.Extra hd) /\
     (Go.s_len (Block.Extra2 hd) = 0%nat -> Block.Extra2 hd' = Block.Extra2 hd)) /\
  Block.CopyHeader None h = (Go.Panic Go.NilDereference, h).
Proof.
  intros Hp Hv. split; [| reflexivity].
  pose proof Hv as (Ht & Hd & Hn & He & He2).
  set (t := length (Go.structs h)).
  exists (t + 3)%nat, t, (t + 1)%nat, (t + 2)%nat,
         (copied_heap h hd), (copied_header h hd).
  split; [apply (run_CopyHeader h p hd Hp Hv) |].
  split; [apply copied_heap_lookup; reflexivity |].
  split; [unfold copied_heap; cbv zeta; apply prefix_app_r; reflexivity |].
  split; [unfold copied_heap; cbv zeta; apply prefix_app_r; reflexivity |].
  split; [reflexivity |].
  split; [destruct hd; reflexivity |].
  split; [reflexivity |]. split; [reflexivity |]. split; [reflexivity |].
  split; [lia |]. split; [lia |]. split; [lia |]. split; [lia |].
  split.
  { repeat (apply NoDup_cons; split;
            [rewrite ?elem_of_cons, elem_of_nil; lia |]).
    apply NoDup_nil_2. }
  assert (Hint : forall k v,
            [Block.IntObject (value_of h (Block.Time hd));
             Block.IntObject (value_of h (Block.Difficulty hd));
             Block.IntObject (value_of h (Block.Number hd));
             Block.HeaderObject (copied_header h hd)] !! k
            = Some (Block.IntObject v) ->
            int_at (copied_heap h hd) (Some (t + k)%nat) = Some v).
  { intros k v Hk. unfold int_at, t.
    rewrite (copied_heap_lookup h hd k _ Hk). reflexivity. }
  split. { replace t with (t + 0)%nat at 1 by lia. apply Hint. reflexivity. }
  split; [apply Hint; reflexivity |].
  split; [apply Hint; reflexivity |].
  split.
  { unfold copied_heap, copied_header. cbv zeta. cbn [Block.Extra Block.set_Extra2
      Block.set_Extra].
    apply (copied_extra_elems h _ _ _ (Block.Extra hd) [] _ He).
    rewrite app_nil_r. reflexivity. }
  split.
  { unfold copied_heap, copied_header. cbv zeta. cbn [Block.Extra2 Block.set_Extra2].
    pose proof (copied_extra_elems h
                  (Go.structs h ++
                     [Block.IntObject (value_of h (Block.Time hd));
                      Block.IntObject (value_of h (Block.Difficulty hd));
                      Block.IntObject (value_of h (Block.Number hd));
                      Block.HeaderObject (copied_header h hd)])
                  (Go.maps h)
                  (length (Go.arrays h)
                   + length (snd (copied_extra h (length (Go.arrays h))
                                    (Block.Extra hd))))
                  (Block.Extra2 hd)
                  (snd (copied_extra h (length (Go.arrays h)) (Block.Extra hd)))
                  [] He2) as Hel.
    rewrite app_nil_r in Hel. apply Hel. rewrite length_app. reflexivity. }
  split.
  { intros Hlen.
    destruct (copied_extra_fresh h (length (Go.arrays h)) (Block.Extra hd) Hlen)
      as [Hf Hl].
    exists (length (Go.arrays h)).
    unfold copied_header. cbv zeta.
    cbn [Block.Extra Block.Extra2 Block.set_Extra2 Block.set_Extra].
    rewrite Hf, Hl. cbn [Go.s_array].
    split; [reflexivity |]. split; [lia |].
    unfold copied_extra. destruct (0 <? Go.s_len (Block.Extra2 hd))%nat; cbn [fst Go.s_array].
    - intros H. injection H as H. lia.
    - intros H. unfold allocated in He2. rewrite H in He2. lia. }
  split.
  { intros Hlen.
    destruct (copied_extra_fresh h
                (length (Go.arrays h)
                 + length (snd (copied_extra h (length (Go.arrays h))
                                  (Block.Extra hd))))
                (Block.Extra2 hd) Hlen) as [Hf _].
    eexists. unfold copied_header. cbv zeta.
    cbn [Block.Extra2 Block.set_Extra2]. rewrite Hf. cbn [Go.s_array].
    split; [reflexivity | lia]. }
  split.
  { intros Hlen. unfold copied_header. cbv zeta.
    cbn [Block.Extra Block.set_Extra2 Block.set_Extra].
    rewrite (copied_extra_empty h _ _ Hlen). reflexivity. }
  intros Hlen. unfold copied_header. cbv zeta.
  cbn [Block.Extra2 Block.set_Extra2].
  rewrite (copied_extra_empty h _ _ Hlen). reflexivity.
Qed.

Lemma CopyHeader_is_deep_witness :
  exists q h' hd',
    Block.CopyHeader (Some 1%nat) Sample.block_heap = (Go.Ret (Some q), h') /\
    Go.structs h' !! q = Some (Block.HeaderObject hd') /\
    int_at h' (Block.Number hd') = Some 7 /\
    int_at h' (Block.Time hd') = Some 0 /\
    Go.slice_elems h' (Block.Extra hd') = [1; 2; 3].
Proof.
  assert (Hp : Go.structs Sample.block_heap !! 1%nat
               = Some (Block.HeaderObject Sample.sealed)) by reflexivity.
  assert (Hv : valid_header Sample.block_heap Sample.sealed).
  { unfold valid_header, int_ok, allocated. simpl.
    repeat split; eauto; lia. }
  destruct (CopyHeader_is_deep Sample.block_heap 1 Sample.sealed Hp Hv)
    as [(q & t & d & n & h' & hd' & Hrun & Hq & _ & _ & _ & _ & Ht & _ & Hn & _ & _
         & _ & _ & _ & Hti & _ & Hni & He & _) _].
  exists q, h', hd'.
  split; [exact Hrun |]. split; [exact Hq |].
  split; [rewrite Hn; exact Hni |].
  split; [rewrite Ht; exact Hti |].
  rewrite He. reflexivity.
Defined.


Section BlockRuns.
Import Go Block.
Local Open Scope go_scope.
Implicit Types (h : heap) (hd : Header).

Lemma run_block_int_some (f : Header -> option nat) h (b c x : nat)
    (blk : Block) hd (v : Z) :
  structs h !! b = Some (BlockObject blk) ->
  header blk = Some c ->
  structs h !! c = Some (HeaderObject hd) ->
  f hd = Some x ->
  int_at h (Some x) = Some v ->
  (z <- new_Int ;; blk <- load_block (Some b) ;;
   hd <- load_header (header blk) ;; Int_Set z (f hd)) h
  = (Ret (Some (length (structs h))),
     Heap (structs h ++ [IntObject v]) (maps h) (arrays h)).
Proof.
  intros Hb Hc Hhd Hf Hv.
  pose proof (int_at_lookup _ _ _ Hv) as Hx.
  unfold new_Int at 1, new at 1, bind at 1 2. cbn [structs maps arrays].
  unfold ret at 1. cbv beta iota.
  set (h1 := Heap (structs h ++ [IntObject 0]) (maps h) (arrays h)).
  assert (Hl : forall a o, structs h !! a = Some o -> structs h1 !! a = Some o).
  { intros a o Ha. unfold h1. cbn [structs].
    rewrite lookup_app_l by apply (lookup_lt_Some _ _ _ Ha). exact Ha. }
  rewrite (run_bind _ _ _ _ _ (run_load_block h1 b blk (Hl _ _ Hb))).
  rewrite Hc.
  rewrite (run_bind _ _ _ _ _ (run_load_header h1 c hd (Hl _ _ Hhd))).
  rewrite Hf.
  assert (Hz : structs h1 !! length (structs h) = Some (IntObject 0)).
  { unfold h1. cbn [structs]. apply list_lookup_middle. reflexivity. }
  rewrite (run_Int_Set h1 _ _ _ _ Hz (Hl _ _ Hx)).
  unfold h1. cbn [structs maps arrays]. rewrite insert_last_app. reflexivity.
Qed.

Lemma run_block_int_nil (f : Header -> option nat) h (b c : nat)
    (blk : Block) hd :
  structs h !! b = Some (BlockObject blk) ->
  header blk = Some c ->
  structs h !! c = Some (HeaderObject hd) ->
  f hd = None ->
  (z <- new_Int ;; blk <- load_block (Some b) ;;
   hd <- load_header (header blk) ;; Int_Set z (f hd)) h
  = (Panic NilDereference,
     Heap (structs h ++ [IntObject 0]) (maps h) (arrays h)).
Proof.
  intros Hb Hc Hhd Hf.
  unfold new_Int at 1, new at 1, bind at 1 2. cbn [structs maps arrays].
  unfold ret at 1. cbv beta iota.
  set (h1 := Heap (structs h ++ [IntObject 0]) (maps h) (arrays h)).
  assert (Hl : forall a o, structs h !! a = Some o -> structs h1 !! a = Some o).
  { intros a o Ha. unfold h1. cbn [structs].
    rewrite lookup_app_l by apply (lookup_lt_Some _ _ _ Ha). exact Ha. }
  rewrite (run_bind _ _ _ _ _ (run_load_block h1 b blk (Hl _ _ Hb))).
  rewrite Hc.
  rewrite (run_bind _ _ _ _ _ (run_load_header h1 c hd (Hl _ _ Hhd))).
  rewrite Hf. reflexivity.
Qed.

Lemma run_NewBlockWithHeader h (p : nat) hd :
  structs h !! p = Some (HeaderObject hd) ->
  valid_header h hd ->
  NewBlockWithHeader (Some p) h
  = (Ret (Some (length (structs h) + 4)%nat),
     Heap (structs (copied_heap h hd)
           ++ [BlockObject {| header := Some (length (structs h) + 3)%nat;
                              transactions := nil_slice; td := None |}])
          (maps h) (arrays (copied_heap h hd))).
Proof.
  intros Hp Hv. unfold NewBlockWithHeader.
  rewrite (run_bind _ _ _ _ _ (run_CopyHeader h p hd Hp Hv)).
  unfold bind, new, ret.
  replace (length (structs (copied_heap h hd))) with (length (structs h) + 4)%nat.
  - reflexivity.
  - unfold copied_heap. cbv zeta. cbn [structs]. rewrite length_app. reflexivity.
Qed.

Lemma run_WithSeal h (b p : nat) (blk : Block) hd :
  structs h !! p = Some (HeaderObject hd) ->
  structs h !! b = Some (BlockObject blk) ->
  WithSeal (Some b) (Some p) h
  = (Ret (Some (length (structs h) + 1)%nat),
     Heap (structs h
           ++ [HeaderObject hd;
               BlockObject {| header := Some (length (structs h));
                              transactions := transactions blk; td := None |}])
          (maps h) (arrays h)).
Proof.
  intros Hp Hb. unfold WithSeal.
  rewrite (run_bind _ _ _ _ _ (run_load_header _ _ _ Hp)).
  unfold new at 1, bind at 1. cbn [structs maps arrays].
  set (h1 := Heap (structs h ++ [HeaderObject hd]) (maps h) (arrays h)).
  assert (Hb1 : structs h1 !! b = Some (BlockObject blk)).
  { unfold h1. cbn [structs].
    rewrite lookup_app_l by apply (lookup_lt_Some _ _ _ Hb). exact Hb. }
  rewrite (run_bind _ _ _ _ _ (run_load_block h1 b blk Hb1)).
  unfold bind, new, ret, h1. cbn [structs maps arrays].
  rewrite length_app, <- app_assoc. reflexivity.
Qed.

End BlockRuns.

Section BlockFacts.
Import Go Block.
Local Open Scope go_scope.
Implicit Types (h : heap) (hd : Header).

Lemma int_at_fresh (s : list object) m (a : list (list Z)) (v : Z) :
  int_at (Heap (s ++ [IntObject v]) m a) (Some (length s)) = Some v.
Proof.
  unfold int_at. cbn [structs].
  rewrite list_lookup_middle by reflexivity. reflexivity.
Qed.

(** The three numbers of a block whose header holds them. *)
Lemma block_ints h (b c : nat) (blk : Block) hd :
  structs h !! b = Some (BlockObject blk) ->
  header blk = Some c ->
  structs h !! c = Some (HeaderObject hd) ->
  (forall v, int_at h (Number hd) = Some v ->
             returned_int (Block_Number (Some b) h) = Some v) /\
  (forall v, int_at h (Difficulty hd) = Some v ->
             returned_int (Block_Difficulty (Some b) h) = Some v) /\
  (forall v, int_at h (Time hd) = Some v ->
             returned_int (Block_Time (Some b) h) = Some v) /\
  (Number hd = None ->
   exists h', Block_Number (Some b) h = (Panic NilDereference, h')).
Proof.
  intros Hb Hc Hhd.
  assert (Hone : forall f : Header -> option nat, forall v,
            int_at h (f hd) = Some v ->
            returned_int
              ((z <- new_Int ;; blk <- load_block (Some b) ;;
                hd <- load_header (header blk) ;; Int_Set z (f hd)) h)
            = Some v).
  { intros f v Hv. destruct (f hd) as [x |] eqn:Hf; [| discriminate].
    rewrite (run_block_int_some f h b c x blk hd v Hb Hc Hhd Hf Hv).
    apply int_at_fresh. }
  split; [apply (Hone Number) |].
  split; [apply (Hone Difficulty) |].
  split; [apply (Hone Time) |].
  intros Hn. eexists.
  apply (run_block_int_nil Number h b c blk hd Hb Hc Hhd Hn).
Qed.

End BlockFacts.

(** X19.  A block made by [NewBlockWithHeader] has numbers of its own:
    whatever is written afterwards to the header it was made from, or to
    anything else that existed, [Number()], [Difficulty()] and [Time()]
    return the values the header had at the call -- zero for a nil
    field -- and do not panic.  A block made by [WithSeal] has a header
    struct of its own that points to the numbers of the header it was
    given: a value set into that header's number afterwards is what
    [Number()] returns, and [Number()] panics when that field is nil. *)
Theorem NewBlockWithHeader_copies_WithSeal_shares
    (h : Block.heap) (b p : nat) (blk : Block.Block) (hd : Block.Header) :
  Go.structs h !! p = Some (Block.HeaderObject hd) ->
  valid_header h hd ->
  Go.structs h !! b = Some (Block.BlockObject blk) ->
  (exists nb h1,
     Block.NewBlockWithHeader (Some p) h = (Go.Ret (Some nb), h1) /\
     forall h2, same_above (length (Go.structs h)) h1 h2 ->
       returned_int (Block.Block_Number (Some nb) h2)
       = Some (value_of h (Block.Number hd)) /\
       returned_int (Block.Block_Difficulty (Some nb) h2)
       = Some (value_of h (Block.Difficulty hd)) /\
       returned_int (Block.Block_Time (Some nb) h2)
       = Some (value_of h (Block.Time hd))) /\
  (exists nb h1,
     Block.WithSeal (Some b) (Some p) h = (Go.Ret (Some nb), h1) /\
     (Block.Number hd = None ->
      exists h', Block.Block_Number (Some nb) h1
                 = (Go.Panic Go.NilDereference, h')) /\
     (forall (c x : nat) (w : Z),
        Block.Number hd = Some c ->
        is_Some (int_at h (Some c)) ->
        int_at h (Some x) = Some w ->
        returned_int
          (Go.bind (Block.Int_Set (Some c) (Some x))
                   (fun _ => Block.Block_Number (Some nb)) h1)
        = Some w)).
Proof.
  intros Hp Hv Hb.
  set (t := length (Go.structs h)).
  split.
  - eexists _, _. split; [apply (run_NewBlockWithHeader h p hd Hp Hv) |].
    intros h2 [Hlen Hsame].
    assert (Hat : forall k o,
              ([Block.IntObject (value_of h (Block.Time hd));
                Block.IntObject (value_of h (Block.Difficulty hd));
                Block.IntObject (value_of h (Block.Number hd));
                Block.HeaderObject (copied_header h hd)]
               ++ [Block.BlockObject
                     {| Block.header := Some (t + 3)%nat;
                        Block.transactions := Go.nil_slice;
                        Block.td := None |}]) !! k = Some o ->
              Go.structs h2 !! (t + k)%nat = Some o).
    { intros k o Hk. rewrite Hsame by (unfold t; lia).
      cbn [Go.structs]. unfold copied_heap. cbv zeta. cbn [Go.structs].
      rewrite <- app_assoc. rewrite lookup_app_r by (unfold t; lia).
      replace (t + k - length (Go.structs h))%nat with k by (unfold t; lia).
      exact Hk. }
    assert (Hint : forall k v,
              Go.structs h2 !! (t + k)%nat = Some (Block.IntObject v) ->
              int_at h2 (Some (t + k)%nat) = Some v).
    { intros k v Hk. unfold int_at. rewrite Hk. reflexivity. }
    destruct (block_ints h2 (t + 4) (t + 3) _ (copied_header h hd)
                (Hat 4%nat _ eq_refl) eq_refl (Hat 3%nat _ eq_refl))
      as (Hn & Hd & Ht & _).
    split; [apply Hn; apply (Hint 2%nat); apply Hat; reflexivity |].
    split; [apply Hd; apply (Hint 1%nat); apply Hat; reflexivity |].
    apply Ht. change (int_at h2 (Some t) = Some (value_of h (Block.Time hd))).
    pose proof (Hint 0%nat _ (Hat 0%nat _ eq_refl)) as H0.
    rewrite Nat.add_0_r in H0. exact H0.
  - eexists _, _. split; [apply (run_WithSeal h b p blk hd Hp Hb) |].
    set (h1 := Go.Heap _ _ _).
    assert (Hold : forall a o, Go.structs h !! a = Some o ->
                               Go.structs h1 !! a = Some o).
    { intros a o Ha. unfold h1. cbn [Go.structs].
      rewrite lookup_app_l by apply (lookup_lt_Some _ _ _ Ha). exact Ha. }
    assert (Hhd : Go.structs h1 !! t = Some (Block.HeaderObject hd)).
    { unfold h1. cbn [Go.structs]. apply list_lookup_middle. reflexivity. }
    assert (Hblk : Go.structs h1 !! (t + 1)%nat
                   = Some (Block.BlockObject
                             {| Block.header := Some t;
                                Block.transactions := Block.transactions blk;
                                Block.td := None |})).
    { unfold h1. cbn [Go.structs]. rewrite lookup_app_r by (unfold t; lia).
      replace (t + 1 - length (Go.structs h))%nat with 1%nat by (unfold t; lia).
      reflexivity. }
    split.
    + intros Hnil.
      apply (block_ints h1 (t + 1) t _ hd Hblk eq_refl Hhd). exact Hnil.
    + intros c x w Hc [v0 Hv0] Hw.
      pose proof (int_at_lookup _ _ _ Hv0) as Hc0.
      pose proof (int_at_lookup _ _ _ Hw) as Hx0.
      pose proof (lookup_lt_Some _ _ _ Hc0) as Hclt. fold t in Hclt.
      rewrite (run_bind _ _ _ _ _
                 (run_Int_Set h1 c x v0 w (Hold _ _ Hc0) (Hold _ _ Hx0))).
      set (h2 := Go.Heap _ _ _).
      assert (Hne : forall a o, a <> c -> Go.structs h1 !! a = Some o ->
                                Go.structs h2 !! a = Some o).
      { intros a o Ha Hl. unfold h2. cbn [Go.structs].
        rewrite list_lookup_insert_ne by auto. exact Hl. }
      assert (H1 : (t + 1)%nat <> c) by lia.
      assert (H2 : t <> c) by lia.
      apply (block_ints h2 (t + 1) t _ hd
               (Hne _ _ H1 Hblk) eq_refl (Hne _ _ H2 Hhd)).
      rewrite Hc. unfold int_at, h2. cbn [Go.structs].
      rewrite list_lookup_insert_eq; [reflexivity |].
      apply (lookup_lt_Some _ _ _ (Hold _ _ Hc0)).
Qed.

Lemma NewBlockWithHeader_copies_WithSeal_shares_witness :
  (exists nb h1,
     Block.NewBlockWithHeader (Some 1%nat) Sample.block_heap
     = (Go.Ret (Some nb), h1) /\
     returned_int (Block.Block_Number (Some nb) h1) = Some 7) /\
  (exists nb h1,
     Block.WithSeal (Some 2%nat) (Some 1%nat) Sample.block_heap
     = (Go.Ret (Some nb), h1) /\
     returned_int
       (Go.bind (Block.Int_Set (Some 0%nat) (Some 3%nat))
                (fun _ => Block.Block_Number (Some nb)) h1)
     = Some 9).
Proof.
  assert (Hp : Go.structs Sample.block_heap !! 1%nat
               = Some (Block.HeaderObject Sample.sealed)) by reflexivity.
  assert (Hv : valid_header Sample.block_heap Sample.sealed).
  { unfold valid_header, int_ok, allocated. simpl.
    repeat split; eauto; lia. }
  assert (Hb : Go.structs Sample.block_heap !! 2%nat
               = Some (Block.BlockObject
                         {| Block.header := None;
                            Block.transactions := Go.nil_slice;
                            Block.td := None |})) by reflexivity.
  destruct (NewBlockWithHeader_copies_WithSeal_shares
              Sample.block_heap 2 1 _ Sample.sealed Hp Hv Hb)
    as [(nb & h1 & Hrun & Hcopy) (nb' & h1' & Hrun' & _ & Hshare)].
  split.
  - exists nb, h1. split; [exact Hrun |].
    destruct (Hcopy h1) as (Hn & _); [split; [reflexivity | auto] |].
    exact Hn.
  - exists nb', h1'. split; [exact Hrun' |].
    apply (Hshare 0%nat 3%nat 9); [reflexivity | eexists; reflexivity | reflexivity].
Defined.

(* ===================================================================== *)
(** * What the copy of a snapshot holds *)
(* ===================================================================== *)

Section CopyRuns.
Import Go Dpor.
Context {env : Environment}.
Implicit Types (h : heap) (st : DporSnapshot).
Local Open Scope go_scope.

Variables (h0 : heap) (s : nat) (st0 : DporSnapshot).

Lemma copying_new_map h :
  copying h0 s st0 h ->
  copying h0 s st0 (Heap (structs h) (maps h ++ [∅]) (arrays h)).
Proof.
  intros (Hs & Hc & Hl & Hv & Hp & Ha & He).
  unfold copying, map_contents in *. cbn [structs maps arrays].
  split; [exact Hs |]. split; [exact Hc |].
  split; [rewrite length_app; cbn [length]; lia |].
  split; [rewrite lookup_app_l by lia; exact Hv |].
  split; [rewrite lookup_app_l by lia; exact Hp |].
  split; [exact Ha | exact He].
Qed.

Lemma copying_map_set h (lt : nat) (m : gmap Z slice) :
  (length (maps h0) + 2 < lt)%nat ->
  copying h0 s st0 h ->
  copying h0 s st0 (Heap (structs h) (<[lt := m]> (maps h)) (arrays h)).
Proof.
  intros Hlt (Hs & Hc & Hl & Hv & Hp & Ha & He).
  unfold copying, map_contents in *. cbn [structs maps arrays].
  split; [exact Hs |]. split; [exact Hc |].
  split; [rewrite length_insert; exact Hl |].
  split; [rewrite list_lookup_insert_ne by lia; exact Hv |].
  split; [rewrite list_lookup_insert_ne by lia; exact Hp |].
  split; [exact Ha | exact He].
Qed.

Lemma copying_installed h (term : Z) (len : nat) (x : list Z) :
  copying h0 s st0 h ->
  copying h0 s st0 (installed (length (maps h0)) 5 term len x h).
Proof.
  intros (Hs & Hc & Hl & Hv & Hp & Ha & He).
  unfold copying.
  split; [exact Hs |]. split; [exact Hc |].
  split; [unfold installed; cbn [maps]; rewrite length_insert; exact Hl |].
  split; [rewrite installed_map_ne by lia; exact Hv |].
  split; [rewrite installed_map_ne by lia; exact Hp |].
  split.
  - unfold allocated, installed in *. cbn [arrays copy_struct Candidates s_array] in *.
    rewrite length_app. lia.
  - rewrite installed_elems_old by exact Ha. exact He.
Qed.

(** The three getters of [copy] leave the copy as it is. *)
Lemma wp_copy_map_copying (r : mapref) (Q : mapref -> heap -> Prop) X h :
  copying h0 s st0 h ->
  (forall m h', copying h0 s st0 h' -> Q m h') ->
  wp (copy_map r) Q X h.
Proof.
  intros Hc HQ. unfold copy_map.
  apply wp_bind, wp_make_map.
  pose proof (copying_new_map h Hc) as Hc1.
  set (h1 := Heap (structs h) (maps h ++ [∅]) (arrays h)) in *.
  assert (Hlt : (length (maps h0) + 2 < length (maps h))%nat) by apply Hc.
  apply wp_bind, wp_map_range.
  apply wp_bind.
  apply wp_mono with (Q' := fun _ h' => copying h0 s st0 h') (X' := X).
  - apply (wp_for_each _ _ (fun h' => copying h0 s st0 h')).
    + intros e h' _ Hc'. apply wp_map_set.
      apply copying_map_set; [exact Hlt | exact Hc'].
    + exact Hc1.
  - intros _ h' Hc'. apply wp_ret. apply HQ. exact Hc'.
  - auto.
Qed.

(** The three loops of [copy] leave the validators and the proposers of
    the copy as they are. *)
Lemma wp_install_all_copying (es : list (Z * slice)) X h :
  copying h0 s st0 h ->
  wp (for_each es (fun e => setRecentSigners (length (structs h0)) (fst e) (snd e)))
     (fun _ h' => copying h0 s st0 h') X h.
Proof.
  intros Hc.
  apply (wp_for_each _ _ (fun h' => copying h0 s st0 h')); [| exact Hc].
  intros e h' _ Hc'.
  pose proof Hc' as (_ & Hcpy & Hl & _).
  eapply wp_setRecentSigners; [exact Hcpy | reflexivity | lia |].
  intros x _. apply copying_installed. exact Hc'.
Qed.

Lemma wp_copying (Hs : structs h0 !! s = Some st0)
    (Ha : allocated h0 (Candidates st0)) :
  wp (Dpor.copy s)
     (fun cpy h' => cpy = length (structs h0) /\ copying h0 s st0 h')
     (fun _ => False) h0.
Proof.
  unfold Dpor.copy.
  apply wp_bind. eapply wp_run; [apply (run_load _ _ _ Hs) |].
  apply wp_bind. eapply wp_run; [apply (run_number _ _ _ Hs) |].
  apply wp_bind. eapply wp_run; [apply (run_hash _ _ _ Hs) |].
  apply wp_bind, wp_make_slice.
  apply wp_bind, wp_make_map. apply wp_bind, wp_make_map.
  apply wp_bind, wp_make_map. apply wp_bind, wp_new.
  cbn [structs maps arrays].
  rewrite !length_app. cbn [length].
  set (n := s_len (Candidates st0)).
  set (h1 := Heap _ _ _).
  assert (Hs1 : structs h1 !! s = Some st0).
  { unfold h1. cbn [structs].
    rewrite lookup_app_l by apply (lookup_lt_Some _ _ _ Hs). exact Hs. }
  apply wp_bind. eapply wp_run; [apply (run_candidates _ _ _ Hs1) |].
  apply wp_bind.
  apply wp_run with (a := tt)
    (h' := Heap (structs h1) (maps h1)
                (arrays h0 ++ [slice_elems h0 (Candidates st0)])).
  { unfold Go.copy, h1. simpl. fold n.
    rewrite Nat.min_id.
    rewrite list_lookup_middle by reflexivity. simpl.
    rewrite drop_replicate, Nat.sub_diag. simpl. rewrite app_nil_r.
    rewrite insert_last_app.
    match goal with
    | |- context [slice_elems ?hh (Candidates st0)] =>
        replace (slice_elems hh (Candidates st0))
          with (slice_elems h0 (Candidates st0))
    end.
    - unfold n. rewrite slice_elems_take. reflexivity.
    - unfold slice_elems, allocated in *. cbn [arrays].
      destruct (s_array (Candidates st0)) as [a |]; [| reflexivity].
      rewrite lookup_app_l by exact Ha. reflexivity. }
  set (h2 := Heap _ _ _).
  assert (Hc2 : copying h0 s st0 h2).
  { unfold copying, h2, h1, map_contents. cbn [structs maps arrays].
    split; [exact Hs1 |].
    split.
    { rewrite list_lookup_middle by reflexivity. unfold copy_struct. fold n.
      replace (length (maps h0) + 1 + 1)%nat with (length (maps h0) + 2)%nat by lia.
      reflexivity. }
    split; [rewrite !length_app; cbn [length]; lia |].
    split.
    { rewrite <- !app_assoc. cbn [app].
      rewrite lookup_app_r by lia.
      replace (length (maps h0) + 1 - length (maps h0))%nat with 1%nat by lia.
      reflexivity. }
    split.
    { rewrite <- !app_assoc. cbn [app].
      rewrite lookup_app_r by lia.
      replace (length (maps h0) + 2 - length (maps h0))%nat with 2%nat by lia.
      reflexivity. }
    split.
    { unfold allocated. cbn [copy_struct Candidates s_array arrays].
      rewrite length_app. cbn [length]. lia. }
    unfold slice_elems at 1. cbn [copy_struct Candidates s_array s_len arrays].
    rewrite list_lookup_middle by reflexivity. cbn [default].
    apply slice_elems_take. }
  clearbody h2. clear h1 Hs1.
  assert (Hgetter : forall (field : DporSnapshot -> mapref) h
                      (k : mapref -> M nat),
             copying h0 s st0 h ->
             (forall m h', copying h0 s st0 h' ->
                wp (k m) (fun cpy h'' => cpy = length (structs h0)
                                         /\ copying h0 s st0 h'')
                   (fun _ => False) h') ->
             wp (Go.bind (st <- load s ;; copy_map (field st)) k)
                (fun cpy h'' => cpy = length (structs h0) /\ copying h0 s st0 h'')
                (fun _ => False) h).
  { intros field h k Hc Hk. apply wp_bind. apply wp_bind.
    eapply wp_run; [apply (run_load _ _ _ (proj1 Hc)) |].
    apply wp_copy_map_copying; [exact Hc |]. exact Hk. }
  assert (Hloop : forall (r : mapref) h (k : M nat),
             copying h0 s st0 h ->
             (forall h', copying h0 s st0 h' ->
                wp k (fun cpy h'' => cpy = length (structs h0)
                                     /\ copying h0 s st0 h'')
                   (fun _ => False) h') ->
             wp (es <- map_range range_order r ;;
                 for_each es (fun e => setRecentSigners (length (structs h0))
                                         (fst e) (snd e)) ;;; k)
                (fun cpy h'' => cpy = length (structs h0) /\ copying h0 s st0 h'')
                (fun _ => False) h).
  { intros r h k Hc Hk. apply wp_bind, wp_map_range. apply wp_bind.
    apply wp_mono with (Q' := fun _ h' => copying h0 s st0 h')
                       (X' := fun _ => False).
    - apply wp_install_all_copying. exact Hc.
    - intros u h' Hc'. apply Hk. exact Hc'.
    - auto. }
  apply (Hgetter RecentSigners); [exact Hc2 |]. intros m1 h3 Hc3.
  apply Hloop; [exact Hc3 |]. intros h4 Hc4.
  apply (Hgetter RecentProposers); [exact Hc4 |]. intros m2 h5 Hc5.
  apply Hloop; [exact Hc5 |]. intros h6 Hc6.
  apply (Hgetter RecentValidators); [exact Hc6 |]. intros m3 h7 Hc7.
  apply Hloop; [exact Hc7 |]. intros h8 Hc8.
  apply wp_ret. split; [reflexivity | exact Hc8].
Qed.

End CopyRuns.

(** X20.  [copy] carries over the signers and nothing else of the
    committees.  Whatever the original holds, the proposers and the
    validators of the copy are empty: [getRecentProposers],
    [getRecentValidators], [ProposersOf] and [ValidatorsOf] return nil on
    the copy for every term and every block, because the three loops of
    [copy] all call [setRecentSigners].  The number, the hash, the
    configuration and the candidates of the copy are the original's, the
    candidates in an array of their own, and the original is as it was. *)
Theorem copy_keeps_no_proposers
    (env : Dpor.Environment) (h : Dpor.heap) (s : nat) (st : Dpor.DporSnapshot) :
  Go.structs h !! s = Some st ->
  allocated h (Dpor.Candidates st) ->
  exists cpy h' st',
    Dpor.copy s h = (Go.Ret cpy, h') /\
    cpy = length (Go.structs h) /\
    Go.structs h' !! cpy = Some st' /\
    Go.structs h' !! s = Some st /\
    Dpor.Number st' = Dpor.Number st /\
    Dpor.Hash st' = Dpor.Hash st /\
    Dpor.config st' = Dpor.config st /\
    Go.slice_elems h' (Dpor.Candidates st') = Go.slice_elems h (Dpor.Candidates st) /\
    fresh_slice h (Dpor.Candidates st') /\
    (forall t, Dpor.getRecentProposers cpy t h' = (Go.Ret Go.nil_slice, h')) /\
    (forall t, Dpor.getRecentValidators cpy t h' = (Go.Ret Go.nil_slice, h')) /\
    (forall n,
       (n <> 0 ->
        U64.mul (Dpor.TermLen (Dpor.config st)) (Dpor.ViewLen (Dpor.config st)) <> 0) ->
       Dpor.ProposersOf cpy n h' = (Go.Ret Go.nil_slice, h') /\
       Dpor.ValidatorsOf cpy n h' = (Go.Ret Go.nil_slice, h')).
Proof.
  intros Hs Ha.
  destruct (wp_returns _ _ _ (wp_copying h s st Hs Ha))
    as (cpy & h' & Hrun & -> & (Hs' & Hc & Hl & Hv & Hp & Hal & He)).
  exists (length (Go.structs h)), h', (copy_struct h st).
  split; [exact Hrun |]. split; [reflexivity |].
  split; [exact Hc |]. split; [exact Hs' |].
  split; [reflexivity |]. split; [reflexivity |]. split; [reflexivity |].
  split; [exact He |].
  split; [unfold fresh_slice; cbn [copy_struct Dpor.Candidates Go.s_array]; lia |].
  assert (Hgp : forall t,
            Dpor.getRecentProposers (length (Go.structs h)) t h'
            = (Go.Ret Go.nil_slice, h')).
  { intros t. rewrite (run_getRecentProposers h' _ _ Hc).
    cbn [copy_struct Dpor.RecentProposers]. rewrite Hp, lookup_empty. reflexivity. }
  assert (Hgv : forall t,
            Dpor.getRecentValidators (length (Go.structs h)) t h'
            = (Go.Ret Go.nil_slice, h')).
  { intros t. rewrite (run_getRecentValidators h' _ _ Hc).
    cbn [copy_struct Dpor.RecentValidators]. rewrite Hv, lookup_empty. reflexivity. }
  split; [exact Hgp |]. split; [exact Hgv |].
  intros n Hdiv. split.
  - rewrite (run_ProposersOf h' _ _ Hc n Hdiv).
    cbn [copy_struct Dpor.RecentProposers]. rewrite Hp, lookup_empty. reflexivity.
  - rewrite (run_ValidatorsOf h' _ _ Hc n Hdiv).
    cbn [copy_struct Dpor.RecentValidators]. rewrite Hv, lookup_empty. reflexivity.
Qed.

Lemma copy_keeps_no_proposers_witness :
  fst (Go.bind (Dpor.ProposersOf 0 0) Go.elems
         Sample.three_committees_heap) = Go.Ret [5; 6; 7; 8] /\
  exists cpy h',
    @Dpor.copy Sample.env 0 Sample.three_committees_heap = (Go.Ret cpy, h') /\
    Dpor.ProposersOf cpy 0 h' = (Go.Ret Go.nil_slice, h').
Proof.
  split; [vm_compute; reflexivity |].
  assert (Hs : Go.structs Sample.three_committees_heap !! 0%nat
               = Some Sample.genesis) by (vm_compute; reflexivity).
  assert (Ha : allocated Sample.three_committees_heap
                 (Dpor.Candidates Sample.genesis)) by (vm_compute; exact I).
  destruct (copy_keeps_no_proposers Sample.env Sample.three_committees_heap 0
              Sample.genesis Hs Ha)
    as (cpy & h' & st' & Hrun & _ & _ & _ & _ & _ & _ & _ & _ & _ & _ & Hof).
  exists cpy, h'. split; [exact Hrun |].
  apply Hof. intros _. vm_compute. discriminate.
Defined.

(* ===================================================================== *)
(** * What the snapshot returned by apply holds *)
(* ===================================================================== *)

Section NoProposers.
Import Go Dpor.
Context {env : Environment}.
Variables (h : heap) (s : nat) (st : DporSnapshot).
Hypothesis Hs : structs h !! s = Some st.
Hypothesis Hdiv : U64.mul (TermLen (config st)) (ViewLen (config st)) <> 0.

(** The queries on a snapshot whose proposers are empty. *)
Lemma run_IsProposerOf_none (a n : Z) :
  map_contents h (RecentProposers st) = ∅ ->
  n <> 0 ->
  IsProposerOf s a n h = (Ret (false, Some errProposerNotInCommittee), h).
Proof.
  intros Hp Hn. unfold IsProposerOf.
  destruct (Z.eqb_spec n 0); [contradiction |].
  rewrite (run_bind _ _ _ _ _ (run_ProposerViewOf h s st Hs a n (fun _ => Hdiv))).
  rewrite Hp, lookup_empty. reflexivity.
Qed.

Lemma run_InturnOf_none (a n : Z) :
  map_contents h (RecentProposers st) = ∅ ->
  InturnOf s n a h = (Ret false, h).
Proof.
  intros Hp. unfold InturnOf.
  destruct (Z.eq_dec n 0) as [-> | Hn]; [reflexivity |].
  rewrite (run_bind _ _ _ _ _ (run_IsProposerOf_none a n Hp Hn)). reflexivity.
Qed.

Lemma run_IsValidatorOf_none (a n : Z) :
  map_contents h (RecentValidators st) = ∅ ->
  IsValidatorOf s a n h = (Ret false, h).
Proof.
  intros Hv. unfold IsValidatorOf, ValidatorViewOf.
  rewrite (run_bind _ _ _ _ _
             (run_bind _ _ _ _ _
                (run_ValidatorsOf h s st Hs n (fun _ => Hdiv)))).
  rewrite Hv, lookup_empty. reflexivity.
Qed.

End NoProposers.

(** X21.  A snapshot that [apply] returns for a batch that is not empty
    has no proposers and no validators: its two mappings are empty,
    whatever the original held and whatever the headers were, since
    [copy] fills the signers only and [applyHeader] runs [updateSigners]
    only.  So on that snapshot [IsValidatorOf] is false and [InturnOf] is
    false for every address and block, and [IsProposerOf] fails with the
    proposers' error for every block but 0. *)
Theorem applied_snapshot_has_no_proposers
    (keccak : types.Keccak) (env : Dpor.Environment)
    (h : Dpor.heap) (s : nat) (st : Dpor.DporSnapshot)
    (first : types.Header) (rest : list types.Header) (cc : option nat) :
  Go.structs h !! s = Some st ->
  well_configured (Dpor.config st) ->
  fits st first rest = true ->
  exists snap h',
    Dpor.apply s (first :: rest) cc h = (Go.Ret (Some snap, None), h') /\
    (forall t,
       Dpor.getRecentProposers snap t h' = (Go.Ret Go.nil_slice, h') /\
       Dpor.getRecentValidators snap t h' = (Go.Ret Go.nil_slice, h')) /\
    (forall n a, Dpor.IsValidatorOf snap a n h' = (Go.Ret false, h')) /\
    (forall n a, n <> 0 ->
       Dpor.IsProposerOf snap a n h'
       = (Go.Ret (false, Some Dpor.errProposerNotInCommittee), h')) /\
    (forall n a, Dpor.InturnOf snap n a h' = (Go.Ret false, h')).
Proof.
  intros Hs Hwc Hfits.
  destruct (apply_accepted h s st first rest cc Hs Hwc Hfits)
    as (snap & h' & l1 & l2 & l3 & Hrun & Ho & (st1 & Hp1 & _) & _).
  pose proof (owned_struct_at _ _ _ _ _ _ _ _ Ho Hp1) as (_ & Hr2 & Hr3 & Hc1 & _).
  pose proof (own_proposers _ _ _ _ _ _ _ Ho) as Hp. rewrite <- Hr2 in Hp.
  pose proof (own_validators _ _ _ _ _ _ _ Ho) as Hv. rewrite <- Hr3 in Hv.
  assert (Hdiv : U64.mul (Dpor.TermLen (Dpor.config st1))
                         (Dpor.ViewLen (Dpor.config st1)) <> 0).
  { rewrite Hc1. apply Hwc. }
  exists snap, h'. split; [exact Hrun |].
  split.
  { intros t. split.
    - rewrite (run_getRecentProposers h' snap st1 Hp1), Hp, lookup_empty. reflexivity.
    - rewrite (run_getRecentValidators h' snap st1 Hp1), Hv, lookup_empty. reflexivity. }
  split; [intros n a; apply (run_IsValidatorOf_none h' snap st1 Hp1 Hdiv a n Hv) |].
  split; [intros n a Hn; apply (run_IsProposerOf_none h' snap st1 Hp1 Hdiv a n Hp Hn) |].
  intros n a. apply (run_InturnOf_none h' snap st1 Hp1 Hdiv a n Hp).
Qed.

Lemma applied_snapshot_has_no_proposers_witness :
  fst (Go.bind (Dpor.ProposersOf 0 0) Go.elems Sample.three_committees_heap)
  = Go.Ret [5; 6; 7; 8] /\
  exists snap h',
    @Dpor.apply Sample.keccak Sample.env 0 [Sample.header 1] None
      Sample.three_committees_heap = (Go.Ret (Some snap, None), h') /\
    Dpor.ProposersOf snap 0 h' = (Go.Ret Go.nil_slice, h') /\
    Dpor.InturnOf snap 1 5 h' = (Go.Ret false, h').
Proof.
  split; [vm_compute; reflexivity |].
  assert (Hs : Go.structs Sample.three_committees_heap !! 0%nat
               = Some Sample.genesis) by (vm_compute; reflexivity).
  destruct (applied_snapshot_has_no_proposers Sample.keccak Sample.env
              Sample.three_committees_heap 0 Sample.genesis
              (Sample.header 1) [] None Hs sample_well_configured)
    as (snap & h' & Hrun & Hget & _ & _ & Hin); [vm_compute; reflexivity |].
  exists snap, h'. split; [exact Hrun |]. split; [| apply Hin].
  pose proof (Hget 0) as [Hp _].
  unfold Dpor.ProposersOf, Dpor.TermOf. cbn [Z.eqb]. exact Hp.
Defined.
